(** * svox2 training driver ([opt/opt.py]): a shallow embedding

    The script loads a posed multi-view dataset, then alternates, once per
    epoch, an evaluation pass, a training pass of manual gradient descent
    over mini-batches of rays, and a checkpoint write.  The renderer, the
    sparse grid, automatic differentiation, JSON and PNG decoding belong to
    external libraries; they appear here as the fields of two interfaces,
    [Scalar] (floating-point arithmetic) and [Extern] (library calls), and
    every definition below is parametric in them.

    Python integers are [Z]; tensors are lists indexed along their first
    axis; a Python exception is a [Raise] result; the module-level variables
    the two closures [eval_step] and [train_step] read and write form the
    record [State], threaded by the monad [M].  Console output ([print],
    [tqdm]) is not modelled. *)

From Stdlib Require Import Ascii Reals Lra.
From stdpp Require Import gmap strings list fin_maps pretty sorting.

Local Open Scope Z_scope.

(** ** Exceptions and results *)

Inductive exn : Type :=
  | FileNotFoundError
  | JSONDecodeError
  | KeyError (key : string)
  | TypeError
  | IndexError
  | ValueError
  | ZeroDivisionError
  | RuntimeError
  | OSError.                    (* an [OSError] other than [FileNotFoundError] *)

Inductive result (A : Type) : Type :=
  | Ok (a : A)
  | Raise (e : exn).
Arguments Ok {A} a.
Arguments Raise {A} e.

Definition is_raise {A} (r : result A) : Prop :=
  match r with Ok _ => False | Raise _ => True end.

#[global] Instance result_ret : MRet result := λ A a, Ok a.
#[global] Instance result_bind : MBind result := λ A B f r,
  match r with Ok a => f a | Raise e => Raise e end.
#[global] Instance result_fmap : FMap result := λ A B f r,
  match r with Ok a => Ok (f a) | Raise e => Raise e end.

(** [o ?! e]: the value of [o], or exception [e] when there is none. *)
Definition or_raise {A} (o : option A) (e : exn) : result A :=
  match o with Some a => Ok a | None => Raise e end.
Infix "?!" := or_raise (at level 45, left associativity).

(** A [for] loop that threads its local variables as an accumulator and
    stops at the first exception. *)
Fixpoint foldR {A B} (f : B → A → result B) (b : B) (l : list A) : result B :=
  match l with
  | [] => Ok b
  | a :: l' => b' ← f b a; foldR f b' l'
  end.

(** ** Python integers, [range], indexing and slicing *)

(** [a // b] and [a % b]: floor division, as [Z.div] and [Z.modulo], but a
    zero divisor raises. *)
Definition py_floordiv (a b : Z) : result Z :=
  if decide (b = 0) then Raise ZeroDivisionError else Ok (a `div` b).
Definition py_mod (a b : Z) : result Z :=
  if decide (b = 0) then Raise ZeroDivisionError else Ok (a `mod` b).

(** [range(start, stop, step)] iterates [b = start, start + step, ...] while
    [b < stop] (for a positive step) or [b > stop] (for a negative one).
    The loop is given [|stop - start|] units of fuel, which it never
    exhausts since every iteration moves [b] by at least one
    ([range_up_spec] below). *)
Fixpoint range_up (fuel : nat) (b stop step : Z) : list Z :=
  match fuel with
  | O => []
  | S fuel' => if decide (b < stop) then b :: range_up fuel' (b + step) stop step else []
  end.

Fixpoint range_down (fuel : nat) (b stop step : Z) : list Z :=
  match fuel with
  | O => []
  | S fuel' => if decide (stop < b) then b :: range_down fuel' (b + step) stop step else []
  end.

Definition py_range (start stop step : Z) : result (list Z) :=
  if decide (step = 0) then Raise ValueError
  else if decide (0 < step) then Ok (range_up (Z.to_nat (stop - start)) start stop step)
  else Ok (range_down (Z.to_nat (start - stop)) start stop step).

(** [enumerate(l)] *)
Definition enumerate {A} (l : list A) : list (Z * A) :=
  imap (λ i a, (Z.of_nat i, a)) l.

(** Normalisation of a slice bound against a length: negative bounds count
    from the end, and the result is clamped to [0, len]. *)
Definition clamp_index (len i : Z) : Z :=
  let i' := if decide (i < 0) then i + len else i in
  Z.max 0 (Z.min len i').

(** [l[b:e]] *)
Definition py_slice {A} (b e : Z) (l : list A) : list A :=
  let len := Z.of_nat (length l) in
  let b' := clamp_index len b in
  let e' := clamp_index len e in
  take (Z.to_nat (e' - b')) (drop (Z.to_nat b') l).

(** [l[i]]: negative indices count from the end; out of range raises. *)
Definition py_index {A} (l : list A) (i : Z) : result A :=
  let len := Z.of_nat (length l) in
  let i' := if decide (i < 0) then i + len else i in
  if decide (0 ≤ i' < len) then l !! Z.to_nat i' ?! IndexError else Raise IndexError.

(** [l[idx]] for an index tensor [idx] (advanced indexing on the first axis). *)
Definition index_select {A} (l : list A) (idx : list Z) : result (list A) :=
  mapM (py_index l) idx.

(** ** POSIX paths and NumPy file names *)

Definition ends_with (suffix s : string) : bool :=
  let n := String.length s in let k := String.length suffix in
  if decide (k ≤ n)%nat then bool_decide (String.substring (n - k) k s = suffix) else false.

Definition starts_with (pre s : string) : bool :=
  bool_decide (String.substring 0 (String.length pre) s = pre).

(** [os.path.join(a, b)] for two components. *)
Definition path_join (a b : string) : string :=
  if starts_with "/" b then b
  else if bool_decide (a = EmptyString) || ends_with "/" a then a +:+ b
  else a +:+ "/" +:+ b.

(** [os.path.basename(p)]: what follows the last slash. *)
Fixpoint basename_aux (acc : string) (p : string) : string :=
  match p with
  | EmptyString => acc
  | String c p' =>
      if bool_decide (c = "/"%char) then basename_aux EmptyString p'
      else basename_aux (acc +:+ String c EmptyString) p'
  end.
Definition basename (p : string) : string := basename_aux EmptyString p.

(** [f'{n:04d}']: decimal, zero-padded to width four, the sign counted in
    the width. *)
Definition zero_pad (width : nat) (digits : string) : string :=
  String.string_of_list_ascii (replicate (width - String.length digits) "0"%char) +:+ digits.
Definition format_04d (n : Z) : string :=
  if decide (n < 0) then "-" +:+ zero_pad 3 (pretty (Z.abs n)) else zero_pad 4 (pretty n).

(** [np.savez(file, ...)] appends [.npz] to a file name that lacks it. *)
Definition savez_filename (file : string) : string :=
  if ends_with ".npz" file then file else file +:+ ".npz".

(** ** The two external interfaces *)

(** Floating-point scalars.  Tensor elements and Python floats are not told
    apart; nothing below depends on how the operations round. *)
Class Scalar (F : Type) := {
  of_Z : Z → F;                 (* the float of an integer *)
  fadd : F → F → F;
  fsub : F → F → F;
  fmul : F → F → F;
  fdiv : F → F → F;
  ftan : F → F;                 (* [np.tan] *)
  flog10 : F → result F;        (* [math.log10]; [ValueError] outside its domain *)
  fmean : list F → F            (* [Tensor.mean] over the elements of a tensor *)
}.

(** JSON values as [json.load] returns them. *)
#[warnings="-register-all"]
Inductive json (F : Type) : Type :=
  | JNull
  | JBool (b : bool)
  | JNum (x : F)
  | JStr (s : string)
  | JArr (items : list (json F))
  | JObj (members : list (string * json F)).
Arguments JNull {F}.
Arguments JBool {F} b.
Arguments JNum {F} x.
Arguments JStr {F} s.
Arguments JArr {F} items.
Arguments JObj {F} members.

(** A tensor of rows, e.g. rays-by-3 or voxels-by-channels. *)
Abbreviation tensor2 F := (list (list F)).
(** A decoded image: height by width by channels. *)
Abbreviation image A := (list (list (list A))).

(** [grid.opt] *)
Record RenderOptions (F : Type) := {
  step_size : F;
  sigma_thresh : F;
  linear_interp : bool
}.
Arguments step_size {F} r.
Arguments sigma_thresh {F} r.
Arguments linear_interp {F} r.

(** Calls into [json], [imageio], [torch] and [svox2]. *)
Class Extern (F : Type) := {
  links_t : Type;               (* the grid's link tensor *)
  pose : Type;                  (* a camera-to-world tensor *)
  pose_batch : Type;            (* the stacked camera-to-world tensors *)
  rng_t : Type;                 (* state of the random generator *)
  json_decode : string → option (json F);
  png_decode : string → option (image Z);
  torch_tensor : json F → result pose;
  torch_stack : list pose → result pose_batch;
  (* lines 89-104 of the script: per image, the origins and the directions
     of the [h * w] rays, origins scaled by [scene_scale] *)
  generate_rays : pose_batch → Z → Z → F → F → result (list (tensor2 F) * list (tensor2 F));
  manual_seed : Z → rng_t;
  randperm : rng_t → Z → list Z * rng_t;
  (* [os.makedirs(dir, exist_ok=True)] for a directory name that is not
     empty, and [SummaryWriter(dir)]: what they do depends on the file
     system *)
  makedirs : string → result unit;
  summary_writer : string → result unit;
  (* the exception of [torch.cat] for an empty list of tensors: a
     [RuntimeError] or a [ValueError], by the version of the library *)
  cat_empty_error : exn;
  (* [svox2.SparseGrid(reso, radius=1.0, basis_dim, ...)]: the links and
     the coefficient array of the new grid *)
  sparse_grid : Z → Z → result (links_t * tensor2 F);
  (* [grid.volume_render(rays)]: reads the grid, returns a colour per ray *)
  volume_render : RenderOptions F → links_t → tensor2 F → tensor2 F → tensor2 F → result (tensor2 F);
  (* the gradient that [mse.backward()] leaves in [grid.data.grad], for the
     batch (origins, directions, ground truth) rendered from the grid *)
  mse_gradient : RenderOptions F → links_t → tensor2 F → tensor2 F → tensor2 F → tensor2 F → result (tensor2 F)
}.

(** ** Tensor operations written with the scalar interface *)

Section Tensors.
Context {F : Type} `{Scalar F}.

Definition half : F := fdiv (of_Z 1) (of_Z 2).

(** NumPy broadcasting of a binary operation along the last axis: equal
    lengths go element by element, a length of one is stretched, anything
    else is an error. *)
Definition broadcast_last (op : F → F → F) (x y : list F) : result (list F) :=
  if decide (length x = length y) then Ok (zip_with op x y)
  else match x, y with
       | [a], _ => Ok (op a <$> y)
       | _, [b] => Ok ((λ a, op a b) <$> x)
       | _, _ => Raise ValueError
       end.

(** [imageio.imread(fpath).astype(np.float32) / 255.0] on the decoded bytes *)
Definition to_unit_range (raw : image Z) : image F :=
  (λ row : list (list Z), (λ px : list Z, (λ v, fdiv (of_Z v) (of_Z 255)) <$> px) <$> row)
    <$> raw.

(** One pixel of [im[..., :3] * im[..., 3:] + (1.0 - im[..., 3:])] *)
Definition composite_pixel (px : list F) : result (list F) :=
  let rgb := take 3 px in
  let alpha := drop 3 px in
  prod ← broadcast_last fmul rgb alpha;
  broadcast_last fadd prod (fsub (of_Z 1) <$> alpha).

Definition composite_white (im : image F) : result (image F) :=
  mapM (mapM composite_pixel) im.

(** Shape of a tensor of rows, and an element-wise binary operation that,
    like [torch], refuses operands of different shapes (shapes that
    [torch] would broadcast do not arise: both operands always come from
    the same batch or the same parameter). *)
Definition shape2 (t : tensor2 F) : list nat := length <$> t.

Definition tensor_zip (op : F → F → F) (x y : tensor2 F) : result (tensor2 F) :=
  if decide (shape2 x = shape2 y) then Ok (zip_with (zip_with op) x y)
  else Raise RuntimeError.

(** [t[..., k:] *= c] and [t[..., :k] *= c] *)
Definition scale_from (k : nat) (c : F) (t : tensor2 F) : tensor2 F :=
  (λ row, take k row ++ ((λ x, fmul x c) <$> drop k row)) <$> t.
Definition scale_upto (k : nat) (c : F) (t : tensor2 F) : tensor2 F :=
  (λ row, ((λ x, fmul x c) <$> take k row) ++ drop k row) <$> t.

(** [t[..., k:] = c] and [t[..., :k] = c] *)
Definition fill_from (k : nat) (c : F) (t : tensor2 F) : tensor2 F :=
  (λ row, take k row ++ ((λ _, c) <$> drop k row)) <$> t.
Definition fill_upto (k : nat) (c : F) (t : tensor2 F) : tensor2 F :=
  (λ row, ((λ _, c) <$> take k row) ++ drop k row) <$> t.

(** [(x - y) ** 2] *)
Definition squared_error (x y : tensor2 F) : result (tensor2 F) :=
  tensor_zip (λ a b, let d := fsub a b in fmul d d) x y.

(** [F.mse_loss(x, y)] *)
Definition mse_loss (x y : tensor2 F) : result F :=
  se ← squared_error x y; Ok (fmean (concat se)).

(** [torch.cat(ts)] along the first axis; [empty_error] is what the
    library raises for an empty list. *)
Definition torch_cat {A} (empty_error : exn) (ts : list (list A)) : result (list A) :=
  match ts with [] => Raise empty_error | _ => Ok (concat ts) end.

(** [x / n] for a Python float [x] and a Python integer [n] *)
Definition py_truediv (x : F) (n : Z) : result F :=
  if decide (n = 0) then Raise ZeroDivisionError else Ok (fdiv x (of_Z n)).

(** [-10.0 * math.log10(mse_num)] *)
Definition psnr_of_mse (mse_num : F) : result F :=
  l ← flog10 mse_num; Ok (fmul (of_Z (-10)) l).
End Tensors.

(** ** Command line, datasets, summaries and checkpoints *)

(** [args], as [argparse] fills it. *)
Record Args (F : Type) := {
  data_dir : string;
  train_dir : string;
  reso : Z;
  sh_dim : Z;
  batch_size : Z;
  eval_batch_size : Z;
  lr_sigma : F;
  lr_sh : F;
  n_epochs : Z;
  print_every : Z;
  init_rgb : F;
  init_sigma : F;
  no_lerp : bool
}.
Arguments data_dir {F} a.
Arguments train_dir {F} a.
Arguments reso {F} a.
Arguments sh_dim {F} a.
Arguments batch_size {F} a.
Arguments eval_batch_size {F} a.
Arguments lr_sigma {F} a.
Arguments lr_sh {F} a.
Arguments n_epochs {F} a.
Arguments print_every {F} a.
Arguments init_rgb {F} a.
Arguments init_sigma {F} a.
Arguments no_lerp {F} a.

(** [class Rays(NamedTuple)]: three tensors with a common first axis.  For
    the training split an entry is one ray (a row of three numbers); for
    any other split it is the tensor of all rays of one image. *)
Record Rays (A : Type) := {
  origins : list A;
  dirs : list A;
  gt : list A
}.
Arguments origins {A} r.
Arguments dirs {A} r.
Arguments gt {A} r.

(** [class Dataset]; [ds_gt] is the attribute [gt] (the name is taken by
    the field of [Rays]). *)
Record Dataset (F P A : Type) := {
  focal : F;
  c2w : P;
  ds_gt : list (image F);
  h : Z;
  w : Z;
  n_images : Z;
  rays : Rays A;
  split : string
}.
Arguments focal {F P A} d.
Arguments c2w {F P A} d.
Arguments ds_gt {F P A} d.
Arguments h {F P A} d.
Arguments w {F P A} d.
Arguments n_images {F P A} d.
Arguments rays {F P A} d.
Arguments split {F P A} d.

Definition with_rays {F P A B} (d : Dataset F P A) (r : Rays B) : Dataset F P B :=
  {| focal := focal d; c2w := c2w d; ds_gt := ds_gt d; h := h d; w := w d;
     n_images := n_images d; rays := r; split := split d |}.

(** The rays of a dataset paired up entry by entry. *)
Definition ray_triples {A} (r : Rays A) : list (A * A * A) :=
  zip (zip (origins r) (dirs r)) (gt r).

(** What [summary_writer.add_scalar] and [add_image] record. *)
Inductive payload (F : Type) : Type :=
  | ScalarValue (v : F)
  | ImageHWC (im : image F).
Arguments ScalarValue {F} v.
Arguments ImageHWC {F} im.

Record Emission (F : Type) := {
  tag : string;
  value : payload F;
  global_step : Z
}.
Arguments tag {F} e.
Arguments value {F} e.
Arguments global_step {F} e.

(** An [.npz] archive: named arrays, in the order of the keyword arguments
    of [np.savez]. *)
Inductive ndarray (F L : Type) : Type :=
  | LinkArray (l : L)
  | FloatArray (t : tensor2 F).
Arguments LinkArray {F L} l.
Arguments FloatArray {F L} t.

Abbreviation archive F L := (list (string * ndarray F L)).

(** The running statistics [{'mse': ..., 'psnr': ...}]. *)
Record Stats (F : Type) := {
  mse : F;
  psnr : F
}.
Arguments mse {F} s.
Arguments psnr {F} s.

(** ** The dataset loader, [Dataset.__init__] and [Dataset.shuffle_rays] *)

Section Loader.
Context {F : Type} {SF : Scalar F} {EF : Extern F}.

(** [j[key]]: only a dictionary can be subscripted by a string; of
    duplicate members the decoder keeps the last. *)
Definition json_get (j : json F) (key : string) : result (json F) :=
  match j with
  | JObj members =>
      (list_to_map (reverse members) : gmap string (json F)) !! key ?! KeyError key
  | _ => Raise TypeError
  end.

(** [for x in j]: a list gives its items, a dictionary its keys, a string
    its characters; nothing else is iterable. *)
Definition json_iter (j : json F) : result (list (json F)) :=
  match j with
  | JArr items => Ok items
  | JObj members => Ok (JStr <$> remove_dups (members.*1))
  | JStr s => Ok ((λ c, JStr (String c EmptyString)) <$> String.list_ascii_of_string s)
  | _ => Raise TypeError
  end.

Definition json_string (j : json F) : result string :=
  match j with JStr s => Ok s | _ => Raise TypeError end.

(** The operand [x] of [0.5 * x]: a number, or a Boolean, which Python
    counts as 1 or 0; nothing else can be multiplied by a float. *)
Definition json_number (j : json F) : result F :=
  match j with
  | JNum x => Ok x
  | JBool b => Ok (of_Z (if b then 1 else 0))
  | _ => Raise TypeError
  end.

(** [imageio.imread(fpath)] *)
Definition imread (files : gmap string string) (fpath : string) : result (image Z) :=
  bytes ← files !! fpath ?! FileNotFoundError;
  png_decode bytes ?! ValueError.

(** The body of the loop over the frames of the manifest. *)
Definition load_frame (files : gmap string string) (data_path : string)
    (acc : list pose * list (image F)) (frame : json F)
    : result (list pose * list (image F)) :=
  file_path ← json_get frame "file_path" ≫= json_string;
  let fpath := path_join data_path (basename file_path +:+ ".png") in
  c2w ← json_get frame "transform_matrix" ≫= torch_tensor;
  raw ← imread files fpath;
  im_gt ← composite_white (to_unit_range raw);
  Ok (acc.1 ++ [c2w], acc.2 ++ [im_gt]).

Definition image_width {A} (im : image A) : Z :=
  match im with [] => 0 | row :: _ => Z.of_nat (length row) end.

(** The channel counts of an image, pixel by pixel. *)
Definition image_shape (im : image F) : list (list nat) :=
  (λ row : list (list F), length <$> row) <$> im.

(** [torch.stack(all_gt)]: all images must have one shape. *)
Definition stack_images (ims : list (image F)) : result (list (image F)) :=
  match ims with
  | [] => Raise RuntimeError
  | im0 :: _ =>
      if decide (Forall (λ im, image_shape im = image_shape im0) ims)
      then Ok ims else Raise RuntimeError
  end.

(** [gt.reshape(n_images, -1, 3)] on an [n * h * w * c] tensor: possible
    when [c = 3], and then each image becomes the list of its pixels. *)
Definition reshape_pixels (ims : list (image F)) : result (list (tensor2 F)) :=
  if decide (Forall (Forall (Forall (λ px : list F, length px = 3%nat))) ims)
  then Ok ((λ im, concat im) <$> ims) else Raise RuntimeError.

(** An entry along the first axis of the ray tensors of a split. *)
Definition ray_item (split : string) : Type :=
  if String.eqb split "train" then list F else tensor2 F.

(** Lines 105-108: the training rays are flattened with [view(-1, 3)]. *)
Definition view_split (split : string) (t : list (tensor2 F)) : list (ray_item split) :=
  match String.eqb split "train" as b
    return list (if b then list F else tensor2 F) with
  | true => concat t
  | false => t
  end.

Definition Dataset_init (files : gmap string string) (root split : string)
    (scene_scale : F) : result (Dataset F pose_batch (ray_item split)) :=
  let data_path := path_join root split in
  let data_json := path_join root ("transforms_" +:+ split +:+ ".json") in
  text ← files !! data_json ?! FileNotFoundError;
  j ← json_decode text ?! JSONDecodeError;
  frames ← json_get j "frames" ≫= json_iter;
  loaded ← foldR (load_frame files data_path) ([], []) frames;
  let '(all_c2w, all_gt) := loaded in
  im0 ← all_gt !! 0%nat ?! IndexError;
  angle ← json_get j "camera_angle_x" ≫= json_number;
  let focal := fdiv (fmul half (of_Z (image_width im0))) (ftan (fmul half angle)) in
  c2w ← torch_stack all_c2w;
  gt_images ← stack_images all_gt;
  let n := Z.of_nat (length gt_images) in
  let height := Z.of_nat (length im0) in
  let width := image_width im0 in
  generated ← generate_rays c2w height width focal scene_scale;
  let '(origins, dirs) := generated in
  gt ← reshape_pixels gt_images;
  Ok {| focal := focal; c2w := c2w; ds_gt := gt_images;
        h := height; w := width; n_images := n;
        rays := {| origins := view_split split origins;
                   dirs := view_split split dirs;
                   gt := view_split split gt |};
        split := split |}.

(** [Rays(origins[perm], dirs[perm], gt[perm])] *)
Definition permute_rays {A} (perm : list Z) (r : Rays A) : result (Rays A) :=
  o ← index_select (origins r) perm;
  d ← index_select (dirs r) perm;
  g ← index_select (gt r) perm;
  Ok {| origins := o; dirs := d; gt := g |}.

(** [Dataset.shuffle_rays]: the dataset afterwards, and the generator
    after the draw (if any). *)
Definition shuffle_rays {P A} (d : Dataset F P A) (g : rng_t)
    : result (Dataset F P A) * rng_t :=
  if decide (split d = "train") then
    let '(perm, g') := randperm g (Z.of_nat (length (origins (rays d)))) in
    (with_rays d <$> permute_rays perm (rays d), g')
  else (Ok d, g).
End Loader.

(** ** The script: module-level state, [eval_step], [train_step], the epoch loop *)

Section Script.
Context {F : Type} {SF : Scalar F} {EF : Extern F}.

(** The module-level variables the epoch loop reads or writes, the
    summary writer's log (oldest emission first) and the files written. *)
Record State := {
  grid_links : links_t;
  grid_data : tensor2 F;                 (* [grid.data.data] *)
  grid_grad : option (tensor2 F);        (* [grid.data.grad] *)
  grid_opt : RenderOptions F;
  dset : Dataset F pose_batch (list F);
  dset_test : Dataset F pose_batch (tensor2 F);
  epoch_size : Z;
  batches_per_epoch : Z;
  epoch_id : Z;
  rng : rng_t;
  summary : list (Emission F);
  disk : gmap string (archive F links_t)
}.

Definition set_grid_data (d : tensor2 F) (s : State) : State :=
  {| grid_links := grid_links s; grid_data := d; grid_grad := grid_grad s;
     grid_opt := grid_opt s; dset := dset s; dset_test := dset_test s;
     epoch_size := epoch_size s; batches_per_epoch := batches_per_epoch s;
     epoch_id := epoch_id s; rng := rng s; summary := summary s; disk := disk s |}.
Definition set_grid_grad (g : option (tensor2 F)) (s : State) : State :=
  {| grid_links := grid_links s; grid_data := grid_data s; grid_grad := g;
     grid_opt := grid_opt s; dset := dset s; dset_test := dset_test s;
     epoch_size := epoch_size s; batches_per_epoch := batches_per_epoch s;
     epoch_id := epoch_id s; rng := rng s; summary := summary s; disk := disk s |}.
Definition set_dset (d : Dataset F pose_batch (list F)) (s : State) : State :=
  {| grid_links := grid_links s; grid_data := grid_data s; grid_grad := grid_grad s;
     grid_opt := grid_opt s; dset := d; dset_test := dset_test s;
     epoch_size := epoch_size s; batches_per_epoch := batches_per_epoch s;
     epoch_id := epoch_id s; rng := rng s; summary := summary s; disk := disk s |}.
Definition set_epoch_id (e : Z) (s : State) : State :=
  {| grid_links := grid_links s; grid_data := grid_data s; grid_grad := grid_grad s;
     grid_opt := grid_opt s; dset := dset s; dset_test := dset_test s;
     epoch_size := epoch_size s; batches_per_epoch := batches_per_epoch s;
     epoch_id := e; rng := rng s; summary := summary s; disk := disk s |}.
Definition set_rng (g : rng_t) (s : State) : State :=
  {| grid_links := grid_links s; grid_data := grid_data s; grid_grad := grid_grad s;
     grid_opt := grid_opt s; dset := dset s; dset_test := dset_test s;
     epoch_size := epoch_size s; batches_per_epoch := batches_per_epoch s;
     epoch_id := epoch_id s; rng := g; summary := summary s; disk := disk s |}.
Definition set_summary (l : list (Emission F)) (s : State) : State :=
  {| grid_links := grid_links s; grid_data := grid_data s; grid_grad := grid_grad s;
     grid_opt := grid_opt s; dset := dset s; dset_test := dset_test s;
     epoch_size := epoch_size s; batches_per_epoch := batches_per_epoch s;
     epoch_id := epoch_id s; rng := rng s; summary := l; disk := disk s |}.
Definition set_disk (m : gmap string (archive F links_t)) (s : State) : State :=
  {| grid_links := grid_links s; grid_data := grid_data s; grid_grad := grid_grad s;
     grid_opt := grid_opt s; dset := dset s; dset_test := dset_test s;
     epoch_size := epoch_size s; batches_per_epoch := batches_per_epoch s;
     epoch_id := epoch_id s; rng := rng s; summary := summary s; disk := m |}.

(** Statements: a state transformer that may raise; an exception keeps the
    state reached so far, as in-place mutation does. *)
Definition M (A : Type) : Type := State → result A * State.

#[global] Instance M_ret : MRet M := λ A a s, (Ok a, s).
#[global] Instance M_bind : MBind M := λ A B f m s,
  match m s with
  | (Ok a, s') => f a s'
  | (Raise e, s') => (Raise e, s')
  end.

Definition get : M State := λ s, (Ok s, s).
Definition modify (f : State → State) : M unit := λ s, (Ok tt, f s).
Definition lift {A} (r : result A) : M A := λ s, (r, s).

(** A [for] loop over [l] whose local variables are the accumulator. *)
Fixpoint foldM {A B} (f : B → A → M B) (b : B) (l : list A) : M B :=
  match l with
  | [] => mret b
  | a :: l' => b' ← f b a; foldM f b' l'
  end.

Definition for_each {A} (l : list A) (f : A → M unit) : M unit :=
  foldM (λ _ a, f a) tt l.

Definition add_scalar (t : string) (v : F) (step : Z) : M unit :=
  modify (λ s, set_summary
    (summary s ++ [{| tag := t; value := ScalarValue v; global_step := step |}]) s).

Definition add_image (t : string) (im : image F) (step : Z) : M unit :=
  modify (λ s, set_summary
    (summary s ++ [{| tag := t; value := ImageHWC im; global_step := step |}]) s).

(** [np.savez(file, **arrays)] creates the file or replaces it. *)
Definition np_savez (file : string) (arrays : archive F links_t) : M unit :=
  modify (λ s, set_disk (<[savez_filename file := arrays]> (disk s)) s).

Definition zero_stats : Stats F := {| mse := of_Z 0; psnr := of_Z 0 |}.

(** [stats['mse'] += mse_num; stats['psnr'] += psnr] *)
Definition add_stats (st : Stats F) (mse_num psnr_num : F) : Stats F :=
  {| mse := fadd (mse st) mse_num; psnr := fadd (psnr st) psnr_num |}.

(** [t.view(h, w, c)] of a list of [h * w] rows *)
Definition view_hw (height width : Z) (rows : tensor2 F) : result (image F) :=
  if decide (Z.of_nat (length rows) = height * width ∧ 0 ≤ height ∧ 0 ≤ width)
  then Ok (reshape (replicate (Z.to_nat height) (Z.to_nat width)) rows)
  else Raise RuntimeError.

(** *** [eval_step] *)

(** The body of the loop over the batches of one test image; the
    accumulator is [(all_rgbs, all_mses)]. *)
Definition eval_batch (a : Args F) (s : State) (im_size img_id : Z)
    (acc : list (tensor2 F) * list (tensor2 F)) (batch_begin : Z)
    : result (list (tensor2 F) * list (tensor2 F)) :=
  let r := rays (dset_test s) in
  let batch_end := Z.min (batch_begin + eval_batch_size a) im_size in
  batch_origins ← py_slice batch_begin batch_end <$> py_index (origins r) img_id;
  batch_dirs ← py_slice batch_begin batch_end <$> py_index (dirs r) img_id;
  rgb_gt_test ← py_slice batch_begin batch_end <$> py_index (gt r) img_id;
  rgb_pred_test ← volume_render (grid_opt s) (grid_links s) (grid_data s)
                    batch_origins batch_dirs;
  se ← squared_error rgb_gt_test rgb_pred_test;
  Ok (acc.1 ++ [rgb_pred_test], acc.2 ++ [se]).

(** The body of the loop over the test images; the accumulator is
    [(stats_test, n_images_gen)]. *)
Definition eval_image (a : Args F) (im_size gstep_id : Z)
    (acc : Stats F * Z) (img_id : Z) : M (Stats F * Z) :=
  s ← get;
  rendered ← lift (py_range 0 im_size (eval_batch_size a)
                   ≫= foldR (eval_batch a s im_size img_id) ([], []));
  let '(all_rgbs, all_mses) := rendered in
  (if decide (all_rgbs = []) then mret tt
   else im ← lift (torch_cat cat_empty_error all_rgbs
                   ≫= view_hw (h (dset_test s)) (w (dset_test s)));
        add_image ("test/image_" +:+ format_04d img_id) im gstep_id);;
  mse_num ← lift ((λ t, fmean (concat t)) <$> torch_cat cat_empty_error all_mses);
  psnr_num ← lift (psnr_of_mse mse_num);
  mret (add_stats acc.1 mse_num psnr_num, acc.2 + 1).

Definition eval_step (a : Args F) : M unit :=
  s ← get;
  let im_size := h (dset_test s) * w (dset_test s) in
  let N_IMGS_TO_SAVE := 5 in
  img_save_interval ← lift (py_floordiv (n_images (dset_test s)) N_IMGS_TO_SAVE);
  let gstep_id := epoch_id s * batches_per_epoch s in
  img_ids ← lift (py_range 0 (n_images (dset_test s)) img_save_interval);
  totals ← foldM (eval_image a im_size gstep_id) (zero_stats, 0) img_ids;
  let '(stats_test, n_images_gen) := totals in
  mse_avg ← lift (py_truediv (mse stats_test) n_images_gen);
  psnr_avg ← lift (py_truediv (psnr stats_test) n_images_gen);
  (* the dictionary was created as {'psnr': ..., 'mse': ...} *)
  add_scalar "test/psnr" psnr_avg gstep_id;;
  add_scalar "test/mse" mse_avg gstep_id;;
  add_scalar "epoch_id" (of_Z (epoch_id s)) gstep_id.

(** *** [train_step] *)

(** [dset.shuffle_rays()] *)
Definition shuffle_dset : M unit :=
  s ← get;
  let '(r, g) := shuffle_rays (dset s) (rng s) in
  modify (set_rng g);;
  d ← lift r;
  modify (set_dset d).

(** [mse.backward()]: the gradient of the batch loss is accumulated into
    [grid.data.grad]. *)
Definition backward (batch_origins batch_dirs rgb_gt : tensor2 F) : M unit :=
  s ← get;
  g ← lift (mse_gradient (grid_opt s) (grid_links s) (grid_data s)
              batch_origins batch_dirs rgb_gt);
  match grid_grad s with
  | None => modify (set_grid_grad (Some g))
  | Some g0 => g' ← lift (tensor_zip fadd g0 g); modify (set_grid_grad (Some g'))
  end.

(** The manual SGD step, lines 248-251. *)
Definition sgd_step (a : Args F) : M unit :=
  s ← get;
  g ← lift (grid_grad s ?! TypeError);
  modify (set_grid_grad (Some (scale_from 1 (lr_sh a) g)));;
  s ← get;
  g ← lift (grid_grad s ?! TypeError);
  modify (set_grid_grad (Some (scale_upto 1 (lr_sigma a) g)));;
  s ← get;
  g ← lift (grid_grad s ?! TypeError);
  d ← lift (tensor_zip fsub (grid_data s) g);
  modify (set_grid_data d);;
  modify (set_grid_grad None).

(** The statistics block of the training loop, lines 235-242: every
    [print_every] iterations the running sums are reported and reset. *)
Definition report_stats (a : Args F) (iter_id : Z) (st : Stats F) : M (Stats F) :=
  r ← lift (py_mod (iter_id + 1) (print_every a));
  if decide (r = 0) then
    s ← get;
    let gstep_id := iter_id + epoch_id s * batches_per_epoch s in
    (* the dictionary was created as {"mse": ..., "psnr": ...} *)
    mse_val ← lift (py_truediv (mse st) (print_every a));
    add_scalar "mse" mse_val gstep_id;;
    psnr_val ← lift (py_truediv (psnr st) (print_every a));
    add_scalar "psnr" psnr_val gstep_id;;
    mret zero_stats
  else mret st.

(** The body of the loop over the training batches; the accumulator is
    [stats]. *)
Definition train_iter (a : Args F) (st : Stats F) (it : Z * Z) : M (Stats F) :=
  let '(iter_id, batch_begin) := it in
  s ← get;
  let batch_end := Z.min (batch_begin + batch_size a) (epoch_size s) in
  let batch_origins := py_slice batch_begin batch_end (origins (rays (dset s))) in
  let batch_dirs := py_slice batch_begin batch_end (dirs (rays (dset s))) in
  let rgb_gt := py_slice batch_begin batch_end (gt (rays (dset s))) in
  rgb_pred ← lift (volume_render (grid_opt s) (grid_links s) (grid_data s)
                     batch_origins batch_dirs);
  mse_num ← lift (mse_loss rgb_gt rgb_pred);
  psnr_num ← lift (psnr_of_mse mse_num);
  st' ← report_stats a iter_id (add_stats st mse_num psnr_num);
  backward batch_origins batch_dirs rgb_gt;;
  sgd_step a;;
  mret st'.

Definition train_step (a : Args F) : M unit :=
  s ← get;
  batch_begins ← lift (py_range 0 (epoch_size s) (batch_size a));
  let pbar := enumerate batch_begins in
  shuffle_dset;;
  foldM (train_iter a) zero_stats pbar;;
  mret tt.

(** *** The checkpoint and the epoch loop *)

Definition ckpt_path (a : Args F) : string := path_join (train_dir a) "ckpt.npy".

Definition save_checkpoint (a : Args F) : M unit :=
  s ← get;
  np_savez (ckpt_path a)
    [("links", LinkArray (grid_links s)); ("data", FloatArray (grid_data s))].

(** One iteration of [for epoch_id in range(args.n_epochs)]. *)
Definition epoch_body (a : Args F) (e : Z) : M unit :=
  modify (set_epoch_id e);;
  eval_step a;;
  train_step a;;
  save_checkpoint a.

Definition epoch_loop (a : Args F) : M unit :=
  epochs ← lift (py_range 0 (n_epochs a) 1);
  for_each epochs (epoch_body a).

(** *** Module level *)

(** Lines 145-166: seeding, the two datasets, the grid and its initial
    values, the epoch geometry and the render options.  Before the first
    epoch no summary has been emitted and [epoch_id] is unbound (any
    value will do: the loop assigns it before it is read). *)
Definition setup (a : Args F) (files : gmap string string)
    (disk0 : gmap string (archive F links_t)) : result State :=
  let g := manual_seed 20200823 in
  let scene_scale := fdiv (of_Z 1) (fdiv (of_Z 3) (of_Z 2)) in
  train ← Dataset_init files (data_dir a) "train" scene_scale;
  test ← Dataset_init files (data_dir a) "test" scene_scale;
  grid ← sparse_grid (reso a) (sh_dim a);
  let '(links, data) := grid in
  let data := fill_upto 1 (init_sigma a) (fill_from 1 (init_rgb a) data) in
  let size := Z.of_nat (length (origins (rays train))) in
  q ← py_floordiv (size - 1) (batch_size a);
  Ok {| grid_links := links; grid_data := data; grid_grad := None;
        grid_opt := {| step_size := half;
                       sigma_thresh := fdiv (of_Z 1) (of_Z 100000000);
                       linear_interp := negb (no_lerp a) |};
        dset := train; dset_test := test;
        epoch_size := size; batches_per_epoch := q + 1; epoch_id := 0;
        rng := g; summary := []; disk := disk0 |}.

(** [os.makedirs(dir, exist_ok=True)]: an empty name is no directory. *)
Definition os_makedirs (dir : string) : result unit :=
  if decide (dir = EmptyString) then Raise FileNotFoundError else makedirs dir.

(** Lines 42-43: the output directory and the summary writer. *)
Definition startup (a : Args F) : result unit :=
  os_makedirs (train_dir a);; summary_writer (train_dir a).

(** The whole run: how it ends, what the summary writer received and
    which checkpoints are on disk. *)
Definition main (a : Args F) (files : gmap string string)
    (disk0 : gmap string (archive F links_t))
    : result unit * list (Emission F) * gmap string (archive F links_t) :=
  match startup a ≫= λ _, setup a files disk0 with
  | Raise e => (Raise e, [], disk0)
  | Ok s0 => let '(r, s) := epoch_loop a s0 in (r, summary s, disk s)
  end.
End Script.

(** ** Two instances of the scalar interface, one of the library interface *)

(** Real arithmetic: what the floating-point operations approximate. *)
Definition R_log10 (x : R) : result R :=
  if Rle_dec x 0 then Raise ValueError else Ok (ln x / ln 10)%R.

Definition R_mean (l : list R) : R :=
  (foldr Rplus 0 l / INR (length l))%R.

#[export] Instance R_scalar : Scalar R := {|
  of_Z := IZR;
  fadd := Rplus;
  fsub := Rminus;
  fmul := Rmult;
  fdiv := Rdiv;
  ftan := tan;
  flog10 := R_log10;
  fmean := R_mean
|}.

(** Integer arithmetic, to run the script on small inputs: division
    truncates and the logarithm is the binary one, which is enough wherever
    only control flow, step counters, file names and array shapes matter. *)
Definition Z_log (x : Z) : result Z :=
  if decide (x ≤ 0) then Raise ValueError else Ok (Z.log2 x).

Definition Z_mean (l : list Z) : Z :=
  foldr Z.add 0 l `div` Z.of_nat (length l).

#[export] Instance Z_scalar : Scalar Z := {|
  of_Z := λ z, z;
  fadd := Z.add;
  fsub := Z.sub;
  fmul := Z.mul;
  fdiv := Z.div;
  ftan := λ x, x;
  flog10 := Z_log;
  fmean := Z_mean
|}.

(** A miniature of the libraries, over any scalars.  A manifest and an
    image are described by the length of their file: a manifest of [n]
    bytes lists the frames [r_0 .. r_(n-1)], and an image file decodes to
    2 by 2 opaque pixels.  The pose of frame [i] is the number [i]; its rays
    start at [(i, i, i)] and have the null direction.  The generator is a
    counter and [randperm] rotates the identity by it.  The grid has two
    voxels; the colour rendered for a ray is its direction vector, and
    every gradient entry is one. *)
Section Miniature.
Context {F : Type} {SF : Scalar F}.

Definition toy_frame (i : nat) : json F :=
  JObj [("file_path", JStr ("./train/r_" +:+ pretty i));
        ("transform_matrix", JArr [JNum (of_Z (Z.of_nat i))])].

Definition toy_manifest (text : string) : json F :=
  JObj [("camera_angle_x", JNum (of_Z 1));
        ("frames", JArr (toy_frame <$> seq 0 (String.length text)))].

Definition toy_png (bytes : string) : image Z :=
  let v := 255 - Z.of_nat (String.length bytes) in
  replicate 2 (replicate 2 [v; v; v; 255]).

Definition toy_pose (j : json F) : result F :=
  match j with JArr [JNum x] => Ok x | _ => Raise ValueError end.

Definition toy_origins (poses : list F) (height width : Z) : list (tensor2 F) :=
  (λ p, replicate (Z.to_nat (height * width)) [p; p; p]) <$> poses.

Definition toy_dirs (poses : list F) (height width : Z) : list (tensor2 F) :=
  (λ _, replicate (Z.to_nat (height * width)) [of_Z 0; of_Z 0; of_Z 0]) <$> poses.

Definition rotate_range (g n : Z) : list Z :=
  (λ i, (i + g) `mod` n) <$> seqZ 0 n.

Definition toy_extern : Extern F := {|
  links_t := list Z;
  pose := F;
  pose_batch := list F;
  rng_t := Z;
  json_decode := λ text, Some (toy_manifest text);
  png_decode := λ bytes, Some (toy_png bytes);
  torch_tensor := toy_pose;
  torch_stack := Ok;
  generate_rays := λ poses height width _ _,
    Ok (toy_origins poses height width, toy_dirs poses height width);
  manual_seed := λ seed, seed `mod` 7;
  randperm := λ g n, (rotate_range g n, g + 1);
  makedirs := λ _, Ok tt;
  summary_writer := λ _, Ok tt;
  cat_empty_error := RuntimeError;
  sparse_grid := λ reso basis,
    Ok ([0; 1], replicate 2 (replicate (Z.to_nat (1 + 3 * basis)) (of_Z 0)));
  volume_render := λ _ _ _ _ dirs, Ok dirs;
  mse_gradient := λ _ _ data _ _ _,
    Ok ((λ row : list F, (λ _, of_Z 1) <$> row) <$> data)
|}.
End Miniature.

#[export] Instance Z_extern : Extern Z := toy_extern.
#[export] Instance R_extern : Extern R := toy_extern.

(** A dataset directory for the miniature: four training frames, five test
    frames. *)
Definition toy_files : gmap string string :=
  list_to_map [
    ("data/transforms_train.json", "xxxx");
    ("data/transforms_test.json", "xxxxx");
    ("data/train/r_0.png", EmptyString); ("data/train/r_1.png", EmptyString);
    ("data/train/r_2.png", EmptyString); ("data/train/r_3.png", EmptyString);
    ("data/test/r_0.png", EmptyString); ("data/test/r_1.png", EmptyString);
    ("data/test/r_2.png", EmptyString); ("data/test/r_3.png", EmptyString);
    ("data/test/r_4.png", EmptyString)
  ].

Definition toy_args : Args Z := {|
  data_dir := "data"; train_dir := "ckpt";
  reso := 2; sh_dim := 1;
  batch_size := 5; eval_batch_size := 3;
  lr_sigma := 20; lr_sh := 2;
  n_epochs := 2; print_every := 2;
  init_rgb := 0; init_sigma := 1;
  no_lerp := false
|}.

(** A state over the reals, as the module level could leave it: five test
    images of one white pixel each, of which the grid renders four black
    and the fifth within [1/100000] of white. *)
Definition real_args : Args R := {|
  data_dir := "data"; train_dir := "ckpt";
  reso := 2; sh_dim := 1;
  batch_size := 5; eval_batch_size := 3;
  lr_sigma := 20; lr_sh := 2;
  n_epochs := 1; print_every := 2;
  init_rgb := 0; init_sigma := 1;
  no_lerp := false
|}%R.

Definition real_pixel (colour : R) : tensor2 R := [[colour; colour; colour]].

Definition real_test_set : Dataset R (list R) (tensor2 R) := {|
  focal := 1%R; c2w := []; ds_gt := []; h := 1; w := 1; n_images := 5;
  rays := {| origins := replicate 5 (real_pixel 0);
             dirs := replicate 4 (real_pixel 0) ++ [real_pixel (1 - / 100000)];
             gt := replicate 5 (real_pixel 1) |};
  split := "test"
|}.

Definition real_train_set : Dataset R (list R) (list R) := {|
  focal := 1%R; c2w := []; ds_gt := []; h := 1; w := 1; n_images := 0;
  rays := {| origins := []; dirs := []; gt := [] |};
  split := "train"
|}.

Definition real_state : State := {|
  grid_links := [0; 1];
  grid_data := [[1; 0; 0; 0]; [1; 0; 0; 0]]%R;
  grid_grad := None;
  grid_opt := {| step_size := (/ 2)%R; sigma_thresh := (/ 100000000)%R;
                 linear_interp := true |};
  dset := real_train_set; dset_test := real_test_set;
  epoch_size := 0; batches_per_epoch := 0; epoch_id := 0;
  rng := 0; summary := []; disk := ∅
|}.

(** The miniature at work: the state the module level builds from
    [toy_files], and the states after the first evaluation, the first
    training pass, the first epoch and the first training iteration. *)
Definition toy_state0 : State (EF := Z_extern) :=
  ltac:(let r := eval vm_compute in (setup toy_args toy_files ∅) in
        lazymatch r with Ok ?s => exact s end).

Definition toy_state1 : State (EF := Z_extern) :=
  Eval vm_compute in (eval_step toy_args toy_state0).2.

Definition toy_state2 : State (EF := Z_extern) :=
  Eval vm_compute in (train_step toy_args toy_state1).2.

Definition toy_state_epoch : State (EF := Z_extern) :=
  Eval vm_compute in (epoch_body toy_args 0 toy_state0).2.

Definition toy_state_iter : State (EF := Z_extern) :=
  Eval vm_compute in (train_iter toy_args zero_stats (0, 0) toy_state0).2.

Definition toy_stats_iter : Stats Z :=
  ltac:(let r := eval vm_compute in (train_iter toy_args zero_stats (0, 0) toy_state0).1 in
        lazymatch r with Ok ?st => exact st end).

(** A small training set for the miniature. *)
Definition toy_train_set : Dataset Z (list Z) (list Z) := {|
  focal := 1; c2w := []; ds_gt := []; h := 1; w := 3; n_images := 1;
  rays := {| origins := [[0; 0; 0]; [1; 1; 1]; [2; 2; 2]];
             dirs := [[0; 0; 1]; [0; 1; 0]; [1; 0; 0]];
             gt := [[5; 5; 5]; [6; 6; 6]; [7; 7; 7]] |};
  split := "train"
|}.

(** ** Vocabulary of the statements *)

(** Number of iterations of an ascending [range]. *)
Definition range_count (b stop step : Z) : Z :=
  if decide (b < stop) then (stop - b - 1) `div` step + 1 else 0.

(** [torch.randperm(n)] returns a permutation of [0 .. n-1]. *)
Definition randperm_contract {F} `{Extern F} : Prop :=
  ∀ (g : rng_t) (n : Z), (randperm g n).1 ≡ₚ seqZ 0 n.

(** Entry [(y, x)] of a tensor of rows. *)
Definition at2 {A} (t : list (list A)) (y x : nat) : option A :=
  t !! y ≫= (.!! x).

(** The learning rate of a channel: [lr_sigma] for channel 0 (density),
    [lr_sh] for the others (spherical-harmonic coefficients). *)
Definition channel_lr {F} (a : Args F) (c : nat) : F :=
  match c with O => lr_sigma a | S _ => lr_sh a end.

(** The manifest of a split and the image file a frame refers to. *)
Definition manifest_path (root split : string) : string :=
  path_join root ("transforms_" +:+ split +:+ ".json").

Definition frame_image_path (root split file_path : string) : string :=
  path_join (path_join root split) (basename file_path +:+ ".png").

Definition steps {F} (log : list (Emission F)) : list Z := global_step <$> log.

(** The claim of C3 as written, and with "greater" read as "not smaller". *)
Definition steps_increasing {F} (log : list (Emission F)) : Prop :=
  ∀ (i j : nat) ei ej, (i < j)%nat → log !! i = Some ei → log !! j = Some ej →
    global_step ei < global_step ej.

Definition steps_nondecreasing {F} (log : list (Emission F)) : Prop :=
  ∀ (i j : nat) ei ej, (i < j)%nat → log !! i = Some ei → log !! j = Some ej →
    global_step ei ≤ global_step ej.

(** The scalar summaries recorded under a tag, oldest first. *)
Definition scalars_tagged {F} (t : string) (log : list (Emission F)) : list F :=
  omap (λ e, match value e with
             | ScalarValue v => if decide (tag e = t) then Some v else None
             | ImageHWC _ => None
             end) log.

(** An emission without its step. *)
Definition labelled {F} (e : Emission F) : string * payload F := (tag e, value e).

Definition is_image {F} (e : Emission F) : Prop :=
  match value e with ImageHWC _ => True | ScalarValue _ => False end.

Section ScalarVocabulary.
Context {F : Type} {SF : Scalar F}.

(** "rgb * alpha + (1 - alpha)", channel by channel. *)
Definition over_white (rgb : list F) (alpha : F) : list F :=
  (λ c, fadd (fmul c alpha) (fsub (of_Z 1) alpha)) <$> rgb.


(** What [backward] leaves in [grid.data.grad]: the fresh gradient, added
    to the stored one if there is one. *)
Definition accumulated (old : option (tensor2 F)) (fresh g : tensor2 F) : Prop :=
  match old with
  | None => g = fresh
  | Some g0 => tensor_zip fadd g0 fresh = Ok g
  end.

(** The sum of [xs], accumulated from [0.0] in order, divided by [n]. *)
Definition mean_of (xs : list F) (n : Z) : F :=
  fdiv (foldl fadd (of_Z 0) xs) (of_Z n).

(** A list of (MSE, PSNR) pairs in which every PSNR is
    [-10 * log10] of its MSE. *)
Definition psnr_pairs (items : list (F * F)) : Prop :=
  Forall (λ mp, psnr_of_mse mp.1 = Ok mp.2) items.

(** What the training loop reports for a group of [n] batches. *)
Definition train_report (n : Z) (group : list (F * F)) : list (string * payload F) :=
  [("mse", ScalarValue (mean_of group.*1 n));
   ("psnr", ScalarValue (mean_of group.*2 n))].

(** What [eval_step] reports for the images it rendered. *)
Definition eval_report (epoch : Z) (items : list (F * F)) : list (string * payload F) :=
  let n := Z.of_nat (length items) in
  [("test/psnr", ScalarValue (mean_of items.*2 n));
   ("test/mse", ScalarValue (mean_of items.*1 n));
   ("epoch_id", ScalarValue (of_Z epoch))].

(** The running sums of [items]. *)
Definition sums (st : Stats F) (items : list (F * F)) : Prop :=
  mse st = foldl fadd (of_Z 0) items.*1 ∧ psnr st = foldl fadd (of_Z 0) items.*2.

(** C6 as written, for the summaries under the tags [mse_tag] and
    [psnr_tag]: each reported PSNR is [-10 * log10] of the MSE reported
    with it. *)
Definition psnr_formula_on_reports (mse_tag psnr_tag : string)
    (log : list (Emission F)) : Prop :=
  Forall2 (λ m p, psnr_of_mse m = Ok p)
    (scalars_tagged mse_tag log) (scalars_tagged psnr_tag log).
End ScalarVocabulary.

(** The defects of a dataset directory that C5 lists. *)
Inductive dataset_defect {F} `{Extern F} (files : gmap string string)
    (root split : string) : Prop :=
  | manifest_missing :
      files !! manifest_path root split = None →
      dataset_defect files root split
  | manifest_invalid text :
      files !! manifest_path root split = Some text →
      json_decode text = None →
      dataset_defect files root split
  | frame_lacks_field text j frames frame :
      files !! manifest_path root split = Some text →
      json_decode text = Some j →
      json_get j "frames" = Ok (JArr frames) →
      frame ∈ frames →
      is_raise (json_get frame "file_path")
      ∨ is_raise (json_get frame "transform_matrix") →
      dataset_defect files root split
  | image_missing text j frames frame file_path :
      files !! manifest_path root split = Some text →
      json_decode text = Some j →
      json_get j "frames" = Ok (JArr frames) →
      frame ∈ frames →
      json_get frame "file_path" = Ok (JStr file_path) →
      files !! frame_image_path root split file_path = None →
      dataset_defect files root split.

Section StateVocabulary.
Context {F : Type} {SF : Scalar F} {EF : Extern F}.
Implicit Types (s : State) (R : relation State).

(** [run_rel R m]: however [m] ends, normally or by an exception, the
    state it leaves is related by [R] to the state it started from. *)
Definition run_rel {A} R (m : M A) : Prop := ∀ s, R s (m s).2.

(** [s'] differs from [s] at most by emissions appended to the summary. *)
Definition only_emits s s' : Prop :=
  ∃ new, s' = set_summary (summary s ++ new) s.

(** What [train_step] never touches. *)
Definition train_frame s s' : Prop :=
  disk s' = disk s ∧ grid_links s' = grid_links s ∧ grid_opt s' = grid_opt s
  ∧ dset_test s' = dset_test s ∧ epoch_id s' = epoch_id s
  ∧ epoch_size s' = epoch_size s ∧ batches_per_epoch s' = batches_per_epoch s.

(** The archive [save_checkpoint] writes from a state. *)
Definition checkpoint_of s : archive F links_t :=
  [("links", LinkArray (grid_links s)); ("data", FloatArray (grid_data s))].

(** The step [eval_step] uses in the current epoch; [train_step] adds
    the iteration number to it. *)
Definition base_step s : Z := epoch_id s * batches_per_epoch s.

Definition step_frame s s' : Prop :=
  epoch_id s' = epoch_id s ∧ epoch_size s' = epoch_size s
  ∧ batches_per_epoch s' = batches_per_epoch s.

(** [s'] extends the summary of [s] by emissions whose steps do not
    decrease and lie in [[lo, hi]]. *)
Definition emits_within (lo hi : Z) s s' : Prop :=
  step_frame s s'
  ∧ ∃ new, summary s' = summary s ++ new
      ∧ StronglySorted Z.le (steps new)
      ∧ Forall (λ g, lo ≤ g ≤ hi) (steps new).

Definition silent s s' : Prop := step_frame s s' ∧ summary s' = summary s.

(** The number of training batches of an epoch. *)
Definition n_batches (a : Args F) s : Z := range_count 0 (epoch_size s) (batch_size a).

(** [s'] keeps the epoch geometry of [s] and extends its summary by
    emissions whose steps do not decrease and satisfy [P]. *)
Definition epoch_emits (P : Z → Prop) s s' : Prop :=
  epoch_size s' = epoch_size s ∧ batches_per_epoch s' = batches_per_epoch s
  ∧ ∃ new, summary s' = summary s ++ new
      ∧ StronglySorted Z.le (steps new) ∧ Forall P (steps new).

(** The epoch geometry the module level establishes. *)
Definition geometry_ok (a : Args F) s : Prop :=
  0 < batch_size a ∧ 0 ≤ epoch_size s
  ∧ batches_per_epoch s = (epoch_size s - 1) `div` batch_size a + 1.

(** The mean squared error of test image [img_id] rendered from the grid
    of [s], batch by batch as [eval_step] does. *)
Definition image_mse (a : Args F) s (img_id : Z) : result F :=
  let im_size := h (dset_test s) * w (dset_test s) in
  rendered ← py_range 0 im_size (eval_batch_size a)
             ≫= foldR (eval_batch a s im_size img_id) ([], []);
  (λ t, fmean (concat t)) <$> torch_cat cat_empty_error rendered.2.
End StateVocabulary.

(** The per-image mean squared errors of [real_state]. *)
Definition black_se : R :=
  R_mean [(1 - 0) * (1 - 0); (1 - 0) * (1 - 0); (1 - 0) * (1 - 0)]%R.

Definition near_white_se : R :=
  R_mean [(1 - (1 - / 100000)) * (1 - (1 - / 100000));
          (1 - (1 - / 100000)) * (1 - (1 - / 100000));
          (1 - (1 - / 100000)) * (1 - (1 - / 100000))]%R.

(** ** Variations of the command line *)

Definition with_batch_size {F} (b : Z) (a : Args F) : Args F :=
  {| data_dir := data_dir a; train_dir := train_dir a; reso := reso a;
     sh_dim := sh_dim a; batch_size := b; eval_batch_size := eval_batch_size a;
     lr_sigma := lr_sigma a; lr_sh := lr_sh a; n_epochs := n_epochs a;
     print_every := print_every a; init_rgb := init_rgb a;
     init_sigma := init_sigma a; no_lerp := no_lerp a |}.

Definition with_print_every {F} (p : Z) (a : Args F) : Args F :=
  {| data_dir := data_dir a; train_dir := train_dir a; reso := reso a;
     sh_dim := sh_dim a; batch_size := batch_size a;
     eval_batch_size := eval_batch_size a;
     lr_sigma := lr_sigma a; lr_sh := lr_sh a; n_epochs := n_epochs a;
     print_every := p; init_rgb := init_rgb a;
     init_sigma := init_sigma a; no_lerp := no_lerp a |}.

Definition with_n_epochs {F} (n : Z) (a : Args F) : Args F :=
  {| data_dir := data_dir a; train_dir := train_dir a; reso := reso a;
     sh_dim := sh_dim a; batch_size := batch_size a;
     eval_batch_size := eval_batch_size a;
     lr_sigma := lr_sigma a; lr_sh := lr_sh a; n_epochs := n;
     print_every := print_every a; init_rgb := init_rgb a;
     init_sigma := init_sigma a; no_lerp := no_lerp a |}.

Definition with_eval_batch_size {F} (b : Z) (a : Args F) : Args F :=
  {| data_dir := data_dir a; train_dir := train_dir a; reso := reso a;
     sh_dim := sh_dim a; batch_size := batch_size a; eval_batch_size := b;
     lr_sigma := lr_sigma a; lr_sh := lr_sh a; n_epochs := n_epochs a;
     print_every := print_every a; init_rgb := init_rgb a;
     init_sigma := init_sigma a; no_lerp := no_lerp a |}.

(** The initial value of a channel: [init_sigma] for channel 0,
    [init_rgb] for the others. *)
Definition channel_init {F} (a : Args F) (c : nat) : F :=
  match c with O => init_sigma a | S _ => init_rgb a end.

(** [1.0 / 1.5], the default [scene_scale] of [Dataset.__init__]. *)
Definition default_scene_scale {F} `{Scalar F} : F :=
  fdiv (of_Z 1) (fdiv (of_Z 3) (of_Z 2)).

(** The miniature with a test split of three frames only. *)
Definition small_test_files : gmap string string :=
  <["data/transforms_test.json" := "xxx"]> toy_files.

Definition small_state0 : State (EF := Z_extern) :=
  ltac:(let r := eval vm_compute in (setup toy_args small_test_files ∅) in
        lazymatch r with Ok ?s => exact s end).

(** The miniature after its last epoch. *)
Definition toy_state_end : State (EF := Z_extern) :=
  Eval vm_compute in (epoch_loop toy_args toy_state0).2.

(** ** Vocabulary of the properties of the loops *)

Section RunVocabulary.
Context {F : Type} {SF : Scalar F} {EF : Extern F}.

(** [s'] has the value of [f] that [s] has. *)
Definition preserved {X} (f : State → X) : relation State := λ s s', f s' = f s.

(** The grid values, the pending gradient and the summary. *)
Definition training_view (s : State)
    : tensor2 F * option (tensor2 F) * list (Emission F) :=
  (grid_data s, grid_grad s, summary s).

(** What the epoch loop never changes. *)
Definition run_constants (s : State)
    : links_t * RenderOptions F * Dataset F pose_batch (tensor2 F) * Z * Z * list nat :=
  (grid_links s, grid_opt s, dset_test s, epoch_size s, batches_per_epoch s,
   shape2 (grid_data s)).

(** The three ray tensors have one length along the first axis. *)
Definition aligned {A} (r : Rays A) : Prop :=
  length (dirs r) = length (origins r) ∧ length (gt r) = length (origins r).

(** The training rays of [s'] are those of [s] in some order. *)
Definition rays_kept (s s' : State) : Prop :=
  aligned (rays (dset s)) →
  aligned (rays (dset s'))
  ∧ ray_triples (rays (dset s')) ≡ₚ ray_triples (rays (dset s)).

(** Tag and step of an emission, and those of the [j]-th report of a
    training pass that reports every [p] iterations. *)
Definition tag_step (e : Emission F) : string * Z := (tag e, global_step e).

Definition report_tag_steps (p base j : Z) : list (string * Z) :=
  [("mse", (j + 1) * p - 1 + base); ("psnr", (j + 1) * p - 1 + base)].
End RunVocabulary.

(** ** Vocabulary of the properties of the loader *)

Section LoaderVocabulary.
Context {F : Type} {SF : Scalar F} {EF : Extern F}.

(** [im] is the ground truth read for [frame]: the image file the frame
    names, decoded, scaled and composited. *)
Definition frame_loaded (files : gmap string string) (root split : string)
    (frame : json F) (im : image F) : Prop :=
  ∃ file_path bytes raw,
    json_get frame "file_path" = Ok (JStr file_path)
    ∧ files !! frame_image_path root split file_path = Some bytes
    ∧ png_decode bytes = Some raw
    ∧ composite_white (to_unit_range raw) = Ok im.

(** The channel counts for which [im[..., :3] * im[..., 3:]] and the sum
    that follows broadcast. *)
Definition composable (channels : nat) : Prop :=
  channels = 0%nat ∨ channels = 1%nat ∨ channels = 4%nat ∨ channels = 6%nat.

(** The pixels of the images of a tensor, image after image, row by row. *)
Definition all_pixels (ims : list (image F)) : tensor2 F :=
  concat ((λ im : image F, concat im) <$> ims).
End LoaderVocabulary.

(** ** Vocabulary of the shape of the summary *)

Section LogVocabulary.
Context {F : Type} {SF : Scalar F} {EF : Extern F}.

(** The test images [eval_step] renders in state [s]. *)
Definition eval_ids (s : State) : list Z :=
  match py_range 0 (n_images (dset_test s)) (n_images (dset_test s) `div` 5) with
  | Ok ids => ids
  | Raise _ => []
  end.

(** Tags and steps of what one evaluation emits at step [base]. *)
Definition eval_tag_steps (base : Z) (ids : list Z) : list (string * Z) :=
  ((λ id, ("test/image_" +:+ format_04d id, base)) <$> ids)
  ++ [("test/psnr", base); ("test/mse", base); ("epoch_id", base)].

(** Tags and steps of what epoch [e] emits, for the geometry of [s]. *)
Definition epoch_tag_steps (a : Args F) (s : State) (e : Z) : list (string * Z) :=
  let base := e * batches_per_epoch s in
  eval_tag_steps base (eval_ids s)
  ++ concat (report_tag_steps (print_every a) base
             <$> seqZ 0 (n_batches a s `div` print_every a)).
End LogVocabulary.

(** A state over the reals whose only training ray is rendered exactly:
    the miniature renders the direction of a ray as its colour. *)
Definition fit_train_set : Dataset R (list R) (list R) := {|
  focal := 1%R; c2w := []; ds_gt := []; h := 1; w := 1; n_images := 1;
  rays := {| origins := [[0; 0; 0]]%R; dirs := [[1; 1; 1]]%R; gt := [[1; 1; 1]]%R |};
  split := "train"
|}.

Definition fit_state : State := {|
  grid_links := [0; 1];
  grid_data := [[1; 0; 0; 0]; [1; 0; 0; 0]]%R;
  grid_grad := None;
  grid_opt := {| step_size := (/ 2)%R; sigma_thresh := (/ 100000000)%R;
                 linear_interp := true |};
  dset := fit_train_set; dset_test := real_test_set;
  epoch_size := 1; batches_per_epoch := 1; epoch_id := 0;
  rng := 0; summary := []; disk := ∅
|}.

(** ** Vocabulary of the training pass *)

Section TrainingVocabulary.
Context {F : Type} {SF : Scalar F} {EF : Extern F}.

(** "psnr = -10 * log10(mse)" *)
Definition psnr_formula (m p : F) : Prop :=
  ∃ l, flog10 m = Ok l ∧ p = fmul (of_Z (-10)) l.

(** The mean of the squared differences of two tensors, entry by entry. *)
Definition mean_square (x y : tensor2 F) : F :=
  fmean (concat (zip_with (zip_with (λ u v, fmul (fsub u v) (fsub u v))) x y)).

(** The batch that begins at [b]: the half-open range
    [[b, min(b + batch_size, epoch_size))] of a tensor of rays. *)
Definition batch_end (a : Args F) (s : State) (b : Z) : Z :=
  Z.min (b + batch_size a) (epoch_size s).

Definition batch_of {A} (a : Args F) (s : State) (b : Z) (t : list A) : list A :=
  py_slice b (batch_end a s b) t.

(** [mp] is the loss and the PSNR of the batch that begins at [b],
    rendered from the grid of [s]: the mean squared error between the
    ground truth of the batch and the colours rendered for its rays, and
    [-10 * log10] of it. *)
Definition batch_loss (a : Args F) (s : State) (b : Z) (mp : F * F) : Prop :=
  ∃ pred,
    volume_render (grid_opt s) (grid_links s) (grid_data s)
      (batch_of a s b (origins (rays (dset s)))) (batch_of a s b (dirs (rays (dset s))))
    = Ok pred
    ∧ shape2 pred = shape2 (batch_of a s b (gt (rays (dset s))))
    ∧ mp.1 = mean_square (batch_of a s b (gt (rays (dset s)))) pred
    ∧ psnr_formula mp.1 mp.2.

(** The iterations [k, k+1, ...] of the training loop over the batches
    that begin at [bs], from state [s] to state [s']: each iteration is a
    completed [train_iter], recorded with the state it started from and
    the loss and PSNR of its batch. *)
Inductive train_trace (a : Args F)
    : Z → State → list Z → list (State * (F * F)) → State → Prop :=
  | trace_done k s : train_trace a k s [] [] s
  | trace_iter k s b bs st st' s1 mp tr s' :
      train_iter a st (k, b) s = (Ok st', s1) →
      batch_loss a s b mp →
      train_trace a (k + 1) s1 bs tr s' →
      train_trace a k s (b :: bs) ((s, mp) :: tr) s'.

(** The consecutive groups of [p] items of a list; what is left over at
    the end, fewer than [p] items, is in no group. *)
Definition groups_of {X} (p : nat) (xs : list X) : list (list X) :=
  (λ j, take p (drop (j * p) xs)) <$> seq 0 (length xs / p)%nat.
End TrainingVocabulary.

(** ** Vocabulary of the evaluation *)

Section EvaluationVocabulary.
Context {F : Type} {SF : Scalar F} {EF : Extern F}.

(** The end of the evaluation batch that begins at [b]. *)
Definition image_batch_end (a : Args F) (s : State) (b : Z) : Z :=
  Z.min (b + eval_batch_size a) (h (dset_test s) * w (dset_test s)).

(** [mp] is the mean squared error and the PSNR of test image [img_id]
    rendered from the grid of [s]: the image is rendered batch by batch,
    the error is the mean squared difference between the ground truth of
    the rays of all batches and the colours rendered for them, and the
    PSNR is [-10 * log10] of it. *)
Definition image_loss (a : Args F) (s : State) (img_id : Z) (mp : F * F) : Prop :=
  ∃ (o d g : tensor2 F) (begins : list Z) (preds : list (tensor2 F)),
    py_index (origins (rays (dset_test s))) img_id = Ok o
    ∧ py_index (dirs (rays (dset_test s))) img_id = Ok d
    ∧ py_index (gt (rays (dset_test s))) img_id = Ok g
    ∧ py_range 0 (h (dset_test s) * w (dset_test s)) (eval_batch_size a) = Ok begins
    ∧ Forall2 (λ b pred,
         volume_render (grid_opt s) (grid_links s) (grid_data s)
           (py_slice b (image_batch_end a s b) o) (py_slice b (image_batch_end a s b) d)
         = Ok pred
         ∧ shape2 pred = shape2 (py_slice b (image_batch_end a s b) g))
        begins preds
    ∧ mp.1 = mean_square
               (concat ((λ b, py_slice b (image_batch_end a s b) g) <$> begins))
               (concat preds)
    ∧ psnr_formula mp.1 mp.2.
End EvaluationVocabulary.

(** ** Vocabulary of the steps of the summary *)

Section StepVocabulary.
Context {F : Type} {SF : Scalar F} {EF : Extern F}.

(** The tags [eval_step] uses. *)
Definition eval_tag (t : string) : Prop :=
  t = "test/psnr" ∨ t = "test/mse" ∨ t = "epoch_id"
  ∨ ∃ id : Z, t = "test/image_" +:+ format_04d id.

(** Emissions of an evaluation: all at the step [g]. *)
Definition evaluation_at (g : Z) (new : list (Emission F)) : Prop :=
  Forall (λ x, global_step x = g ∧ eval_tag (tag x)) new.

(** Emissions of the training reports made after the iterations [its]:
    for each, [mse] then [psnr], both at the iteration number above
    [base]. *)
Definition reports_at (base : Z) (its : list Z) (new : list (Emission F)) : Prop :=
  tag_step <$> new = concat ((λ it, [("mse", it + base); ("psnr", it + base)]) <$> its).

(** What epoch [e] adds to the summary when an epoch has [B] batches:
    the emissions of its evaluation, all at step [e * B], then training
    reports after strictly increasing iterations below [B]. *)
Definition epoch_summary (B e : Z) (new : list (Emission F)) : Prop :=
  ∃ evals trains its,
    new = evals ++ trains
    ∧ evaluation_at (e * B) evals
    ∧ reports_at (e * B) its trains
    ∧ StronglySorted Z.lt its
    ∧ Forall (λ it, 0 ≤ it < B) its.

(** [s'] extends the summary of [s] by emissions of an evaluation at
    step [g]. *)
Definition emits_evaluation (g : Z) (s s' : State) : Prop :=
  step_frame s s'
  ∧ ∃ new, summary s' = summary s ++ new ∧ evaluation_at g new.

(** [s'] extends the summary of [s] by training reports after strictly
    increasing iterations in [[lo, hi)]. *)
Definition emits_reports (lo hi : Z) (s s' : State) : Prop :=
  step_frame s s'
  ∧ ∃ new its, summary s' = summary s ++ new
      ∧ reports_at (base_step s) its new
      ∧ StronglySorted Z.lt its
      ∧ Forall (λ it, lo ≤ it < hi) its.

(** [s'] keeps the epoch geometry of [s] and extends its summary by what
    the epochs [k, k+1, ...] add, one part each. *)
Definition emits_epochs (k : Z) (s s' : State) : Prop :=
  epoch_size s' = epoch_size s ∧ batches_per_epoch s' = batches_per_epoch s
  ∧ ∃ parts : list (list (Emission F)),
      summary s' = summary s ++ concat parts
      ∧ ∀ (i : nat) part, parts !! i = Some part →
          epoch_summary (batches_per_epoch s) (k + Z.of_nat i) part.
End StepVocabulary.

(** * Properties *)

(** ** [range] and the batches of an epoch *)


Lemma range_count_nonneg b stop step : 0 < step → 0 ≤ range_count b stop step.
Proof.
  intros Hs. unfold range_count. case_decide; [|lia].
  assert (0 ≤ (stop - b - 1) `div` step) by (apply Z.div_pos; lia). lia.
Qed.

Lemma range_count_step b stop step :
  0 < step → b < stop →
  range_count b stop step = 1 + range_count (b + step) stop step.
Proof.
  intros Hs Hb. unfold range_count. rewrite decide_True by done.
  case_decide.
  - replace (stop - b - 1) with ((stop - (b + step) - 1) + 1 * step) by lia.
    rewrite Z.div_add by lia. lia.
  - rewrite Z.div_small by lia. lia.
Qed.

Lemma range_up_spec fuel b stop step :
  0 < step → (Z.to_nat (stop - b) ≤ fuel)%nat →
  range_up fuel b stop step
  = (λ k, b + k * step) <$> seqZ 0 (range_count b stop step).
Proof.
  intros Hs. revert b. induction fuel as [|fuel IH]; intros b Hf; simpl.
  - unfold range_count. rewrite decide_False by lia. done.
  - case_decide as Hb.
    + rewrite range_count_step by done.
      pose proof (range_count_nonneg (b + step) stop step Hs).
      rewrite seqZ_cons by lia. simpl. f_equal; [lia|].
      rewrite IH by lia.
      replace (Z.pred (1 + range_count (b + step) stop step))
        with (range_count (b + step) stop step) by lia.
      change (Z.succ 0) with (1 + 0).
      rewrite <- (fmap_add_seqZ 1 0 (range_count (b + step) stop step)).
      rewrite <- list_fmap_compose.
      apply list_fmap_ext. intros _ k _. simpl. lia.
    + unfold range_count. rewrite decide_False by done. done.
Qed.

Lemma py_range_up start stop step :
  0 < step →
  py_range start stop step
  = Ok ((λ k, start + k * step) <$> seqZ 0 (range_count start stop step)).
Proof.
  intros Hs. unfold py_range.
  rewrite decide_False by lia. rewrite decide_True by done.
  by rewrite range_up_spec.
Qed.

Lemma py_range_length start stop step l :
  0 < step → py_range start stop step = Ok l →
  Z.of_nat (length l) = range_count start stop step.
Proof.
  intros Hs. rewrite py_range_up by done. intros [= <-].
  rewrite length_fmap, length_seqZ.
  pose proof (range_count_nonneg start stop step Hs). lia.
Qed.

Lemma py_range_lookup start stop step l (k : nat) b :
  0 < step → py_range start stop step = Ok l →
  l !! k = Some b ↔ b = start + Z.of_nat k * step ∧ Z.of_nat k < range_count start stop step.
Proof.
  intros Hs. rewrite py_range_up by done. intros [= <-].
  rewrite list_lookup_fmap, fmap_Some. split.
  - intros (x & Hx & ->). apply lookup_seqZ in Hx. lia.
  - intros [-> Hk]. exists (Z.of_nat k). split; [|done].
    apply lookup_seqZ. lia.
Qed.

(** The slice [l[b:e]] between two in-range bounds. *)
Lemma py_slice_in_range {A} (l : list A) b e :
  0 ≤ b ≤ e → e ≤ Z.of_nat (length l) →
  py_slice b e l = take (Z.to_nat (e - b)) (drop (Z.to_nat b) l).
Proof.
  intros Hb He. unfold py_slice, clamp_index.
  rewrite !decide_False by lia.
  by rewrite !Z.min_r, !Z.max_r by lia.
Qed.

Lemma py_slice_length {A} (l : list A) b e :
  0 ≤ b ≤ e → e ≤ Z.of_nat (length l) →
  Z.of_nat (length (py_slice b e l)) = e - b.
Proof.
  intros Hb He. rewrite py_slice_in_range by done.
  rewrite length_take, length_drop. lia.
Qed.

(** The batches cut by the ascending loop reassemble what follows its
    starting point. *)
Lemma concat_slices_range_up {A} (l : list A) fuel b step :
  0 < step → 0 ≤ b →
  (Z.to_nat (Z.of_nat (length l) - b) ≤ fuel)%nat →
  concat ((λ b, py_slice b (Z.min (b + step) (Z.of_nat (length l))) l)
          <$> range_up fuel b (Z.of_nat (length l)) step)
  = drop (Z.to_nat b) l.
Proof.
  intros Hs. revert b. induction fuel as [|fuel IH]; intros b Hb Hf; simpl.
  - by rewrite drop_ge by lia.
  - case_decide as Hlt; simpl.
    + rewrite IH by lia.
      rewrite py_slice_in_range by lia.
      destruct (decide (b + step ≤ Z.of_nat (length l))) as [Hle|Hgt].
      * rewrite Z.min_l by lia.
        replace (Z.to_nat (b + step)) with (Z.to_nat b + Z.to_nat (b + step - b))%nat by lia.
        rewrite <- drop_drop. apply take_drop.
      * rewrite Z.min_r by lia.
        rewrite (drop_ge l (Z.to_nat (b + step))) by lia.
        rewrite take_ge by (rewrite length_drop; lia).
        by rewrite app_nil_r.
    + by rewrite drop_ge by lia.
Qed.

(** ** The batches of an epoch *)

(** [range(0, epoch_size, batch_size)] for [epoch_size >= 1] and
    [batch_size >= 1]: the batch starts are [0, batch_size,
    2 * batch_size, ...]; their number is
    [(epoch_size - 1) // batch_size + 1]; every batch
    [[b, min (b + batch_size) epoch_size)] is non-empty, lies inside
    [[0, epoch_size)] and has at most [batch_size] elements; an earlier batch
    ends no later than a later one starts; every index belongs to exactly
    one batch; and the slices taken from a list of [epoch_size] items, put
    end to end, are that list. *)
Lemma range_batches_partition (epoch_size batch_size : Z) :
  1 ≤ epoch_size → 1 ≤ batch_size →
  let n := (epoch_size - 1) `div` batch_size + 1 in
  let batch_end b := Z.min (b + batch_size) epoch_size in
  ∃ begins,
    py_range 0 epoch_size batch_size = Ok begins
    ∧ begins = (λ k, k * batch_size) <$> seqZ 0 n
    ∧ Z.of_nat (length begins) = n
    ∧ (n - 1) * batch_size < epoch_size ≤ n * batch_size
    ∧ (∀ b, b ∈ begins →
         0 ≤ b < batch_end b ∧ batch_end b ≤ epoch_size
         ∧ batch_end b - b ≤ batch_size)
    ∧ (∀ (i j : nat) bi bj, (i < j)%nat →
         begins !! i = Some bi → begins !! j = Some bj → batch_end bi ≤ bj)
    ∧ (∀ r, 0 ≤ r < epoch_size →
         ∃ (k : nat) b, begins !! k = Some b ∧ b ≤ r < batch_end b
           ∧ ∀ (k' : nat) b', begins !! k' = Some b' → b' ≤ r < batch_end b' → k' = k)
    ∧ (∀ (A : Type) (l : list A), Z.of_nat (length l) = epoch_size →
         concat ((λ b, py_slice b (batch_end b) l) <$> begins) = l
         ∧ ∀ b, b ∈ begins →
             Z.of_nat (length (py_slice b (batch_end b) l)) = batch_end b - b).
Proof.
  intros Hes Hbs n batch_end.
  assert (Hcount : range_count 0 epoch_size batch_size = n).
  { unfold range_count. rewrite decide_True by lia.
    by replace (epoch_size - 0 - 1) with (epoch_size - 1) by lia. }
  assert (Hdiv : (n - 1) * batch_size < epoch_size ≤ n * batch_size).
  { subst n. pose proof (Z.div_mod (epoch_size - 1) batch_size ltac:(lia)).
    pose proof (Z.mod_pos_bound (epoch_size - 1) batch_size ltac:(lia)). nia. }
  assert (Hn : 1 ≤ n).
  { subst n. assert (0 ≤ (epoch_size - 1) `div` batch_size) by (apply Z.div_pos; lia). lia. }
  pose proof (py_range_up 0 epoch_size batch_size ltac:(lia)) as Hrange.
  rewrite Hcount in Hrange. simpl in Hrange.
  eexists. split; [exact Hrange|].
  assert (Hlook : ∀ (k : nat) b,
    ((λ k, k * batch_size) <$> seqZ 0 n) !! k = Some b
    ↔ b = Z.of_nat k * batch_size ∧ Z.of_nat k < n).
  { intros k b. rewrite (py_range_lookup 0 epoch_size batch_size _ k b ltac:(lia) Hrange).
    rewrite Hcount. simpl. done. }
  assert (Hmem : ∀ b, b ∈ (λ k, k * batch_size) <$> seqZ 0 n →
    ∃ k : nat, b = Z.of_nat k * batch_size ∧ Z.of_nat k < n).
  { intros b [k Hk]%list_elem_of_lookup. exists k. by apply Hlook. }
  split_and!.
  - done.
  - rewrite length_fmap, length_seqZ. lia.
  - lia.
  - lia.
  - intros b (k & -> & Hk)%Hmem. unfold batch_end. nia.
  - intros i j bi bj Hij [-> Hi]%Hlook [-> Hj]%Hlook. unfold batch_end. nia.
  - intros r Hr.
    pose proof (Z.div_mod r batch_size ltac:(lia)) as Hdm.
    pose proof (Z.mod_pos_bound r batch_size ltac:(lia)) as Hmod.
    assert (0 ≤ r `div` batch_size) by (apply Z.div_pos; lia).
    exists (Z.to_nat (r `div` batch_size)), (r `div` batch_size * batch_size).
    split_and!.
    + apply Hlook. split; [lia|]. nia.
    + lia.
    + unfold batch_end. nia.
    + intros k' b' [-> Hk']%Hlook Hb'. unfold batch_end in Hb'.
      assert (Z.of_nat k' = r `div` batch_size) by nia. lia.
  - intros A l Hlen. split.
    + pose proof (concat_slices_range_up l (Z.to_nat epoch_size) 0 batch_size
        ltac:(lia) ltac:(lia) ltac:(lia)) as Hc.
      rewrite Hlen in Hc. rewrite range_up_spec in Hc by lia.
      rewrite Hcount in Hc. simpl in Hc. by rewrite drop_0 in Hc.
    + intros b (k & -> & Hk)%Hmem. unfold batch_end.
      rewrite py_slice_length; [done|nia|lia].
Qed.

(** ** Index selection and [shuffle_rays] *)


Section Indexing.
Context {A : Type}.
Implicit Types (l : list A) (idx : list Z).

Lemma py_index_in_range l i :
  0 ≤ i < Z.of_nat (length l) → py_index l i = l !! Z.to_nat i ?! IndexError.
Proof.
  intros Hi. unfold py_index. rewrite (decide_False (P := i < 0)) by lia.
  by rewrite decide_True by lia.
Qed.

Lemma py_index_Ok l i x :
  0 ≤ i → py_index l i = Ok x ↔ l !! Z.to_nat i = Some x.
Proof.
  intros Hi. unfold py_index. rewrite (decide_False (P := i < 0)) by lia.
  case_decide as Hr.
  - destruct (l !! Z.to_nat i) eqn:E; simpl; split; congruence.
  - split; [done|]. intros Hl%lookup_lt_Some. lia.
Qed.

Lemma index_select_nil l : index_select l [] = Ok [].
Proof. done. Qed.

Lemma index_select_cons l i idx :
  index_select l (i :: idx)
  = x ← py_index l i; xs ← index_select l idx; Ok (x :: xs).
Proof. done. Qed.

Lemma index_select_app l idx1 idx2 l1 l2 :
  index_select l idx1 = Ok l1 → index_select l idx2 = Ok l2 →
  index_select l (idx1 ++ idx2) = Ok (l1 ++ l2).
Proof.
  revert l1. induction idx1 as [|i idx1 IH]; intros l1.
  - intros [= <-]. done.
  - rewrite <- app_comm_cons, !index_select_cons.
    destruct (py_index l i) as [x|]; simpl; [|done].
    destruct (index_select l idx1) as [xs|]; simpl; [|done].
    intros [= <-] H2. by rewrite (IH xs eq_refl H2).
Qed.

(** Selecting along a permuted index list permutes the selection. *)
Lemma index_select_Permutation l idx idx' l' :
  idx ≡ₚ idx' → index_select l idx = Ok l' →
  ∃ l'', index_select l idx' = Ok l'' ∧ l' ≡ₚ l''.
Proof.
  intros Hp. revert l'. induction Hp as [|i idx idx' _ IH|i j idx|idx1 idx2 idx3 _ IH1 _ IH2];
    intros l'.
  - intros [= <-]. by exists [].
  - rewrite !index_select_cons.
    destruct (py_index l i) as [x|]; simpl; [|done].
    destruct (index_select l idx) as [xs|]; simpl; [|done].
    intros [= <-]. destruct (IH xs eq_refl) as (xs' & -> & Hxs).
    exists (x :: xs'). split; [done|]. by constructor.
  - rewrite !index_select_cons.
    destruct (py_index l i) as [x|], (py_index l j) as [y|]; simpl; try done.
    destruct (index_select l idx) as [xs|]; simpl; [|done].
    intros [= <-]. exists (x :: y :: xs). split; [done|]. constructor.
  - intros H1. destruct (IH1 _ H1) as (l2 & H2 & Hp2).
    destruct (IH2 _ H2) as (l3 & H3 & Hp3).
    exists l3. split; [done|]. by etrans.
Qed.

(** Selecting along [0 .. n-1] is the identity. *)
Lemma index_select_seqZ l (k m : nat) :
  (k + m ≤ length l)%nat →
  index_select l (seqZ (Z.of_nat k) (Z.of_nat m)) = Ok (take m (drop k l)).
Proof.
  revert k. induction m as [|m IH]; intros k Hk.
  - done.
  - rewrite seqZ_cons by lia. rewrite index_select_cons.
    rewrite py_index_in_range by lia. rewrite Nat2Z.id.
    destruct (lookup_lt_is_Some_2 l k ltac:(lia)) as [x Hx].
    rewrite Hx. simpl.
    replace (Z.succ (Z.of_nat k)) with (Z.of_nat (S k)) by lia.
    replace (Z.pred (Z.of_nat (S m))) with (Z.of_nat m) by lia.
    rewrite IH by lia. simpl.
    by rewrite (drop_S l x k Hx).
Qed.

Lemma index_select_identity l :
  index_select l (seqZ 0 (Z.of_nat (length l))) = Ok l.
Proof.
  pose proof (index_select_seqZ l 0 (length l) ltac:(lia)) as Hs.
  by rewrite drop_0, firstn_all in Hs.
Qed.

Lemma index_select_range_Permutation l idx :
  idx ≡ₚ seqZ 0 (Z.of_nat (length l)) →
  ∃ l', index_select l idx = Ok l' ∧ l' ≡ₚ l.
Proof.
  intros Hp.
  destruct (index_select_Permutation l _ _ l (symmetry Hp) (index_select_identity l))
    as (l' & Hl' & Hperm).
  exists l'. by split.
Qed.

Lemma index_select_length l idx l' :
  index_select l idx = Ok l' → length l' = length idx.
Proof.
  revert l'. induction idx as [|i idx IH]; intros l'.
  - by intros [= <-].
  - rewrite index_select_cons.
    destruct (py_index l i); simpl; [|done].
    destruct (index_select l idx) as [xs|]; simpl; [|done].
    intros [= <-]. simpl. by rewrite (IH xs).
Qed.
End Indexing.

Lemma py_index_zip {A B} (a : list A) (b : list B) i x y :
  py_index a i = Ok x → py_index b i = Ok y → length a = length b →
  py_index (zip a b) i = Ok (x, y).
Proof.
  intros Ha Hb Hlen. revert Ha Hb.
  unfold py_index. rewrite length_zip, Hlen, Nat.min_id.
  case_decide; [|done].
  rewrite lookup_zip_with.
  destruct (a !! _), (b !! _); simpl; congruence.
Qed.

(** One index list applied to two tensors of equal length keeps their
    entries paired. *)
Lemma index_select_zip {A B} (a : list A) (b : list B) idx a' b' :
  length a = length b →
  index_select a idx = Ok a' → index_select b idx = Ok b' →
  index_select (zip a b) idx = Ok (zip a' b').
Proof.
  intros Hlen. revert a' b'. induction idx as [|i idx IH]; intros a' b'.
  - by intros [= <-] [= <-].
  - rewrite !index_select_cons.
    destruct (py_index a i) as [x|] eqn:Hx; simpl; [|done].
    destruct (py_index b i) as [y|] eqn:Hy; simpl; [|done].
    destruct (index_select a idx) as [xs|]; simpl; [|done].
    destruct (index_select b idx) as [ys|]; simpl; [|done].
    intros [= <-] [= <-].
    rewrite (py_index_zip a b i x y Hx Hy Hlen). simpl.
    by rewrite (IH xs ys eq_refl eq_refl).
Qed.

Section Shuffle.
Context {F : Type} {SF : Scalar F} {EF : Extern F}.

(** C8.  On a training dataset whose three ray tensors have one length,
    [shuffle_rays] succeeds and selects origins, directions and ground
    truth along the same permutation [perm] of the row indices (the one
    [randperm] drew): the new triple at position [i] is the old triple at
    position [perm[i]], so the triples are permuted as a whole, and
    nothing else of the dataset changes.  On any other split the dataset
    and the generator are returned as they were. *)
Theorem shuffle_rays_permutes {P A} (d : Dataset F P A) (g : rng_t) :
  randperm_contract →
  length (dirs (rays d)) = length (origins (rays d)) →
  length (gt (rays d)) = length (origins (rays d)) →
  (split d = "train" →
     ∃ perm d',
       (randperm g (Z.of_nat (length (origins (rays d))))).1 = perm
       ∧ (shuffle_rays d g).1 = Ok d'
       ∧ index_select (origins (rays d)) perm = Ok (origins (rays d'))
       ∧ index_select (dirs (rays d)) perm = Ok (dirs (rays d'))
       ∧ index_select (gt (rays d)) perm = Ok (gt (rays d'))
       ∧ index_select (ray_triples (rays d)) perm = Ok (ray_triples (rays d'))
       ∧ ray_triples (rays d') ≡ₚ ray_triples (rays d)
       ∧ d' = with_rays d (rays d'))
  ∧ (split d ≠ "train" → shuffle_rays d g = (Ok d, g)).
Proof.
  intros Hrand Hd Hg. split; intros Hsplit; unfold shuffle_rays.
  - rewrite decide_True by done.
    pose proof (Hrand g (Z.of_nat (length (origins (rays d))))) as Hperm.
    destruct (randperm g _) as [perm g']. simpl in *.
    destruct (index_select_range_Permutation (origins (rays d)) perm Hperm)
      as (o & Ho & _).
    destruct (index_select_range_Permutation (dirs (rays d)) perm
                ltac:(by rewrite Hd)) as (dd & Hdd & _).
    destruct (index_select_range_Permutation (gt (rays d)) perm
                ltac:(by rewrite Hg)) as (gg & Hgg & _).
    exists perm, (with_rays d {| origins := o; dirs := dd; gt := gg |}).
    unfold permute_rays. rewrite Ho, Hdd, Hgg. simpl.
    assert (Hsel : index_select (ray_triples (rays d)) perm
                   = Ok (zip (zip o dd) gg)).
    { unfold ray_triples. apply index_select_zip; [|by apply index_select_zip|done].
      rewrite length_zip. lia. }
    split_and!; try done.
    unfold ray_triples at 1. simpl.
    destruct (index_select_range_Permutation (ray_triples (rays d)) perm)
      as (t & Ht & Hpt).
    { unfold ray_triples. rewrite !length_zip.
      rewrite Hd, Hg, !Nat.min_id. done. }
    rewrite Hsel in Ht. by injection Ht as <-.
  - by rewrite decide_False.
Qed.
End Shuffle.


Lemma toy_randperm_contract : @randperm_contract Z Z_extern.
Proof.
  intros g n. change Z in (type of g). simpl. unfold rotate_range.
  destruct (decide (0 < n)) as [Hn|Hn]; [|by rewrite !seqZ_nil by lia].
  apply NoDup_Permutation.
  - apply NoDup_fmap_2_strong; [|apply NoDup_seqZ].
    intros x y Hx%elem_of_seqZ Hy%elem_of_seqZ Heq.
    assert (((x + g) - (y + g)) `mod` n = 0) as Hm.
    { rewrite Zminus_mod, Heq, Z.sub_diag. apply Zmod_0_l. }
    replace (x + g - (y + g)) with (x - y) in Hm by lia.
    apply Z.mod_divide in Hm as [k Hk]; [|lia].
    assert (k = 0) as ->; [|lia].
    destruct (decide (k ≤ -1)); [nia|]. destruct (decide (1 ≤ k)); [nia|lia].
  - apply NoDup_seqZ.
  - intros x. rewrite list_elem_of_fmap. setoid_rewrite elem_of_seqZ. split.
    + intros (y & -> & Hy). pose proof (Z.mod_pos_bound (y + g) n Hn). lia.
    + intros Hx. exists ((x - g) `mod` n). split.
      * rewrite Zplus_mod_idemp_l. replace (x - g + g) with x by lia.
        rewrite Z.mod_small; lia.
      * pose proof (Z.mod_pos_bound (x - g) n Hn). lia.
Qed.

Lemma shuffle_rays_permutes_witness :
  ∃ d', (shuffle_rays (EF := Z_extern) toy_train_set 1).1 = Ok d'
        ∧ ray_triples (rays d') ≡ₚ ray_triples (rays toy_train_set).
Proof.
  destruct (shuffle_rays_permutes (EF := Z_extern) toy_train_set 1 toy_randperm_contract
              eq_refl eq_refl) as [Htrain _].
  destruct (Htrain eq_refl) as (perm & d' & _ & Hd' & _ & _ & _ & _ & Hp & _).
  exists d'. by split.
Defined.

(** ** Results, and the compositing of the ground truth *)


Lemma bind_Ok {A B} (r : result A) (f : A → result B) b :
  r ≫= f = Ok b ↔ ∃ a, r = Ok a ∧ f a = Ok b.
Proof.
  destruct r as [a|e]; simpl; split.
  - intros Hf. by exists a.
  - by intros (a' & [= <-] & Hf).
  - done.
  - by intros (a' & [=] & _).
Qed.

Lemma fmap_Ok {A B} (r : result A) (f : A → B) b :
  f <$> r = Ok b ↔ ∃ a, r = Ok a ∧ b = f a.
Proof.
  destruct r as [a|e]; simpl; split.
  - intros [= <-]. by exists a.
  - by intros (a' & [= <-] & ->).
  - done.
  - by intros (a' & [=] & _).
Qed.

Section ResultLemmas.
Context {A B : Type}.

Lemma mapM_Ok (f : A → result B) l l' :
  mapM f l = Ok l' ↔ Forall2 (λ x y, f x = Ok y) l l'.
Proof.
  revert l'. induction l as [|x l IH]; intros l'; simpl.
  - split; [intros [= <-]; constructor|by intros ->%Forall2_nil_inv_l].
  - split.
    + intros (y & Hy & (k & Hk%IH & [= <-])%bind_Ok)%bind_Ok. by constructor.
    + intros (y & k & Hy & Hk%IH & ->)%Forall2_cons_inv_l.
      change (mbind ?f ?m) with (m ≫= f).
      apply bind_Ok. exists y. split; [done|].
      apply bind_Ok. by exists k.
Qed.

Lemma mapM_Ok_total (f : A → result B) (g : A → B) l :
  Forall (λ x, f x = Ok (g x)) l → mapM f l = Ok (g <$> l).
Proof.
  intros Hl. apply mapM_Ok. induction Hl; simpl; by constructor.
Qed.
End ResultLemmas.

Section Composite.
Context {F : Type} {SF : Scalar F}.

Lemma composite_pixel_rgba (r g b a : F) :
  composite_pixel [r; g; b; a] = Ok (over_white [r; g; b] a).
Proof. reflexivity. Qed.

End Composite.


(** ** Running statements, and the gradient step *)


Section MonadLemmas.
Context {F : Type} {SF : Scalar F} {EF : Extern F}.
Implicit Types (s : State).

Lemma run_bind {A B} (m : M A) (f : A → M B) s :
  (m ≫= f) s = match m s with
               | (Ok a, s') => f a s'
               | (Raise e, s') => (Raise e, s')
               end.
Proof. done. Qed.

Lemma run_bind_Ok {A B} (m : M A) (f : A → M B) s b s'' :
  (m ≫= f) s = (Ok b, s'') ↔ ∃ a s', m s = (Ok a, s') ∧ f a s' = (Ok b, s'').
Proof.
  rewrite run_bind. destruct (m s) as [[a|e] s']; split.
  - intros Hf. by exists a, s'.
  - by intros (a' & s2 & [= <- <-] & Hf).
  - done.
  - by intros (a' & s2 & [=] & _).
Qed.

Lemma run_lift_Ok {A} (r : result A) s a s' :
  lift r s = (Ok a, s') ↔ r = Ok a ∧ s' = s.
Proof. unfold lift. split; [by intros [= -> ->]|by intros [-> ->]]. Qed.

Lemma run_get_Ok s a s' : get s = (Ok a, s') ↔ a = s ∧ s' = s.
Proof. unfold get. split; [by intros [= -> ->]|by intros [-> ->]]. Qed.

Lemma run_modify_Ok (f : State → State) s u s' :
  modify f s = (Ok u, s') ↔ s' = f s.
Proof. unfold modify. destruct u. split; [by intros [= ->]|by intros ->]. Qed.

Lemma run_ret_Ok {A} (a b : A) s s' :
  mret (M := M) a s = (Ok b, s') ↔ b = a ∧ s' = s.
Proof. unfold mret, M_ret. split; [by intros [= -> ->]|by intros [-> ->]]. Qed.
End MonadLemmas.

(** Inversion of a successful run, statement by statement. *)
Ltac run_inv H :=
  repeat match type of H with
  | (_ ≫= _) _ = (Ok _, _) =>
      let a := fresh "a" in let s := fresh "s" in let H1 := fresh "Hrun" in
      apply run_bind_Ok in H as (a & s & H1 & H); run_inv H1
  | get _ = (Ok _, _) => apply run_get_Ok in H as [-> ->]
  | lift _ _ = (Ok _, _) => apply run_lift_Ok in H as [H ->]
  | modify _ _ = (Ok _, _) => apply run_modify_Ok in H as ->
  | mret _ _ = (Ok _, _) => apply run_ret_Ok in H as [-> ->]
  end.

Section SGD.
Context {F : Type} {SF : Scalar F} {EF : Extern F}.

Lemma at2_scaled (lr_h lr_s : F) (g : tensor2 F) (v c : nat) :
  at2 (scale_upto 1 lr_s (scale_from 1 lr_h g)) v c
  = (λ x, fmul x (match c with O => lr_s | S _ => lr_h end)) <$> at2 g v c.
Proof.
  unfold at2, scale_upto, scale_from.
  rewrite <- list_fmap_compose, list_lookup_fmap.
  destruct (g !! v) as [row|]; simpl; [|done].
  destruct row as [|x row]; [by destruct c|].
  simpl. rewrite ?take_0, ?drop_0. simpl.
  destruct c as [|c]; simpl; [done|]. by rewrite list_lookup_fmap.
Qed.

Lemma shape2_scaled (lr_h lr_s : F) (g : tensor2 F) :
  shape2 (scale_upto 1 lr_s (scale_from 1 lr_h g)) = shape2 g.
Proof.
  unfold shape2, scale_upto, scale_from. rewrite <- !list_fmap_compose.
  apply list_fmap_ext. intros _ row _. simpl.
  destruct row as [|x row]; [done|]. simpl.
  by rewrite ?take_0, ?drop_0, ?length_app, ?length_fmap.
Qed.

Lemma at2_tensor_zip (op : F → F → F) (x y z : tensor2 F) (v c : nat) a b :
  tensor_zip op x y = Ok z → at2 x v c = Some a → at2 y v c = Some b →
  at2 z v c = Some (op a b).
Proof.
  unfold tensor_zip, at2. case_decide; [|done]. intros [= <-].
  rewrite lookup_zip_with.
  destruct (x !! v) as [rx|]; simpl; [|done].
  destruct (y !! v) as [ry|]; simpl; [|done].
  rewrite lookup_zip_with. intros -> ->. done.
Qed.

Lemma shape2_tensor_zip (op : F → F → F) (x y z : tensor2 F) :
  tensor_zip op x y = Ok z → shape2 z = shape2 x ∧ shape2 y = shape2 x.
Proof.
  unfold tensor_zip. case_decide as Hs; [|done]. intros [= <-]. split; [|done].
  unfold shape2 in *. revert y Hs. induction x as [|rx x IH]; intros [|ry y]; try done.
  simpl. intros [= Hr Hs]. rewrite length_zip_with, <- Hr, Nat.min_id. f_equal. by apply IH.
Qed.

(** The manual step on a state that holds a gradient [g]. *)
Lemma sgd_step_Ok (a : Args F) (s s' : State) :
  sgd_step a s = (Ok tt, s') →
  ∃ g, grid_grad s = Some g
    ∧ shape2 g = shape2 (grid_data s)
    ∧ tensor_zip fsub (grid_data s) (scale_upto 1 (lr_sigma a) (scale_from 1 (lr_sh a) g))
      = Ok (grid_data s')
    ∧ s' = set_grid_grad None (set_grid_data (grid_data s') s).
Proof.
  unfold sgd_step. intros H. run_inv H. simpl in *.
  destruct (grid_grad s) as [g|] eqn:Hg; [|done].
  injection Hrun as <-. injection Hrun0 as <-. injection Hrun1 as <-.
  exists g. split; [done|].
  pose proof (shape2_tensor_zip _ _ _ _ Hrun2) as [_ Hs].
  rewrite shape2_scaled in Hs.
  split; [done|]. split; [done|]. by destruct s.
Qed.
End SGD.

(** ** Relations between the state before and after a statement *)

Section Relational.
Context {F : Type} {SF : Scalar F} {EF : Extern F}.
Implicit Types (s : State) (R : relation State).


#[global] Instance only_emits_preorder : PreOrder only_emits.
Proof.
  split.
  - intros s. exists []. rewrite app_nil_r. by destruct s.
  - intros s1 s2 s3 [n1 ->] [n2 ->]. exists (n1 ++ n2). simpl.
    by rewrite app_assoc.
Qed.

Lemma rel_ret {A} R `{!Reflexive R} (a : A) : run_rel R (mret a).
Proof. intros s. simpl. reflexivity. Qed.

Lemma rel_get R `{!Reflexive R} : run_rel R get.
Proof. intros s. simpl. reflexivity. Qed.

Lemma rel_lift {A} R `{!Reflexive R} (r : result A) : run_rel R (lift r).
Proof. intros s. simpl. reflexivity. Qed.

Lemma rel_modify R (f : State → State) : (∀ s, R s (f s)) → run_rel R (modify f).
Proof. intros Hf s. apply Hf. Qed.

(** Sequencing, for relations that need not compose with themselves. *)
Lemma rel_seq {A B} (R1 R2 R : relation State) (m : M A) (f : A → M B) :
  run_rel R1 m → (∀ a, run_rel R2 (f a)) →
  (∀ s s', R1 s s' → R s s') →
  (∀ s s' s'', R1 s s' → R2 s' s'' → R s s'') →
  run_rel R (m ≫= f).
Proof.
  intros Hm Hf Hw Hc s. rewrite run_bind.
  specialize (Hm s). destruct (m s) as [[a|e] s']; simpl in *.
  - eapply Hc; [exact Hm|]. apply Hf.
  - by apply Hw.
Qed.

Lemma rel_bind {A B} R `{!Transitive R} (m : M A) (f : A → M B) :
  run_rel R m → (∀ a, run_rel R (f a)) → run_rel R (m ≫= f).
Proof.
  intros Hm Hf. apply (rel_seq R R R); [done|done|done|].
  intros s s' s''. apply transitivity.
Qed.

Lemma rel_foldM {A B} R `{!PreOrder R} (f : B → A → M B) (b : B) (l : list A) :
  (∀ b a, run_rel R (f b a)) → run_rel R (foldM f b l).
Proof.
  intros Hf. revert b. induction l as [|a l IH]; intros b.
  - apply rel_ret, _.
  - change (foldM f b (a :: l)) with (f b a ≫= λ b', foldM f b' l).
    apply rel_bind; [apply _|apply Hf|intros b'; apply IH].
Qed.

Lemma rel_add_scalar t v g : run_rel only_emits (add_scalar t v g).
Proof. apply rel_modify. intros s. by eexists. Qed.

Lemma rel_add_image t im g : run_rel only_emits (add_image t im g).
Proof. apply rel_modify. intros s. by eexists. Qed.
End Relational.

(** Decomposes a goal [run_rel R m] along the statements of [m], for a
    reflexive and transitive [R]. *)
Ltac rel_step :=
  match goal with
  | |- run_rel _ (mret _) => apply rel_ret; apply _
  | |- run_rel _ get => apply rel_get; apply _
  | |- run_rel _ (lift _) => apply rel_lift; apply _
  | |- run_rel _ (foldM _ _ _) => apply rel_foldM; [apply _|intros ? ?]
  | |- run_rel _ (_ ≫= _) => apply rel_bind; [apply _| |intros ?]
  | |- run_rel _ (let '(_, _) := ?p in _) => destruct p
  | |- run_rel _ (if ?b then _ else _) => destruct b
  | |- run_rel _ (match ?x with _ => _ end) => destruct x
  end.

Section EvalFrame.
Context {F : Type} {SF : Scalar F} {EF : Extern F}.

Lemma eval_image_only_emits (a : Args F) im_size gstep_id acc img_id :
  run_rel only_emits (eval_image a im_size gstep_id acc img_id).
Proof. unfold eval_image. repeat rel_step; apply rel_add_image. Qed.

Lemma eval_step_only_emits (a : Args F) : run_rel only_emits (eval_step a).
Proof.
  unfold eval_step.
  repeat first [apply eval_image_only_emits | apply rel_add_scalar | rel_step].
Qed.

(** C10.  However [eval_step] ends, it leaves the grid (links,
    coefficients, stored gradient, render options), both datasets, the
    random generator, the epoch geometry ([epoch_size],
    [batches_per_epoch]), the epoch counter and the files on disk exactly
    as they were; its only effect on the state is to append emissions to
    the summary. *)
Theorem eval_step_frame (a : Args F) (s : State) :
  let s' := (eval_step a s).2 in
  grid_data s' = grid_data s
  ∧ grid_links s' = grid_links s
  ∧ grid_grad s' = grid_grad s
  ∧ grid_opt s' = grid_opt s
  ∧ dset s' = dset s
  ∧ dset_test s' = dset_test s
  ∧ epoch_id s' = epoch_id s
  ∧ epoch_size s' = epoch_size s
  ∧ batches_per_epoch s' = batches_per_epoch s
  ∧ rng s' = rng s
  ∧ disk s' = disk s
  ∧ ∃ new, summary s' = summary s ++ new.
Proof.
  destruct (eval_step_only_emits a s) as [new ->]. simpl.
  split_and!; try done. by exists new.
Qed.
End EvalFrame.

(** ** The checkpoint *)

(** *** Strings *)

Lemma string_app_cons (c : ascii) (s1 s2 : string) :
  String c s1 +:+ s2 = String c (s1 +:+ s2).
Proof. reflexivity. Qed.

Lemma string_length_app (s1 s2 : string) :
  String.length (s1 +:+ s2) = (String.length s1 + String.length s2)%nat.
Proof.
  induction s1 as [|c s1 IH]; [done|].
  rewrite string_app_cons. simpl. by rewrite IH.
Qed.

Lemma string_app_assoc (s1 s2 s3 : string) :
  (s1 +:+ s2) +:+ s3 = s1 +:+ (s2 +:+ s3).
Proof.
  induction s1 as [|c s1 IH]; [done|].
  rewrite !string_app_cons. by rewrite IH.
Qed.

Lemma substring_app_skip (pre s : string) (i m : nat) :
  String.substring (String.length pre + i) m (pre +:+ s) = String.substring i m s.
Proof.
  induction pre as [|c pre IH]; [done|].
  rewrite string_app_cons. simpl. exact IH.
Qed.

Lemma ends_with_app (suffix pre s : string) :
  (String.length suffix ≤ String.length s)%nat →
  ends_with suffix (pre +:+ s) = ends_with suffix s.
Proof.
  intros Hle. unfold ends_with. rewrite string_length_app.
  rewrite !decide_True by lia.
  replace (String.length pre + String.length s - String.length suffix)%nat
    with (String.length pre + (String.length s - String.length suffix))%nat by lia.
  by rewrite substring_app_skip.
Qed.

Section Checkpoint.
Context {F : Type} {SF : Scalar F} {EF : Extern F}.


#[global] Instance train_frame_preorder : PreOrder train_frame.
Proof.
  split.
  - by intros s.
  - intros s1 s2 s3 H1 H2. unfold train_frame in *.
    destruct_and!. split_and!; congruence.
Qed.

Lemma only_emits_train_frame s s' : only_emits s s' → train_frame s s'.
Proof. by intros [new ->]. Qed.

Lemma rel_weaken {A} (R1 R2 : relation State) (m : M A) :
  (∀ s s', R1 s s' → R2 s s') → run_rel R1 m → run_rel R2 m.
Proof. intros Hw Hm s. apply Hw, Hm. Qed.

Lemma train_step_frame (a : Args F) : run_rel train_frame (train_step a).
Proof.
  unfold train_step, train_iter, shuffle_dset, report_stats, backward, sgd_step,
    add_scalar.
  repeat first [ rel_step | by apply rel_modify ].
Qed.


Lemma checkpoint_file_name (a : Args F) :
  savez_filename (ckpt_path a) = ckpt_path a +:+ ".npz"
  ∧ ∃ sep, (sep = EmptyString ∨ sep = "/") ∧ ckpt_path a = train_dir a +:+ sep +:+ "ckpt.npy".
Proof.
  assert (∃ sep, (sep = EmptyString ∨ sep = "/") ∧ ckpt_path a = train_dir a +:+ sep +:+ "ckpt.npy")
    as (sep & Hsep & Hp).
  { unfold ckpt_path, path_join.
    change (starts_with "/" "ckpt.npy") with false. simpl.
    destruct (orb _ _).
    - exists EmptyString. split; [by left|reflexivity].
    - exists "/". split; [by right|reflexivity]. }
  split; [|by exists sep].
  unfold savez_filename. rewrite Hp.
  rewrite ends_with_app; [|rewrite string_length_app; simpl; lia].
  rewrite ends_with_app; [done|simpl; lia].
Qed.

Lemma epoch_body_Ok (a : Args F) e s s' :
  epoch_body a e s = (Ok tt, s') →
  disk s' = <[savez_filename (ckpt_path a) := checkpoint_of s']> (disk s).
Proof.
  unfold epoch_body, save_checkpoint, np_savez. intros H. run_inv H.
  lazymatch goal with
  | He : eval_step a ?s1 = _, Ht : train_step a ?s2 = _ |- _ =>
      pose proof (eval_step_only_emits a s1) as [He' _]%only_emits_train_frame;
      pose proof (train_step_frame a s2) as [Ht' _];
      rewrite He in He'; rewrite Ht in Ht'
  end.
  simpl in *. by rewrite Ht', He'.
Qed.

Lemma for_each_epochs_Ok (a : Args F) (epochs : list Z) s s' :
  epochs ≠ [] →
  for_each epochs (epoch_body a) s = (Ok tt, s') →
  disk s' = <[savez_filename (ckpt_path a) := checkpoint_of s']> (disk s).
Proof.
  revert s. induction epochs as [|e epochs IH]; intros s Hne; [done|].
  unfold for_each.
  change (foldM ?f tt (e :: epochs)) with (f tt e ≫= λ b, foldM f b epochs).
  intros H. apply run_bind_Ok in H as ([] & s1 & He & H).
  apply epoch_body_Ok in He.
  destruct epochs as [|e' epochs].
  - apply run_ret_Ok in H as [_ ->]. done.
  - rewrite (IH s1 ltac:(done) H), He. by rewrite insert_insert_eq.
Qed.

(** C4.  The checkpoint file is [ckpt.npy.npz] directly under the
    checkpoint directory, whatever the epoch.  An epoch that completes
    changes the disk at that one file only, where it leaves an archive of
    exactly two arrays, [links] and [data], holding the grid's link tensor
    and coefficient tensor as they are at the end of the epoch; and a run
    of at least one epoch that completes leaves that single file, holding
    the final grid: each epoch has overwritten the previous archive. *)
Theorem checkpoint_each_epoch (a : Args F) :
  let file := savez_filename (ckpt_path a) in
  (∃ sep, (sep = EmptyString ∨ sep = "/")
     ∧ file = train_dir a +:+ (sep +:+ "ckpt.npy.npz"))
  ∧ (∀ e s s', epoch_body a e s = (Ok tt, s') →
       disk s' = <[file := [("links", LinkArray (grid_links s'));
                            ("data", FloatArray (grid_data s'))]]> (disk s))
  ∧ (∀ s s', 1 ≤ n_epochs a → epoch_loop a s = (Ok tt, s') →
       disk s' = <[file := [("links", LinkArray (grid_links s'));
                            ("data", FloatArray (grid_data s'))]]> (disk s)).
Proof.
  intros file. split_and!.
  - destruct (checkpoint_file_name a) as (Hf & sep & Hsep & Hp).
    exists sep. split; [done|]. unfold file. rewrite Hf, Hp.
    rewrite string_app_assoc. by destruct Hsep as [-> | ->].
  - intros e s s'. apply epoch_body_Ok.
  - intros s s' Hn. unfold epoch_loop. intros H. run_inv H.
    apply for_each_epochs_Ok in H; [done|].
    unfold py_range in Hrun. simpl in Hrun. injection Hrun as <-.
    destruct (Z.to_nat (n_epochs a - 0)) eqn:E; [lia|]. simpl.
    by rewrite decide_True by lia.
Qed.
End Checkpoint.

Lemma checkpoint_each_epoch_witness :
  disk toy_state_epoch
  = <[ "ckpt/ckpt.npy.npz" := [("links", LinkArray (grid_links toy_state_epoch));
                               ("data", FloatArray (grid_data toy_state_epoch))] ]>
      (disk toy_state0).
Proof.
  assert (epoch_body toy_args 0 toy_state0 = (Ok tt, toy_state_epoch)) as Hrun
    by (vm_compute; reflexivity).
  destruct (checkpoint_each_epoch toy_args) as (_ & Hepoch & _).
  exact (Hepoch 0 toy_state0 toy_state_epoch Hrun).
Defined.

(** ** The steps of the summaries *)


Lemma StronglySorted_steps_nondecreasing {F} (log : list (Emission F)) :
  StronglySorted Z.le (steps log) → steps_nondecreasing log.
Proof.
  unfold steps. induction log as [|e log IH]; intros Hs i j ei ej Hij Hi Hj.
  - done.
  - rewrite fmap_cons in Hs. apply StronglySorted_cons in Hs as [Hall Hs].
    destruct j as [|j]; [lia|]. destruct i as [|i]; simpl in *.
    + injection Hi as <-. rewrite Forall_fmap, Forall_lookup in Hall.
      by apply (Hall j ej).
    + apply (IH Hs i j); [lia|done|done].
Qed.

Section Steps.
Context {F : Type} {SF : Scalar F} {EF : Extern F}.
Implicit Types (s : State).


Lemma step_frame_refl s : step_frame s s.
Proof. done. Qed.

Lemma step_frame_trans s1 s2 s3 : step_frame s1 s2 → step_frame s2 s3 → step_frame s1 s3.
Proof. unfold step_frame. intros (?&?&?) (?&?&?). split_and!; congruence. Qed.

Lemma step_frame_base s s' : step_frame s s' → base_step s' = base_step s.
Proof. unfold base_step. by intros (-> & _ & ->). Qed.

#[global] Instance silent_preorder : PreOrder silent.
Proof.
  split.
  - by intros s.
  - intros s1 s2 s3 [H1 E1] [H2 E2]. split; [by eapply step_frame_trans|congruence].
Qed.

Lemma silent_emits lo hi s s' : silent s s' → emits_within lo hi s s'.
Proof.
  intros [Hf Hs]. split; [done|]. exists []. rewrite app_nil_r.
  split; [done|]. split; constructor.
Qed.

Lemma emits_weaken lo hi lo' hi' s s' :
  lo' ≤ lo → hi ≤ hi' → emits_within lo hi s s' → emits_within lo' hi' s s'.
Proof.
  intros Hlo Hhi (Hf & new & Hn & Hs & Hb). split; [done|]. exists new.
  split_and!; [done|done|]. eapply Forall_impl; [exact Hb|]. simpl. lia.
Qed.

Lemma emits_seq lo1 hi1 lo2 hi2 s1 s2 s3 :
  hi1 ≤ lo2 →
  emits_within lo1 hi1 s1 s2 → emits_within lo2 hi2 s2 s3 →
  emits_within (Z.min lo1 lo2) (Z.max hi1 hi2) s1 s3.
Proof.
  intros Hle (Hf1 & n1 & E1 & S1 & B1) (Hf2 & n2 & E2 & S2 & B2).
  split; [by eapply step_frame_trans|]. exists (n1 ++ n2).
  rewrite E2, E1, app_assoc. split; [done|].
  unfold steps in *. rewrite fmap_app. split.
  - apply StronglySorted_app_2; [|done|done].
    intros x1 x2 H1 H2. rewrite Forall_forall in B1, B2.
    specialize (B1 x1 H1). specialize (B2 x2 H2). simpl in *. lia.
  - apply Forall_app. split; (eapply Forall_impl; [eassumption|]); simpl; lia.
Qed.

#[global] Instance emits_const_preorder g : PreOrder (emits_within g g).
Proof.
  split.
  - intros s. by apply silent_emits.
  - intros s1 s2 s3 H1 H2.
    eapply emits_weaken; [| |exact (emits_seq g g g g s1 s2 s3 ltac:(lia) H1 H2)]; lia.
Qed.

(** Pointwise sequencing: the relation reached by [m] from [s], followed
    by what the continuation guarantees from anywhere. *)
Lemma runs_seq {A B} (R1 : relation State) (R2 : State → relation State)
    (R : relation State) (m : M A) (f : A → M B) s :
  R1 s (m s).2 →
  (∀ a s', R1 s s' → R2 s s' (f a s').2) →
  (∀ s', R1 s s' → R s s') →
  (∀ s' s'', R1 s s' → R2 s s' s'' → R s s'') →
  R s ((m ≫= f) s).2.
Proof.
  intros Hm Hf Hw Hc. rewrite run_bind.
  destruct (m s) as [[a|e] s']; simpl in *.
  - eapply Hc; [exact Hm|]. by apply Hf.
  - by apply Hw.
Qed.

Lemma run_get_bind {A} (f : State → M A) s : (get ≫= f) s = f s s.
Proof. done. Qed.

Lemma run_lift_bind {A B} (r : result A) (f : A → M B) s :
  (lift r ≫= f) s = match r with Ok a => f a s | Raise e => (Raise e, s) end.
Proof. rewrite run_bind. unfold lift. by destruct r. Qed.

Lemma rel_emit_scalar t v g : run_rel (emits_within g g) (add_scalar t v g).
Proof.
  apply rel_modify. intros s. split; [done|]. eexists. split; [done|].
  split; repeat constructor; simpl; lia.
Qed.

Lemma rel_emit_image t im g : run_rel (emits_within g g) (add_image t im g).
Proof.
  apply rel_modify. intros s. split; [done|]. eexists. split; [done|].
  split; repeat constructor; simpl; lia.
Qed.

(** *** [eval_step] emits at the base step of the epoch *)

Lemma eval_image_emits (a : Args F) im_size g acc img_id :
  run_rel (emits_within g g) (eval_image a im_size g acc img_id).
Proof. unfold eval_image. repeat first [apply rel_emit_image | rel_step]. Qed.

Lemma eval_step_emits (a : Args F) s :
  emits_within (base_step s) (base_step s) s (eval_step a s).2.
Proof.
  unfold eval_step. rewrite run_get_bind. fold (base_step s).
  lazymatch goal with
  | |- emits_within ?g ?g s (?m s).2 =>
      enough (run_rel (emits_within g g) m) as Hm by apply Hm
  end.
  repeat first [apply eval_image_emits | apply rel_emit_scalar | rel_step].
Qed.

(** *** [train_step] emits at the base step plus the iteration number *)

Lemma backward_silent o d g : run_rel silent (backward o d g).
Proof. unfold backward. repeat first [rel_step | by apply rel_modify]. Qed.

Lemma sgd_step_silent (a : Args F) : run_rel silent (sgd_step a).
Proof. unfold sgd_step. repeat first [rel_step | by apply rel_modify]. Qed.

Lemma shuffle_dset_silent : run_rel silent shuffle_dset.
Proof. unfold shuffle_dset. repeat first [rel_step | by apply rel_modify]. Qed.

Lemma report_stats_emits (a : Args F) iter_id st s :
  emits_within (iter_id + base_step s) (iter_id + base_step s) s
    (report_stats a iter_id st s).2.
Proof.
  unfold report_stats. rewrite run_lift_bind.
  destruct (py_mod _ _) as [r|]; [|reflexivity].
  case_decide; [|reflexivity].
  rewrite run_get_bind. fold (base_step s).
  lazymatch goal with
  | |- emits_within ?g ?g s (?m s).2 =>
      enough (run_rel (emits_within g g) m) as Hm by apply Hm
  end.
  repeat first [apply rel_emit_scalar | rel_step].
Qed.

Lemma train_iter_emits (a : Args F) st iter_id batch_begin s :
  emits_within (iter_id + base_step s) (iter_id + base_step s) s
    (train_iter a st (iter_id, batch_begin) s).2.
Proof.
  unfold train_iter. rewrite run_get_bind.
  rewrite run_lift_bind. destruct (volume_render _ _ _ _ _); [|reflexivity].
  rewrite run_lift_bind. destruct (mse_loss _ _); [|reflexivity].
  rewrite run_lift_bind. destruct (psnr_of_mse _); [|reflexivity].
  apply (runs_seq (emits_within (iter_id + base_step s) (iter_id + base_step s))
           (λ _, silent)).
  - apply report_stats_emits.
  - intros st' s' _. revert s'.
    lazymatch goal with
    | |- ∀ s', silent s' (?m s').2 => change (run_rel silent m)
    end.
    repeat first [apply backward_silent | apply sgd_step_silent | rel_step].
  - done.
  - intros s' s'' H1 H2. etrans; [exact H1|]. by apply silent_emits.
Qed.

(** The iterations [k, k+1, ...] over the batches [l] emit in order, at
    steps between [k] and [k + length l - 1] above the base step. *)
Lemma train_loop_emits (a : Args F) (l : list Z) (k : Z) st s :
  emits_within (k + base_step s) (k + Z.of_nat (length l) - 1 + base_step s) s
    (foldM (train_iter a) st (zip (seqZ k (Z.of_nat (length l))) l) s).2.
Proof.
  revert k st s. induction l as [|b l IH]; intros k st s.
  - by apply silent_emits.
  - rewrite seqZ_cons by (simpl; lia).
    replace (Z.pred (Z.of_nat (length (b :: l)))) with (Z.of_nat (length l))
      by (simpl; lia).
    change (foldM ?f st (zip (k :: ?ks) (b :: l)))
      with (f st (k, b) ≫= λ st', foldM f st' (zip ks l)).
    apply (runs_seq (emits_within (k + base_step s) (k + base_step s))
             (λ s0, emits_within (Z.succ k + base_step s0)
                      (Z.succ k + Z.of_nat (length l) - 1 + base_step s0))).
    + apply train_iter_emits.
    + intros st' s' [Hf _]. rewrite <- (step_frame_base s s' Hf). apply IH.
    + intros s'. apply emits_weaken; simpl; lia.
    + intros s' s'' H1 H2.
      eapply emits_weaken; [| |eapply emits_seq; [|exact H1|exact H2]];
        simpl; lia.
Qed.

Lemma enumerate_zip {A} (l : list A) :
  enumerate l = zip (seqZ 0 (Z.of_nat (length l))) l.
Proof.
  unfold enumerate. cut (∀ k : nat,
    imap (λ i a, (Z.of_nat (k + i), a)) l = zip (seqZ (Z.of_nat k) (Z.of_nat (length l))) l).
  { intros Hk. apply (Hk 0%nat). }
  induction l as [|x l IH]; intros k; [done|].
  rewrite imap_cons, seqZ_cons by (simpl; lia).
  replace (Z.pred (Z.of_nat (length (x :: l)))) with (Z.of_nat (length l))
    by (simpl; lia).
  replace (Z.succ (Z.of_nat k)) with (Z.of_nat (S k)) by lia.
  cbn [zip_with]. f_equal.
  - by rewrite Nat.add_0_r.
  - rewrite <- IH. apply imap_ext. intros i y _. simpl. f_equal. lia.
Qed.


Lemma train_step_emits (a : Args F) s :
  0 < batch_size a →
  emits_within (base_step s) (n_batches a s - 1 + base_step s) s (train_step a s).2.
Proof.
  intros Hbs. unfold train_step. rewrite run_get_bind, run_lift_bind.
  destruct (py_range _ _ _) as [begins|] eqn:Hr; [|by apply silent_emits].
  pose proof (py_range_length _ _ _ _ Hbs Hr) as Hlen. fold (n_batches a s) in Hlen.
  apply (runs_seq silent
           (λ s0, emits_within (0 + base_step s0) (0 + n_batches a s - 1 + base_step s0))).
  - apply shuffle_dset_silent.
  - intros [] s' [Hf _]. rewrite <- (step_frame_base s s' Hf).
    apply (runs_seq (emits_within (0 + base_step s') (0 + n_batches a s - 1 + base_step s'))
             (λ _, silent)).
    + rewrite enumerate_zip, <- Hlen. apply train_loop_emits.
    + intros _ s'' _. reflexivity.
    + done.
    + intros s'' s3 H1 [H2 H3]. destruct H1 as (Hf1 & new & Hn & Hrest).
      split; [by eapply step_frame_trans|]. exists new. by rewrite H3.
  - intros s'. apply silent_emits.
  - intros s' s'' [Hf Hs] (Hf2 & new & Hn & Hsort & Hb).
    split; [by eapply step_frame_trans|]. exists new.
    rewrite Hn, Hs. split; [done|]. split; [done|].
    eapply Forall_impl; [exact Hb|]. simpl. lia.
Qed.

(** *** The epoch loop *)

Lemma save_checkpoint_silent (a : Args F) : run_rel silent (save_checkpoint a).
Proof. unfold save_checkpoint, np_savez. repeat first [rel_step | by apply rel_modify]. Qed.


Lemma geometry_bounds (a : Args F) s :
  geometry_ok a s → 0 ≤ batches_per_epoch s ∧ n_batches a s ≤ batches_per_epoch s.
Proof.
  intros (Hbs & Hes & ->). unfold n_batches, range_count.
  case_decide as Hlt.
  - replace (epoch_size s - 0 - 1) with (epoch_size s - 1) by lia.
    assert (0 ≤ (epoch_size s - 1) `div` batch_size a) by (apply Z.div_pos; lia). lia.
  - assert (epoch_size s = 0) as -> by lia. change (0 - 1) with (-1).
    assert ((-1) `div` batch_size a = -1) as ->; [|lia].
    symmetry. apply (Z.div_unique_pos _ _ _ (batch_size a - 1)); lia.
Qed.

Lemma run_modify_bind {A} (f : State → State) (k : unit → M A) s :
  (modify f ≫= k) s = k tt (f s).
Proof. done. Qed.

Lemma epoch_body_emits (a : Args F) (e : Z) s :
  geometry_ok a s →
  let B := batches_per_epoch s in
  epoch_emits (λ g, e * B ≤ g ≤ (e + 1) * B) s (epoch_body a e s).2.
Proof.
  intros Hg B. pose proof (geometry_bounds a s Hg) as [HB Hn].
  destruct Hg as (Hbs & _ & _).
  unfold epoch_body. rewrite run_modify_bind.
  set (s1 := set_epoch_id e s).
  assert (base_step s1 = e * B) as Hbase by done.
  assert (n_batches a s1 = n_batches a s) as Hnb by done.
  enough (emits_within (e * B) ((e + 1) * B) s1
            ((eval_step a ≫= λ _, train_step a ≫= λ _, save_checkpoint a) s1).2) as Hs1.
  { destruct Hs1 as ((_ & Hes & Hbpe) & new & Hnew & Hsort & Hb).
    split; [done|]. split; [done|]. by exists new. }
  apply (runs_seq (emits_within (e * B) (e * B))
           (λ _, emits_within (e * B) ((e + 1) * B))).
  - rewrite <- Hbase. apply eval_step_emits.
  - intros [] s2 [Hf _].
    apply (runs_seq (emits_within (e * B) ((e + 1) * B)) (λ _, silent)).
    + pose proof (train_step_emits a s2 Hbs) as Ht.
      rewrite (step_frame_base s1 s2 Hf), Hbase in Ht.
      eapply emits_weaken; [| |exact Ht]; [lia|].
      assert (n_batches a s2 = n_batches a s) as ->.
      { unfold n_batches. destruct Hf as (_ & -> & _). done. }
      lia.
    + intros [] s3 _. apply save_checkpoint_silent.
    + done.
    + intros s3 s4 H1 H2. destruct H1 as (Hf1 & new & Hnew & Hrest).
      destruct H2 as [Hf2 Hs2].
      split; [by eapply step_frame_trans|]. exists new. by rewrite Hs2.
  - intros s2. apply emits_weaken; lia.
  - intros s2 s3 H1 H2.
    eapply emits_weaken; [| |eapply emits_seq; [|exact H1|exact H2]]; lia.
Qed.

Lemma epoch_emits_geometry (a : Args F) P s s' :
  epoch_emits P s s' → geometry_ok a s → geometry_ok a s'.
Proof. intros (Hes & Hb & _) (? & ? & ?). unfold geometry_ok. by rewrite Hes, Hb. Qed.

Lemma epochs_emit (a : Args F) (m : nat) (k : Z) s :
  geometry_ok a s →
  epoch_emits (λ g, k * batches_per_epoch s ≤ g) s
    (for_each (seqZ k (Z.of_nat m)) (epoch_body a) s).2.
Proof.
  revert k s. induction m as [|m IH]; intros k s Hg.
  - split; [done|]. split; [done|]. exists []. rewrite app_nil_r.
    split; [done|]. split; constructor.
  - rewrite seqZ_cons by lia.
    replace (Z.pred (Z.of_nat (S m))) with (Z.of_nat m) by lia.
    unfold for_each.
    change (foldM ?f tt (k :: ?ks)) with (f tt k ≫= λ b, foldM f b ks).
    pose proof (geometry_bounds a s Hg) as [HB _].
    set (B := batches_per_epoch s) in *.
    apply (runs_seq (epoch_emits (λ g, k * B ≤ g ≤ (k + 1) * B))
             (λ _, epoch_emits (λ g, (k + 1) * B ≤ g))).
    + by apply epoch_body_emits.
    + intros [] s1 H1.
      pose proof (IH (Z.succ k) s1 (epoch_emits_geometry a _ s s1 H1 Hg)) as H2.
      destruct H1 as (_ & HB1 & _). rewrite HB1 in H2. fold B in H2.
      by replace (Z.succ k) with (k + 1) in H2 by lia.
    + intros s1 (Hes & Hb & new & Hn & Hs & Hall).
      split; [done|]. split; [done|]. exists new. split_and!; try done.
      eapply Forall_impl; [exact Hall|]. simpl. lia.
    + intros s1 s2 (Hes1 & Hb1 & n1 & Hn1 & Hs1 & Hall1)
                   (Hes2 & Hb2 & n2 & Hn2 & Hs2 & Hall2).
      split; [congruence|]. split; [congruence|]. exists (n1 ++ n2).
      rewrite Hn2, Hn1, app_assoc. split; [done|].
      unfold steps in *. rewrite fmap_app. split.
      * apply StronglySorted_app_2; [|done|done].
        intros x1 x2 Hx1 Hx2. rewrite Forall_forall in Hall1, Hall2.
        specialize (Hall1 x1 Hx1). specialize (Hall2 x2 Hx2). simpl in *. lia.
      * apply Forall_app. split; (eapply Forall_impl; [eassumption|]); simpl; nia.
Qed.

Lemma epoch_loop_emits (a : Args F) s :
  geometry_ok a s →
  epoch_emits (λ g, 0 ≤ g) s (epoch_loop a s).2.
Proof.
  intros Hg. unfold epoch_loop. rewrite run_lift_bind.
  rewrite py_range_up by lia.
  pose proof (range_count_nonneg 0 (n_epochs a) 1 ltac:(lia)) as Hc.
  replace ((λ k, 0 + k * 1) <$> seqZ 0 (range_count 0 (n_epochs a) 1))
    with (seqZ 0 (Z.of_nat (Z.to_nat (range_count 0 (n_epochs a) 1)))).
  - pose proof (epochs_emit a (Z.to_nat (range_count 0 (n_epochs a) 1)) 0 s Hg) as H.
    by rewrite Z.mul_0_l in H.
  - rewrite Z2Nat.id by done. rewrite <- (list_fmap_id (seqZ 0 _)) at 1.
    apply list_fmap_ext. intros _ k _. simpl. lia.
Qed.
End Steps.

Section MainSteps.
Context {F : Type} {SF : Scalar F} {EF : Extern F}.

Lemma setup_Ok (a : Args F) files disk0 s0 :
  setup a files disk0 = Ok s0 →
  summary s0 = [] ∧ disk s0 = disk0 ∧ grid_grad s0 = None
  ∧ 0 ≤ epoch_size s0 ∧ batch_size a ≠ 0
  ∧ batches_per_epoch s0 = (epoch_size s0 - 1) `div` batch_size a + 1.
Proof.
  unfold setup.
  intros (train & _ & (test & _ & H)%bind_Ok)%bind_Ok.
  apply bind_Ok in H as ([links data] & _ & H).
  apply bind_Ok in H as (q & Hq & [= <-]). simpl.
  unfold py_floordiv in Hq. case_decide; [done|]. injection Hq as <-.
  split_and!; try done. lia.
Qed.

(** With a batch size of at least one, the steps of the summary of a run
    never decrease. *)
Lemma summary_steps_sorted (a : Args F) files disk0 :
  1 ≤ batch_size a →
  steps_nondecreasing (main a files disk0).1.2.
Proof.
  intros Hbs. unfold main.
  destruct (startup a) as [[]|e]; [|by intros i j ei ej _ Hi]. simpl.
  destruct (setup a files disk0) as [s0|e] eqn:Hsetup; [|by intros i j ei ej _ Hi].
  apply setup_Ok in Hsetup as (Hsum & _ & _ & Hes & _ & Hb).
  pose proof (epoch_loop_emits a s0 ltac:(by split_and!; [lia|done|done]))
    as (_ & _ & new & Hnew & Hsort & _).
  destruct (epoch_loop a s0) as [r s]. simpl in *.
  rewrite Hnew, Hsum. simpl. by apply StronglySorted_steps_nondecreasing.
Qed.
End MainSteps.

(** C3 as written fails: the summaries of one evaluation share a step
    (here [test/psnr] and [test/mse] of the first evaluation, both at 0). *)
Lemma summary_steps_not_increasing :
  ¬ steps_increasing (main toy_args toy_files ∅).1.2.
Proof.
  intros H.
  assert (∃ e0 e1, (main toy_args toy_files ∅).1.2 !! 5%nat = Some e0
                   ∧ (main toy_args toy_files ∅).1.2 !! 6%nat = Some e1
                   ∧ global_step e0 = 0 ∧ global_step e1 = 0
                   ∧ tag e0 = "test/psnr" ∧ tag e1 = "test/mse")
    as (e0 & e1 & H0 & H1 & G0 & G1 & _).
  { vm_compute. eexists _, _. repeat split. }
  specialize (H 5%nat 6%nat e0 e1 ltac:(lia) H0 H1). lia.
Qed.

(** ** A training iteration *)


Section TrainIter.
Context {F : Type} {SF : Scalar F} {EF : Extern F}.

Lemma report_stats_only_emits (a : Args F) iter_id st :
  run_rel only_emits (report_stats a iter_id st).
Proof. unfold report_stats. repeat first [apply rel_add_scalar | rel_step]. Qed.

Lemma backward_Ok o d gt_rows s s' :
  backward o d gt_rows s = (Ok tt, s') →
  ∃ fresh g,
    mse_gradient (grid_opt s) (grid_links s) (grid_data s) o d gt_rows = Ok fresh
    ∧ accumulated (grid_grad s) fresh g
    ∧ s' = set_grid_grad (Some g) s.
Proof.
  unfold backward. intros H. run_inv H.
  lazymatch goal with
  | Hg : mse_gradient _ _ _ _ _ _ = Ok ?fresh |- _ =>
      destruct (grid_grad s) as [g0|] eqn:Hold; run_inv H;
      [eexists fresh, _|exists fresh, fresh]; split_and!; try done
  end.
Qed.

(** C1.  A training iteration that completes has left the grid as the
    manual gradient-descent step prescribes.  [g] is the gradient that
    backpropagation of the batch loss stored in [grid.data.grad]; it has
    the shape of the coefficient array; every coefficient [d] of voxel [v]
    and channel [c] has become [d - x * lr], where [x] is the entry of [g]
    at [(v, c)] and [lr] is [lr_sigma] for channel 0 and [lr_sh] for the
    channels from 1 on; the stored gradient has been deleted; the links
    are untouched. *)
Theorem train_iter_sgd_update (a : Args F) st st' iter_id batch_begin s s' :
  train_iter a st (iter_id, batch_begin) s = (Ok st', s') →
  let batch_end := Z.min (batch_begin + batch_size a) (epoch_size s) in
  let batch t := py_slice batch_begin batch_end t in
  ∃ fresh g,
    mse_gradient (grid_opt s) (grid_links s) (grid_data s)
      (batch (origins (rays (dset s)))) (batch (dirs (rays (dset s))))
      (batch (gt (rays (dset s)))) = Ok fresh
    ∧ accumulated (grid_grad s) fresh g
    ∧ shape2 g = shape2 (grid_data s)
    ∧ shape2 (grid_data s') = shape2 (grid_data s)
    ∧ (∀ (v c : nat) (d x : F),
         at2 (grid_data s) v c = Some d → at2 g v c = Some x →
         at2 (grid_data s') v c = Some (fsub d (fmul x (channel_lr a c))))
    ∧ grid_grad s' = None
    ∧ grid_links s' = grid_links s.
Proof.
  intros H. cbv zeta. unfold train_iter in H. run_inv H.
  repeat match goal with u : unit |- _ => destruct u end.
  lazymatch goal with
  | Hr : report_stats _ _ ?st0 s = (_, ?s1), Hb : backward _ _ _ ?s1 = (_, ?s2),
    Hs : sgd_step _ ?s2 = (_, ?s3) |- _ =>
      pose proof (report_stats_only_emits a iter_id st0 s) as [new Hnew];
      rewrite Hr in Hnew; simpl in Hnew; subst s1;
      apply backward_Ok in Hb as (fresh & g & Hfresh & Hacc & ->);
      apply sgd_step_Ok in Hs as (g' & Hg' & Hshape & Hzip & Hs3)
  end.
  simpl in *. injection Hg' as <-.
  exists fresh, g. split_and!; try done.
  - by apply shape2_tensor_zip in Hzip as [-> _].
  - intros v c d x Hd Hx.
    eapply at2_tensor_zip; [exact Hzip|exact Hd|].
    rewrite at2_scaled, Hx. by destruct c.
  - by rewrite Hs3.
  - by rewrite Hs3.
Qed.
End TrainIter.

Lemma train_iter_sgd_update_witness :
  train_iter toy_args zero_stats (0, 0) toy_state0 = (Ok toy_stats_iter, toy_state_iter)
  ∧ grid_data toy_state0 = [[1; 0; 0; 0]; [1; 0; 0; 0]]
  ∧ grid_data toy_state_iter = [[-19; -2; -2; -2]; [-19; -2; -2; -2]]
  ∧ grid_grad toy_state_iter = None.
Proof.
  assert (train_iter toy_args zero_stats (0, 0) toy_state0
          = (Ok toy_stats_iter, toy_state_iter)) as Hrun by (vm_compute; reflexivity).
  destruct (train_iter_sgd_update toy_args zero_stats toy_stats_iter 0 0
              toy_state0 toy_state_iter Hrun)
    as (fresh & g & _ & _ & _ & _ & _ & Hgrad & _).
  split; [exact Hrun|]. split; [reflexivity|]. split; [reflexivity|exact Hgrad].
Defined.

(** ** Failures of the loader *)


Lemma is_raise_bind {A B} (r : result A) (f : A → result B) :
  is_raise r → is_raise (r ≫= f).
Proof. by destruct r. Qed.

Lemma is_raise_bind_all {A B} (r : result A) (f : A → result B) :
  (∀ a, is_raise (f a)) → is_raise (r ≫= f).
Proof. intros Hf. destruct r; simpl; [apply Hf|done]. Qed.

Lemma is_raise_exists {A} (r : result A) : is_raise r → ∃ e, r = Raise e.
Proof. destruct r as [|e]; [done|]. by exists e. Qed.

(** A loop raises if the body raises on one of the items, whatever the
    accumulator is by then. *)
Lemma foldR_raise {A B} (f : B → A → result B) (l : list A) (x : A) (b : B) :
  x ∈ l → (∀ b, is_raise (f b x)) → is_raise (foldR f b l).
Proof.
  intros Hx Hf. revert b. induction l as [|a l IH]; intros b; [by apply elem_of_nil in Hx|].
  simpl. apply elem_of_cons in Hx as [<-|Hx].
  - apply is_raise_bind, Hf.
  - apply is_raise_bind_all. intros b'. by apply IH.
Qed.

Section LoaderErrors.
Context {F : Type} {SF : Scalar F} {EF : Extern F}.

Lemma load_frame_raise_field files data_path acc (frame : json F) :
  is_raise (json_get frame "file_path")
  ∨ is_raise (json_get frame "transform_matrix") →
  is_raise (load_frame files data_path acc frame).
Proof.
  intros [H|H]; unfold load_frame.
  - by apply is_raise_bind, is_raise_bind.
  - apply is_raise_bind_all. intros fp. by apply is_raise_bind, is_raise_bind.
Qed.

Lemma load_frame_raise_image files data_path acc (frame : json F) fp :
  json_get frame "file_path" = Ok (JStr fp) →
  files !! path_join data_path (basename fp +:+ ".png") = None →
  is_raise (load_frame files data_path acc frame).
Proof.
  intros Hfp Hfile. unfold load_frame. rewrite Hfp. simpl.
  apply is_raise_bind_all. intros c2w.
  apply is_raise_bind. unfold imread. by rewrite Hfile.
Qed.

Lemma Dataset_init_raise files root split scale :
  dataset_defect files root split →
  is_raise (Dataset_init files root split scale).
Proof.
  unfold Dataset_init.
  intros [Hm|text Hm Hd|text j frames frame Hm Hd Hfr Hin Hbad
          |text j frames frame fp Hm Hd Hfr Hin Hfp Hfile];
    unfold manifest_path in Hm; rewrite Hm; simpl; [done|by rewrite Hd|..];
    rewrite Hd; simpl; rewrite Hfr; simpl; apply is_raise_bind.
  - apply (foldR_raise _ _ frame); [done|]. intros acc.
    by apply load_frame_raise_field.
  - apply (foldR_raise _ _ frame); [done|]. intros acc.
    by apply (load_frame_raise_image _ _ _ _ fp).
Qed.

(** C5.  If the training or the test split of the dataset directory has
    one of the listed defects (manifest missing, manifest not valid JSON,
    a frame without its [file_path] or [transform_matrix], a frame whose
    image file is missing), the loader of that split raises, and the run
    ends with an exception, before any summary is emitted or any
    checkpoint written: the exception of lines 42-43 if the output
    directory or the summary writer cannot be set up, and otherwise the
    one raised by a loader (that of the training split, or, that one
    having succeeded, that of the test split).  Nothing catches it. *)
Theorem dataset_defect_terminates (a : Args F) files disk0 :
  dataset_defect files (data_dir a) "train"
  ∨ dataset_defect files (data_dir a) "test" →
  let scale := fdiv (of_Z 1) (fdiv (of_Z 3) (of_Z 2)) in
  (dataset_defect files (data_dir a) "train" →
   is_raise (Dataset_init files (data_dir a) "train" scale))
  ∧ (dataset_defect files (data_dir a) "test" →
     is_raise (Dataset_init files (data_dir a) "test" scale))
  ∧ ∃ e,
      main a files disk0 = (Raise e, [], disk0)
      ∧ (startup a = Raise e
         ∨ startup a = Ok tt
           ∧ (Dataset_init files (data_dir a) "train" scale = Raise e
              ∨ ∃ train, Dataset_init files (data_dir a) "train" scale = Ok train
                  ∧ Dataset_init files (data_dir a) "test" scale = Raise e)).
Proof.
  intros Hdefect scale.
  split; [apply Dataset_init_raise|]. split; [apply Dataset_init_raise|].
  unfold main. destruct (startup a) as [[]|e0]; [|exists e0; split; [done|by left]].
  simpl. unfold setup. fold scale.
  destruct (Dataset_init files (data_dir a) "train" scale) as [train|e] eqn:Htrain.
  - destruct Hdefect as [Hd|Hd].
    { pose proof (Dataset_init_raise _ _ _ scale Hd) as Hr. by rewrite Htrain in Hr. }
    destruct (is_raise_exists _ (Dataset_init_raise _ _ _ scale Hd)) as [e He].
    exists e. simpl. rewrite He. simpl. split; [done|]. right. split; [done|].
    right. by exists train.
  - exists e. simpl. split; [done|]. right. split; [done|]. by left.
Qed.
End LoaderErrors.

Lemma dataset_defect_terminates_witness :
  ∃ e, main toy_args (delete "data/test/r_3.png" toy_files) ∅ = (Raise e, [], ∅).
Proof.
  destruct (dataset_defect_terminates toy_args (delete "data/test/r_3.png" toy_files) ∅)
    as (_ & _ & e & He & _).
  - right.
    apply (image_missing _ _ _ "xxxxx" (toy_manifest "xxxxx")
             (toy_frame <$> seq 0 5) (toy_frame 3) "./train/r_3");
      [reflexivity|reflexivity|reflexivity| |reflexivity|reflexivity].
    apply list_elem_of_fmap. exists 3%nat. split; [done|].
    apply elem_of_seq. lia.
  - by exists e.
Defined.

(** ** The statistics *)

Section StatsSpec.
Context {F : Type} {SF : Scalar F}.

Lemma sums_zero : sums {| mse := of_Z 0; psnr := of_Z 0 |} [].
Proof. done. Qed.

Lemma sums_snoc st items m p :
  sums st items →
  sums {| mse := fadd (mse st) m; psnr := fadd (psnr st) p |} (items ++ [(m, p)]).
Proof.
  intros [Hm Hp]. unfold sums. simpl.
  by rewrite !fmap_app, !foldl_app, <- Hm, <- Hp.
Qed.
End StatsSpec.

Section EvalStats.
Context {F : Type} {SF : Scalar F} {EF : Extern F}.


Lemma eval_image_Ok (a : Args F) g acc img_id s acc' s' :
  eval_image a (h (dset_test s) * w (dset_test s)) g acc img_id s = (Ok acc', s') →
  ∃ m p images,
    image_mse a s img_id = Ok m ∧ psnr_of_mse m = Ok p
    ∧ acc' = (add_stats acc.1 m p, acc.2 + 1)
    ∧ s' = set_summary (summary s ++ images) s
    ∧ Forall is_image images.
Proof.
  unfold eval_image, image_mse. intros H.
  apply run_bind_Ok in H as (s0 & s1 & [-> ->]%run_get_Ok & H).
  apply run_bind_Ok in H as (rendered & s1 & [Hr ->]%run_lift_Ok & H).
  rewrite Hr. simpl. destruct rendered as [all_rgbs all_mses].
  apply run_bind_Ok in H as ([] & s1 & Himg & H).
  assert (∃ images, s1 = set_summary (summary s ++ images) s ∧ Forall is_image images)
    as (images & -> & Himages).
  { case_decide.
    - apply run_ret_Ok in Himg as [_ ->]. exists []. rewrite app_nil_r.
      split; [by destruct s|constructor].
    - unfold add_image in Himg. run_inv Himg. eexists [_]. split; [done|].
      by repeat constructor. }
  run_inv H. simpl.
  lazymatch goal with
  | Hm : _ <$> torch_cat _ all_mses = Ok ?m, Hp : psnr_of_mse ?m = Ok ?p |- _ =>
      exists m, p, images; rewrite Hm
  end.
  done.
Qed.

Lemma eval_images_Ok (a : Args F) g (img_ids : list Z) stats n s stats' n' s' items0 :
  foldM (eval_image a (h (dset_test s) * w (dset_test s)) g) (stats, n) img_ids s
  = (Ok (stats', n'), s') →
  sums stats items0 → psnr_pairs items0 →
  ∃ items images,
    Forall2 (λ id mp, image_mse a s id = Ok mp.1) img_ids items
    ∧ psnr_pairs (items0 ++ items) ∧ sums stats' (items0 ++ items)
    ∧ n' = n + Z.of_nat (length items)
    ∧ s' = set_summary (summary s ++ images) s
    ∧ Forall is_image images.
Proof.
  revert stats n s items0. induction img_ids as [|id ids IH]; intros stats n s items0.
  - intros [[= -> ->] ->]%run_ret_Ok Hsums Hpairs. exists [], [].
    rewrite !app_nil_r.
    split_and!; [constructor|done|done|simpl; lia|by destruct s|constructor].
  - change (foldM ?f ?b (id :: ids)) with (f b id ≫= λ b', foldM f b' ids).
    intros (acc1 & s1 & H1 & H2)%run_bind_Ok Hsums Hpairs.
    apply eval_image_Ok in H1 as (m & p & images1 & Hm & Hp & -> & -> & Himg1).
    simpl in H2.
    apply (IH _ _ (set_summary (summary s ++ images1) s) (items0 ++ [(m, p)])) in H2
      as (items & images2 & Hitems & Hpairs' & Hsums' & -> & -> & Himg2).
    + exists ((m, p) :: items), (images1 ++ images2).
      rewrite <- app_assoc in Hpairs', Hsums'. simpl in *.
      split_and!; try done.
      * by constructor.
      * lia.
      * by rewrite app_assoc.
      * by apply Forall_app.
    + by apply sums_snoc.
    + apply Forall_app. split; [done|]. by repeat constructor.
Qed.

Lemma eval_step_reports (a : Args F) s s' :
  eval_step a s = (Ok tt, s') →
  ∃ img_ids items images new,
    py_range 0 (n_images (dset_test s)) (n_images (dset_test s) `div` 5) = Ok img_ids
    ∧ Forall2 (λ id mp, image_mse a s id = Ok mp.1) img_ids items
    ∧ psnr_pairs items
    ∧ Forall is_image images
    ∧ summary s' = summary s ++ images ++ new
    ∧ labelled <$> new = eval_report (epoch_id s) items.
Proof.
  unfold eval_step. intros H.
  apply run_bind_Ok in H as (s0 & s1 & [-> ->]%run_get_Ok & H).
  apply run_bind_Ok in H as (interval & s1 & [Hi ->]%run_lift_Ok & H).
  injection Hi as <-.
  apply run_bind_Ok in H as (img_ids & s1 & [Hids ->]%run_lift_Ok & H).
  apply run_bind_Ok in H as ([stats' n'] & s1 & Hfold & H).
  apply (eval_images_Ok a _ _ _ _ _ _ _ _ []) in Hfold
    as (items & images & Hitems & Hpairs & Hsums & Hn & -> & Himages);
    [|apply sums_zero|constructor].
  simpl in Hn, Hpairs, Hsums. subst n'. destruct Hsums as [Hmse Hpsnr].
  unfold add_scalar in H. run_inv H. unfold py_truediv in *.
  case_decide; [done|].
  repeat match goal with Hd : Ok _ = Ok _ |- _ => injection Hd as <- end.
  eexists img_ids, items, images, _. simpl.
  split_and!; try done.
  - by rewrite <- !app_assoc.
  - unfold eval_report, mean_of. simpl. by rewrite Hmse, Hpsnr.
Qed.
End EvalStats.

Section TrainStats.
Context {F : Type} {SF : Scalar F} {EF : Extern F}.

Lemma report_stats_Ok (a : Args F) iter_id st s st' s' :
  report_stats a iter_id st s = (Ok st', s') →
  print_every a ≠ 0
  ∧ ((iter_id + 1) `mod` print_every a ≠ 0 ∧ st' = st ∧ s' = s
     ∨ (iter_id + 1) `mod` print_every a = 0 ∧ st' = zero_stats
       ∧ ∃ new, s' = set_summary (summary s ++ new) s
           ∧ labelled <$> new
             = [("mse", ScalarValue (fdiv (mse st) (of_Z (print_every a))));
                ("psnr", ScalarValue (fdiv (psnr st) (of_Z (print_every a))))]).
Proof.
  unfold report_stats. intros H.
  apply run_bind_Ok in H as (r & s1 & [Hr ->]%run_lift_Ok & H).
  unfold py_mod in Hr.
  destruct (decide (print_every a = 0)) as [|Hpe]; [done|]. injection Hr as <-.
  split; [done|]. destruct (decide (_ = 0)) as [Hz|Hz].
  - right. unfold add_scalar, py_truediv in H. rewrite !decide_False in H by done.
    run_inv H.
    repeat match goal with Hd : Ok _ = Ok _ |- _ => injection Hd as <- end.
    split; [done|]. split; [done|]. eexists [_; _]. simpl.
    split; [by rewrite <- app_assoc|done].
  - left. by apply run_ret_Ok in H as [-> ->].
Qed.

Lemma train_iter_Ok (a : Args F) st iter_id b s st' s' :
  train_iter a st (iter_id, b) s = (Ok st', s') →
  ∃ m p s1,
    psnr_of_mse m = Ok p
    ∧ report_stats a iter_id (add_stats st m p) s = (Ok st', s1)
    ∧ summary s' = summary s1.
Proof.
  unfold train_iter. intros H.
  apply run_bind_Ok in H as (s0 & s1 & [-> ->]%run_get_Ok & H).
  apply run_bind_Ok in H as (pred & s1 & [_ ->]%run_lift_Ok & H).
  apply run_bind_Ok in H as (m & s1 & [_ ->]%run_lift_Ok & H).
  apply run_bind_Ok in H as (p & s1 & [Hp ->]%run_lift_Ok & H).
  apply run_bind_Ok in H as (st1 & s1 & Hrep & H).
  apply run_bind_Ok in H as ([] & s2 & Hback & H).
  apply run_bind_Ok in H as ([] & s3 & Hsgd & H).
  apply run_ret_Ok in H as [-> ->].
  exists m, p, s1. split; [done|]. split; [done|].
  lazymatch type of Hback with
  | backward ?o ?d ?g s1 = _ =>
      pose proof (backward_silent o d g s1) as [_ Hs2]
  end.
  pose proof (sgd_step_silent a s2) as [_ Hs3].
  rewrite Hback in Hs2. rewrite Hsgd in Hs3. simpl in *. congruence.
Qed.

(** The loop over the batches, started at iteration [k] with the running
    sums of the items [cur] of a group not yet reported. *)
Lemma train_loop_reports (a : Args F) (l : list Z) (k : Z) st s st' s' cur :
  1 ≤ print_every a →
  foldM (train_iter a) st (zip (seqZ k (Z.of_nat (length l))) l) s = (Ok st', s') →
  sums st cur → psnr_pairs cur →
  Z.of_nat (length cur) = k `mod` print_every a →
  ∃ groups new,
    summary s' = summary s ++ new
    ∧ labelled <$> new = concat (train_report (print_every a) <$> groups)
    ∧ Forall (λ g, Z.of_nat (length g) = print_every a ∧ psnr_pairs g) groups.
Proof.
  intros Hpe. revert k st s cur. induction l as [|b l IH]; intros k st s cur.
  - intros [_ ->]%run_ret_Ok _ _ _. exists [], []. by rewrite app_nil_r.
  - rewrite seqZ_cons by (simpl; lia).
    replace (Z.pred (Z.of_nat (length (b :: l)))) with (Z.of_nat (length l))
      by (simpl; lia).
    change (foldM ?f st (zip (k :: ?ks) (b :: l)))
      with (f st (k, b) ≫= λ st', foldM f st' (zip ks l)).
    intros (st1 & s1 & Hiter & Hrest)%run_bind_Ok Hsums Hpairs Hlen.
    apply train_iter_Ok in Hiter as (m & p & s0 & Hp & Hrep & Hsum1).
    apply report_stats_Ok in Hrep as [_ Hrep].
    assert (psnr_pairs (cur ++ [(m, p)])) as Hpairs1.
    { apply Forall_app. split; [done|]. by repeat constructor. }
    pose proof (sums_snoc st cur m p Hsums) as Hsums1.
    pose proof (Z.mod_pos_bound k (print_every a) ltac:(lia)) as Hk.
    assert ((Z.succ k) `mod` print_every a
            = (k `mod` print_every a + 1) `mod` print_every a) as Hsucc.
    { replace (Z.succ k) with (k + 1) by lia.
      by rewrite <- Zplus_mod_idemp_l. }
    replace (k + 1) with (Z.succ k) in Hrep by lia. rewrite Hsucc in Hrep.
    destruct Hrep as [(Hmod & -> & ->)|(Hmod & -> & new1 & -> & Hnew1)].
    + apply (IH _ _ _ (cur ++ [(m, p)])) in Hrest as (groups & new & Hnew & Hlab & Hall);
        [|done|done|].
      * exists groups, new. split_and!; [congruence|done|done].
      * rewrite length_app, Hsucc. simpl.
        destruct (decide (k `mod` print_every a + 1 < print_every a)) as [Hlt|Hge].
        { rewrite Z.mod_small; lia. }
        assert (k `mod` print_every a + 1 = print_every a) as Heq by lia.
        rewrite Heq, Z_mod_same_full in Hmod. done.
    + assert (k `mod` print_every a + 1 = print_every a) as Heq.
      { destruct (decide (k `mod` print_every a + 1 < print_every a)) as [Hlt|Hge]; [|lia].
        rewrite Z.mod_small in Hmod; lia. }
      apply (IH _ _ _ []) in Hrest as (groups & new & Hnew & Hlab & Hall);
        [|apply sums_zero|constructor|].
      * exists ((cur ++ [(m, p)]) :: groups), (new1 ++ new).
        split_and!.
        -- rewrite Hnew, Hsum1. simpl. by rewrite app_assoc.
        -- rewrite fmap_app, Hnew1, Hlab. simpl.
           unfold train_report, mean_of. destruct Hsums1 as [<- <-]. done.
        -- constructor; [|done]. split; [|done]. rewrite length_app. simpl. lia.
      * rewrite Hsucc, Heq, Z_mod_same_full. done.
Qed.

Lemma train_step_reports (a : Args F) s s' :
  1 ≤ print_every a →
  train_step a s = (Ok tt, s') →
  ∃ groups new,
    summary s' = summary s ++ new
    ∧ labelled <$> new = concat (train_report (print_every a) <$> groups)
    ∧ Forall (λ g, Z.of_nat (length g) = print_every a ∧ psnr_pairs g) groups.
Proof.
  intros Hpe. unfold train_step. intros H.
  apply run_bind_Ok in H as (s0 & s1 & [-> ->]%run_get_Ok & H).
  apply run_bind_Ok in H as (begins & s1 & [_ ->]%run_lift_Ok & H).
  apply run_bind_Ok in H as ([] & s1 & Hshuffle & H).
  apply run_bind_Ok in H as (st' & s2 & Hloop & H).
  apply run_ret_Ok in H as [_ ->].
  pose proof (shuffle_dset_silent s) as [_ Hs1]. rewrite Hshuffle in Hs1. simpl in Hs1.
  rewrite enumerate_zip in Hloop.
  apply (train_loop_reports a _ _ _ _ _ _ [] Hpe) in Hloop
    as (groups & new & Hnew & Hlab & Hall); [|apply sums_zero|constructor|done].
  exists groups, new. split_and!; [congruence|done|done].
Qed.
End TrainStats.


Lemma R_mean_3 (x : R) : R_mean [x; x; x] = x.
Proof. unfold R_mean. simpl. field. Qed.

Lemma R_log10_pos (x : R) : (0 < x)%R → R_log10 x = Ok (ln x / ln 10)%R.
Proof. intros Hx. unfold R_log10. destruct (Rle_dec x 0); [lra|done]. Qed.


Ltac real_eval :=
  lazy -[Rplus Rminus Rmult Rdiv Rinv Ropp IZR INR ln R_log10 R_mean Rle_dec format_04d].

Lemma ln_10_pos : (0 < ln 10)%R.
Proof. rewrite <- ln_1. apply ln_increasing; lra. Qed.

Lemma R_log10_black_on_white : R_log10 (R_mean [(1 - 0) * (1 - 0); (1 - 0) * (1 - 0); (1 - 0) * (1 - 0)])%R = Ok 0%R.
Proof.
  rewrite R_mean_3. rewrite R_log10_pos by lra.
  replace ((1 - 0) * (1 - 0))%R with 1%R by lra. rewrite ln_1. f_equal. field.
  pose proof ln_10_pos. lra.
Qed.

Lemma R_log10_near_white :
  R_log10 (R_mean [(1 - (1 - / 100000)) * (1 - (1 - / 100000));
                   (1 - (1 - / 100000)) * (1 - (1 - / 100000));
                   (1 - (1 - / 100000)) * (1 - (1 - / 100000))])%R = Ok (-10)%R.
Proof.
  rewrite R_mean_3.
  replace ((1 - (1 - / 100000)) * (1 - (1 - / 100000)))%R
    with (/ 100000 * / 100000)%R by lra.
  rewrite R_log10_pos by lra. f_equal.
  rewrite ln_mult, ln_Rinv by lra.
  replace 100000%R with (10 ^ 5)%R by (simpl; lra).
  rewrite ln_pow by lra. simpl INR. field.
  pose proof ln_10_pos. lra.
Qed.


Lemma real_image_black (i : Z) st n l :
  i ∈ [0; 1; 2; 3] →
  eval_image real_args 1 0 (st, n) i (set_summary l real_state)
  = (Ok (add_stats st black_se (-10 * 0)%R, n + 1),
     set_summary (l ++ [ {| tag := "test/image_" +:+ format_04d i;
                            value := ImageHWC [[[0; 0; 0]]]%R; global_step := 0 |} ])
       real_state).
Proof.
  intros Hi. repeat (apply elem_of_cons in Hi as [->|Hi]); [..|by apply elem_of_nil in Hi].
  all: real_eval; rewrite R_log10_black_on_white; reflexivity.
Qed.

Lemma real_image_near_white st n l :
  eval_image real_args 1 0 (st, n) 4 (set_summary l real_state)
  = (Ok (add_stats st near_white_se (-10 * -10)%R, n + 1),
     set_summary (l ++ [ {| tag := "test/image_" +:+ format_04d 4;
                            value := ImageHWC [[[1 - / 100000; 1 - / 100000; 1 - / 100000]]]%R;
                            global_step := 0 |} ])
       real_state).
Proof. real_eval. rewrite R_log10_near_white. reflexivity. Qed.

Lemma foldM_cons_run {F} `{Scalar F} `{Extern F} {A B} (f : B → A → M B) b a l s b' s' :
  f b a s = (Ok b', s') → foldM f b (a :: l) s = foldM f b' l s'.
Proof.
  intros Hf. change (foldM f b (a :: l)) with (f b a ≫= λ b', foldM f b' l).
  by rewrite run_bind, Hf.
Qed.

(** What [eval_step] reports on [real_state]: a mean PSNR of 20 next to a
    mean MSE of slightly more than 4/5. *)
Lemma real_eval_reports :
  ∃ images,
    summary (eval_step real_args real_state).2
    = images
      ++ [ {| tag := "test/psnr";
              value := ScalarValue
                ((0 + -10 * 0 + -10 * 0 + -10 * 0 + -10 * 0 + -10 * -10) / 5)%R;
              global_step := 0 |};
           {| tag := "test/mse";
              value := ScalarValue
                ((0 + black_se + black_se + black_se + black_se + near_white_se) / 5)%R;
              global_step := 0 |};
           {| tag := "epoch_id"; value := ScalarValue 0%R; global_step := 0 |} ]
    ∧ Forall is_image images.
Proof.
  eexists [_; _; _; _; _].
  unfold eval_step. rewrite run_get_bind, run_lift_bind.
  change (py_floordiv (n_images (dset_test real_state)) 5) with (Ok 1 : result Z).
  cbv iota. rewrite run_lift_bind.
  change (py_range 0 (n_images (dset_test real_state)) 1) with (Ok [0; 1; 2; 3; 4] : result (list Z)).
  cbv iota. rewrite run_bind.
  change (h (dset_test real_state) * w (dset_test real_state)) with 1.
  change (epoch_id real_state * batches_per_epoch real_state) with 0.
  assert (real_state = set_summary [] real_state) as Hs by reflexivity.
  rewrite Hs at 1.
  erewrite foldM_cons_run by (apply real_image_black; set_solver).
  erewrite foldM_cons_run by (apply real_image_black; set_solver).
  erewrite foldM_cons_run by (apply real_image_black; set_solver).
  erewrite foldM_cons_run by (apply real_image_black; set_solver).
  erewrite foldM_cons_run by (apply real_image_near_white).
  real_eval. split; [reflexivity|]. repeat constructor.
Qed.

Section Reports.
Context {F : Type} {SF : Scalar F} {EF : Extern F}.

End Reports.

Lemma scalars_tagged_images {F} (t : string) (images : list (Emission F)) :
  Forall is_image images → scalars_tagged t images = [].
Proof.
  unfold scalars_tagged, is_image. induction 1 as [|e l He _ IH]; [done|].
  simpl. destruct (value e); [done|]. exact IH.
Qed.

(** C6 as written fails: on [real_state] the evaluation reports a mean
    PSNR of 20, whereas [-10 * log10] of the mean MSE it reports, a little
    over 4/5, is less than 1. *)
Lemma reported_psnr_not_formula :
  ¬ psnr_formula_on_reports "test/mse" "test/psnr"
      (summary (eval_step real_args real_state).2).
Proof.
  destruct real_eval_reports as (images & -> & Himages).
  unfold psnr_formula_on_reports, scalars_tagged.
  rewrite !omap_app. fold (scalars_tagged "test/mse" images).
  fold (scalars_tagged "test/psnr" images).
  rewrite !scalars_tagged_images by done. simpl.
  intros [Hpsnr _]%Forall2_cons. revert Hpsnr.
  assert (black_se = 1%R) as -> by (unfold black_se; rewrite R_mean_3; lra).
  assert (near_white_se = (/ 100000 * / 100000)%R) as ->
    by (unfold near_white_se; rewrite R_mean_3; lra).
  unfold psnr_of_mse. simpl. rewrite R_log10_pos by lra. simpl.
  intros [= Heq].
  pose proof ln_10_pos as H10.
  assert (ln ((0 + 1 + 1 + 1 + 1 + / 100000 * / 100000) / 5) = - (2 * ln 10))%R as Hln.
  { apply (Rmult_eq_reg_l (-10 / ln 10)); [|apply Rmult_integral_contrapositive; split;
      [lra|apply Rinv_neq_0_compat; lra]].
    transitivity ((0 + -10 * 0 + -10 * 0 + -10 * 0 + -10 * 0 + -10 * -10) / 5)%R.
    - rewrite <- Heq. field. lra.
    - field. lra. }
  assert (ln (/ 100) = - (2 * ln 10))%R as H100.
  { rewrite ln_Rinv by lra. replace 100%R with (10 * 10)%R by lra.
    rewrite ln_mult by lra. lra. }
  rewrite <- H100 in Hln. apply ln_inv in Hln; lra.
Qed.

(** * Further properties *)

(** ** The module level *)

(** ** Module level: the grid's initial values and the epoch geometry *)

Section ModuleLevel.
Context {F : Type} {SF : Scalar F} {EF : Extern F}.

Lemma at2_filled (sigma rgb : F) (t : tensor2 F) (v c : nat) :
  at2 (fill_upto 1 sigma (fill_from 1 rgb t)) v c
  = (λ _, match c with O => sigma | S _ => rgb end) <$> at2 t v c.
Proof.
  unfold at2, fill_upto, fill_from.
  rewrite <- list_fmap_compose, list_lookup_fmap.
  destruct (t !! v) as [row|]; simpl; [|done].
  destruct row as [|x row]; [by destruct c|].
  simpl. rewrite ?take_0, ?drop_0. simpl.
  destruct c as [|c]; simpl; [done|]. by rewrite list_lookup_fmap.
Qed.

Lemma shape2_filled (sigma rgb : F) (t : tensor2 F) :
  shape2 (fill_upto 1 sigma (fill_from 1 rgb t)) = shape2 t.
Proof.
  unfold shape2, fill_upto, fill_from. rewrite <- !list_fmap_compose.
  apply list_fmap_ext. intros _ row _. simpl.
  destruct row as [|x row]; [done|]. simpl.
  by rewrite ?take_0, ?drop_0, ?length_app, ?length_fmap.
Qed.

Lemma setup_inv (a : Args F) files disk0 s0 :
  setup a files disk0 = Ok s0 →
  ∃ train test q,
    Dataset_init files (data_dir a) "train" default_scene_scale = Ok train
    ∧ Dataset_init files (data_dir a) "test" default_scene_scale = Ok test
    ∧ py_floordiv (Z.of_nat (length (origins (rays train))) - 1) (batch_size a) = Ok q
    ∧ dset s0 = train ∧ dset_test s0 = test
    ∧ (∃ links data, sparse_grid (reso a) (sh_dim a) = Ok (links, data)
         ∧ grid_links s0 = links
         ∧ grid_data s0 = fill_upto 1 (init_sigma a) (fill_from 1 (init_rgb a) data))
    ∧ epoch_size s0 = Z.of_nat (length (origins (rays train)))
    ∧ batches_per_epoch s0 = q + 1.
Proof.
  unfold setup. fold (default_scene_scale (F := F)).
  intros (train & Htrain & (test & Htest & H)%bind_Ok)%bind_Ok.
  apply bind_Ok in H as ([links data] & Hgrid & H).
  apply bind_Ok in H as (q & Hq & [= <-]).
  exists train, test, q. split_and!; try done. by exists links, data.
Qed.

(** X1.  When the module level completes, the grid holds the links and the
    array shape [svox2.SparseGrid] built, with every coefficient
    overwritten: [init_sigma] in channel 0 and [init_rgb] in all other
    channels; there is no stored gradient. *)
Theorem setup_grid_initial_values (a : Args F) files disk0 s0 :
  setup a files disk0 = Ok s0 →
  ∃ links data,
    sparse_grid (reso a) (sh_dim a) = Ok (links, data)
    ∧ grid_links s0 = links
    ∧ shape2 (grid_data s0) = shape2 data
    ∧ (∀ (v c : nat) (x : F), at2 (grid_data s0) v c = Some x → x = channel_init a c)
    ∧ (∀ (v c : nat), is_Some (at2 data v c) →
         at2 (grid_data s0) v c = Some (channel_init a c))
    ∧ grid_grad s0 = None.
Proof.
  intros Hs. pose proof (setup_Ok a files disk0 s0 Hs) as (_ & _ & Hgrad & _).
  apply setup_inv in Hs
    as (train & test & q & _ & _ & _ & _ & _ & (links & data & Hgrid & Hl & Hd) & _).
  exists links, data.
  rewrite Hd. split_and!; [done|done|apply shape2_filled| | |done].
  - intros v c x. rewrite at2_filled.
    destruct (at2 _ v c); simpl; [|done]. intros [= <-]. by destruct c.
  - intros v c [x Hx]. rewrite at2_filled, Hx. simpl. by destruct c.
Qed.

(** X2.  With [--batch_size 0], when the output directory and the
    summary writer could be set up, both splits of the dataset load and
    [svox2.SparseGrid] returns a grid, the run ends with
    [ZeroDivisionError] at the computation of [batches_per_epoch], before
    the first epoch: no summary has been emitted and no checkpoint
    written. *)
Theorem zero_batch_size_terminates (a : Args F) files disk0 train test grid :
  batch_size a = 0 →
  startup a = Ok tt →
  Dataset_init files (data_dir a) "train" default_scene_scale = Ok train →
  Dataset_init files (data_dir a) "test" default_scene_scale = Ok test →
  sparse_grid (reso a) (sh_dim a) = Ok grid →
  main a files disk0 = (Raise ZeroDivisionError, [], disk0).
Proof.
  intros Hbs Hstart Htrain Htest Hgrid. unfold main, setup.
  fold (default_scene_scale (F := F)).
  rewrite Hstart, Htrain, Htest, Hgrid. simpl.
  destruct grid as [links data].
  unfold py_floordiv. by rewrite decide_True.
Qed.

(** X3.  When the module level completes with [batch_size >= 1],
    [epoch_size] is the number of training rays, [batches_per_epoch] is its
    quotient by [batch_size] rounded up, and it is exactly the number of
    iterations the loop of [train_step] performs. *)
Theorem setup_epoch_geometry (a : Args F) files disk0 s0 :
  1 ≤ batch_size a →
  setup a files disk0 = Ok s0 →
  let B := batches_per_epoch s0 in
  epoch_size s0 = Z.of_nat (length (origins (rays (dset s0))))
  ∧ (B - 1) * batch_size a < epoch_size s0 ≤ B * batch_size a
  ∧ ∃ begins, py_range 0 (epoch_size s0) (batch_size a) = Ok begins
      ∧ Z.of_nat (length begins) = B.
Proof.
  intros Hbs Hs B.
  apply setup_inv in Hs as (train & test & q & _ & _ & Hq & Hd & _ & _ & Hes & Hb).
  unfold py_floordiv in Hq. rewrite decide_False in Hq by lia. injection Hq as <-.
  subst B. rewrite Hb, Hes, Hd.
  set (es := Z.of_nat (length (origins (rays train)))).
  assert (0 ≤ es) as Hpos by lia.
  pose proof (Z.div_mod (es - 1) (batch_size a) ltac:(lia)) as Hdm.
  pose proof (Z.mod_pos_bound (es - 1) (batch_size a) ltac:(lia)) as Hmod.
  split; [done|]. split; [nia|].
  rewrite py_range_up by lia. eexists. split; [done|].
  rewrite length_fmap, length_seqZ.
  pose proof (range_count_nonneg 0 es (batch_size a) ltac:(lia)).
  rewrite Z2Nat.id by done. unfold range_count. case_decide.
  - by replace (es - 0 - 1) with (es - 1) by lia.
  - assert (es = 0) as -> by lia. change (0 - 1) with (-1).
    assert ((-1) `div` batch_size a = -1) as ->; [|lia].
    symmetry. apply (Z.div_unique_pos _ _ _ (batch_size a - 1)); lia.
Qed.
End ModuleLevel.

Lemma setup_toy : setup toy_args toy_files ∅ = Ok toy_state0.
Proof. vm_compute. reflexivity. Qed.

Lemma setup_grid_initial_values_witness :
  at2 (grid_data toy_state0) 1 0 = Some 1 ∧ at2 (grid_data toy_state0) 1 3 = Some 0.
Proof.
  destruct (setup_grid_initial_values toy_args toy_files ∅ toy_state0 setup_toy)
    as (links & data & Hgrid & _ & _ & _ & Hfill & _).
  injection Hgrid as <- <-.
  split; [apply (Hfill 1%nat 0%nat)|apply (Hfill 1%nat 3%nat)]; vm_compute; eauto.
Defined.

Lemma zero_batch_size_terminates_witness :
  main (with_batch_size 0 toy_args) toy_files ∅ = (Raise ZeroDivisionError, [], ∅).
Proof.
  apply (zero_batch_size_terminates (with_batch_size 0 toy_args) toy_files ∅
           (dset toy_state0) (dset_test toy_state0)
           ([0; 1], replicate 2 (replicate 4 0))).
  - reflexivity.
  - reflexivity.
  - vm_compute. reflexivity.
  - vm_compute. reflexivity.
  - reflexivity.
Defined.

Lemma setup_epoch_geometry_witness :
  epoch_size toy_state0 = 16 ∧ batches_per_epoch toy_state0 = 4
  ∧ ∃ begins, py_range 0 16 5 = Ok begins ∧ Z.of_nat (length begins) = 4.
Proof.
  destruct (setup_epoch_geometry toy_args toy_files ∅ toy_state0
              ltac:(vm_compute; discriminate) setup_toy) as (_ & _ & Hb).
  split; [reflexivity|]. split; [reflexivity|]. exact Hb.
Defined.

(** ** Edge cases of the epoch loop and of the evaluation *)

(** ** The epoch loop and [eval_step]: edge cases *)

Section EvalEdges.
Context {F : Type} {SF : Scalar F} {EF : Extern F}.

Lemma py_range_empty start stop step :
  0 < step → stop ≤ start → py_range start stop step = Ok [].
Proof.
  intros Hs Hle. rewrite py_range_up by done.
  unfold range_count. by rewrite decide_False by lia.
Qed.

(** X4.  With [n_epochs <= 0] the epoch loop does nothing: no evaluation,
    no training, no checkpoint; the state is as the module level left it. *)
Theorem no_epochs_no_effect (a : Args F) (s : State) :
  n_epochs a ≤ 0 → epoch_loop a s = (Ok tt, s).
Proof.
  intros Hn. unfold epoch_loop. rewrite run_lift_bind.
  by rewrite py_range_empty by lia.
Qed.

Lemma eval_step_few_images (a : Args F) (s : State) :
  0 ≤ n_images (dset_test s) < 5 → eval_step a s = (Raise ValueError, s).
Proof.
  intros Hn. unfold eval_step. rewrite run_get_bind, run_lift_bind.
  unfold py_floordiv. rewrite decide_False by done.
  rewrite run_lift_bind, Z.div_small by done.
  unfold py_range. by rewrite decide_True.
Qed.

(** X5.  [eval_step] needs at least five test images: with fewer,
    [img_save_interval] is 0, [range] refuses it, and [eval_step] raises
    [ValueError] having changed nothing.  Since the first epoch starts with
    [eval_step], a run of at least one epoch then ends by that exception
    before any summary is emitted, any training done or any checkpoint
    written. *)
Theorem few_test_images_terminate (a : Args F) (s : State) :
  0 ≤ n_images (dset_test s) < 5 →
  eval_step a s = (Raise ValueError, s)
  ∧ (1 ≤ n_epochs a → epoch_loop a s = (Raise ValueError, set_epoch_id 0 s)).
Proof.
  intros Hn. split; [by apply eval_step_few_images|].
  intros He. unfold epoch_loop. rewrite run_lift_bind, py_range_up by lia.
  unfold range_count. rewrite decide_True by lia.
  rewrite seqZ_cons by (rewrite Z.div_1_r; lia). rewrite fmap_cons.
  unfold for_each.
  change (foldM ?f tt (?e :: ?es)) with (f tt e ≫= λ b, foldM f b es).
  rewrite run_bind. unfold epoch_body at 1. rewrite run_modify_bind, run_bind.
  by rewrite (eval_step_few_images a (set_epoch_id _ s)).
Qed.

(** The test images [eval_step] renders. *)
Lemma eval_image_ids (n : Z) :
  5 ≤ n →
  ∃ ids, py_range 0 n (n `div` 5) = Ok ids
    ∧ 5 ≤ Z.of_nat (length ids) ≤ 9
    ∧ ∀ (i : nat) id, ids !! i = Some id → id = Z.of_nat i * (n `div` 5) ∧ 0 ≤ id < n.
Proof.
  intros Hn.
  assert (1 ≤ n `div` 5) as Hk by (apply Z.div_le_lower_bound; lia).
  pose proof (Z.div_mod n 5 ltac:(lia)) as Hdm.
  pose proof (Z.mod_pos_bound n 5 ltac:(lia)) as Hmod.
  set (k := n `div` 5) in *.
  pose proof (py_range_up 0 n k ltac:(lia)) as Hr.
  assert (range_count 0 n k = (n - 1) `div` k + 1) as Hc.
  { unfold range_count. rewrite decide_True by lia. f_equal. f_equal. lia. }
  pose proof (Z.div_mod (n - 1) k ltac:(lia)) as Hdm'.
  pose proof (Z.mod_pos_bound (n - 1) k ltac:(lia)) as Hmod'.
  eexists. split; [exact Hr|]. rewrite Hc. split.
  - rewrite length_fmap, length_seqZ.
    assert (4 ≤ (n - 1) `div` k ≤ 8) by nia. lia.
  - intros i id. rewrite list_lookup_fmap, fmap_Some.
    intros (x & Hx & ->). apply lookup_seqZ in Hx as [-> Hx]. split; [lia|]. nia.
Qed.

Lemma scalars_tagged_labelled (t : string) (new : list (Emission F)) :
  scalars_tagged t new
  = omap (λ tv : string * payload F,
            match tv.2 with
            | ScalarValue v => if decide (tv.1 = t) then Some v else None
            | ImageHWC _ => None
            end) (labelled <$> new).
Proof.
  unfold scalars_tagged. induction new as [|e new IH]; [done|].
  rewrite fmap_cons. cbn [omap list_omap labelled fst snd]. by rewrite <- IH.
Qed.

(** X6.  A completed [eval_step] (on a test set of [n >= 0] images) has
    rendered the test images [0, k, 2k, ...] below [n], [k = n // 5]:
    between five and nine of them, not always the five that
    [N_IMGS_TO_SAVE] suggests; the [test/psnr] and [test/mse] it reports
    are the means of the PSNRs and of the mean squared errors of exactly
    those images, each PSNR being [-10 * log10] of the error of its
    image. *)
Theorem eval_step_image_selection (a : Args F) (s s' : State) :
  0 ≤ n_images (dset_test s) →
  eval_step a s = (Ok tt, s') →
  let n := n_images (dset_test s) in
  5 ≤ n
  ∧ ∃ (ids : list Z) (items : list (F * F)) images new,
      py_range 0 n (n `div` 5) = Ok ids
      ∧ 5 ≤ Z.of_nat (length ids) ≤ 9
      ∧ (∀ (i : nat) id, ids !! i = Some id →
           id = Z.of_nat i * (n `div` 5) ∧ 0 ≤ id < n)
      ∧ Forall2 (λ id mp, image_mse a s id = Ok mp.1) ids items
      ∧ psnr_pairs items
      ∧ Forall is_image images
      ∧ summary s' = summary s ++ images ++ new
      ∧ scalars_tagged "test/psnr" new = [mean_of items.*2 (Z.of_nat (length ids))]
      ∧ scalars_tagged "test/mse" new = [mean_of items.*1 (Z.of_nat (length ids))].
Proof.
  intros Hn0 Heval n.
  assert (5 ≤ n) as Hn.
  { destruct (decide (5 ≤ n)) as [|Hlt]; [done|].
    rewrite eval_step_few_images in Heval by (subst n; lia). done. }
  split; [done|].
  apply eval_step_reports in Heval
    as (ids & items & images & new & Hids & Hitems & Hpairs & Himages & Hsum & Hlab).
  destruct (eval_image_ids n Hn) as (ids' & Hids' & Hlen & Hlook).
  fold n in Hids. rewrite Hids in Hids'. injection Hids' as <-.
  exists ids, items, images, new.
  pose proof (Forall2_length _ _ _ Hitems) as Hl.
  split_and!; try done; try lia.
  - rewrite scalars_tagged_labelled, Hlab. unfold eval_report. by rewrite Hl.
  - rewrite scalars_tagged_labelled, Hlab. unfold eval_report. by rewrite Hl.
Qed.
End EvalEdges.

Lemma no_epochs_no_effect_witness :
  epoch_loop (with_n_epochs 0 toy_args) toy_state0 = (Ok tt, toy_state0).
Proof. apply no_epochs_no_effect. vm_compute. discriminate. Defined.

Lemma few_test_images_terminate_witness :
  n_images (dset_test small_state0) = 3
  ∧ eval_step toy_args small_state0 = (Raise ValueError, small_state0)
  ∧ epoch_loop toy_args small_state0 = (Raise ValueError, set_epoch_id 0 small_state0).
Proof.
  split; [reflexivity|].
  assert (1 ≤ n_epochs toy_args) as He by (vm_compute; discriminate).
  destruct (few_test_images_terminate toy_args small_state0
              ltac:(vm_compute; split; [discriminate|reflexivity])) as [H1 H2].
  split; [exact H1|exact (H2 He)].
Defined.

Lemma eval_step_image_selection_witness :
  ∃ ids, py_range 0 5 1 = Ok ids ∧ 5 ≤ Z.of_nat (length ids) ≤ 9.
Proof.
  assert (eval_step toy_args toy_state0 = (Ok tt, toy_state1)) as Heval
    by (vm_compute; reflexivity).
  destruct (eval_step_image_selection toy_args toy_state0 toy_state1
              ltac:(vm_compute; discriminate) Heval)
    as (_ & ids & items & images & new & Hids & Hlen & _).
  exists ids. split; [exact Hids|exact Hlen].
Defined.

(** ** Edge cases of the training pass *)

Section TrainEdges.
Context {F : Type} {SF : Scalar F} {EF : Extern F}.
Implicit Types (s : State).

#[global] Instance preserved_preorder {X} (f : State → X) : PreOrder (preserved f).
Proof.
  split; [by intros s|]. intros s1 s2 s3 H1 H2. unfold preserved in *. congruence.
Qed.

Lemma rel_modify_preserved {X} (f : State → X) (g : State → State) :
  (∀ s, f (g s) = f s) → run_rel (preserved f) (modify g).
Proof. intros Hg. apply rel_modify. intros s. apply Hg. Qed.

Ltac frame_step :=
  first [ rel_step
        | apply rel_modify_preserved; intros ?; reflexivity ].

Lemma shuffle_dset_view : run_rel (preserved training_view) shuffle_dset.
Proof. unfold shuffle_dset. repeat frame_step. Qed.

Lemma train_iter_zero_print (a : Args F) st it s :
  print_every a = 0 → ∃ e, train_iter a st it s = (Raise e, s).
Proof.
  intros Hp. destruct it as [iter_id b]. unfold train_iter.
  rewrite run_get_bind, run_lift_bind.
  destruct (volume_render _ _ _ _ _) as [pred|e]; [|by eexists].
  rewrite run_lift_bind. destruct (mse_loss _ _) as [m|e]; [|by eexists].
  rewrite run_lift_bind. destruct (psnr_of_mse _) as [p|e]; [|by eexists].
  rewrite run_bind. unfold report_stats at 1. rewrite run_lift_bind.
  unfold py_mod. rewrite decide_True by done. by eexists.
Qed.

Lemma range_first (es bs : Z) :
  1 ≤ bs → 1 ≤ es → ∃ l, py_range 0 es bs = Ok (0 :: l).
Proof.
  intros Hb He. unfold py_range.
  rewrite decide_False, decide_True by lia.
  destruct (Z.to_nat (es - 0)) eqn:E; [lia|]. simpl.
  rewrite decide_True by lia. by eexists.
Qed.

(** X7.  With [--print_every 0] nothing is ever trained: the first
    iteration of [train_step] stops at [(iter_id + 1) % args.print_every],
    before [mse.backward()] and the SGD step, so the grid values, the
    pending gradient and the summary stay as they were; with at least one
    batch [train_step] ends by an exception. *)
Theorem zero_print_every_never_trains (a : Args F) s :
  print_every a = 0 →
  let out := train_step a s in
  grid_data out.2 = grid_data s
  ∧ grid_grad out.2 = grid_grad s
  ∧ summary out.2 = summary s
  ∧ (1 ≤ batch_size a → 1 ≤ epoch_size s → is_raise out.1).
Proof.
  intros Hp out.
  assert (training_view out.2 = training_view s ∧
          (1 ≤ batch_size a → 1 ≤ epoch_size s → is_raise out.1)) as [Hv Hr].
  { subst out. unfold train_step. rewrite run_get_bind, run_lift_bind.
    destruct (py_range 0 (epoch_size s) (batch_size a)) as [begins|e] eqn:Hrange.
    2:{ split; [done|]. intros Hb He.
        destruct (range_first _ _ Hb He) as [l Hl]. congruence. }
    rewrite run_bind. pose proof (shuffle_dset_view s) as Hsh.
    destruct (shuffle_dset s) as [[[]|e] s1]; [|by split]. simpl in Hsh.
    destruct begins as [|b begins].
    { split; [done|]. intros Hb He.
      destruct (range_first _ _ Hb He) as [l Hl]. congruence. }
    rewrite run_bind.
    change (enumerate (b :: begins))
      with ((0, b) :: imap (λ i x, (Z.of_nat (S i), x)) begins).
    change (foldM ?f ?st (?x :: ?l)) with (f st x ≫= λ st', foldM f st' l).
    rewrite run_bind.
    destruct (train_iter_zero_print a zero_stats (0, b) s1 Hp) as [e ->].
    by split. }
  unfold training_view in Hv. injection Hv as -> -> ->. done.
Qed.

(** X8.  With a negative [--batch_size] (and [epoch_size >= 0], which a
    number of rays always is), [range(0, epoch_size, args.batch_size)] is
    empty: all that [train_step] does is shuffle the rays; the grid
    values, the pending gradient and the summary stay as they were. *)
Theorem negative_batch_size_trains_nothing (a : Args F) s :
  batch_size a < 0 → 0 ≤ epoch_size s →
  let out := train_step a s in
  out = shuffle_dset s
  ∧ grid_data out.2 = grid_data s
  ∧ grid_grad out.2 = grid_grad s
  ∧ summary out.2 = summary s.
Proof.
  intros Hb He out.
  assert (out = shuffle_dset s) as Hout.
  { subst out. unfold train_step.
    rewrite run_get_bind, run_lift_bind.
    unfold py_range. rewrite decide_False, decide_False by lia.
    replace (Z.to_nat (0 - epoch_size s)) with 0%nat by lia.
    cbn [range_down enumerate imap]. rewrite run_bind.
    by destruct (shuffle_dset s) as [[[]|e] s1]. }
  split; [done|]. rewrite Hout.
  pose proof (shuffle_dset_view s) as Hv.
  unfold preserved, training_view in Hv. by injection Hv as -> -> ->.
Qed.
End TrainEdges.

Lemma zero_print_every_never_trains_witness :
  let out := train_step (with_print_every 0 toy_args) toy_state1 in
  grid_data out.2 = grid_data toy_state1
  ∧ grid_grad out.2 = grid_grad toy_state1
  ∧ summary out.2 = summary toy_state1
  ∧ (1 ≤ batch_size (with_print_every 0 toy_args) → 1 ≤ epoch_size toy_state1 →
     is_raise out.1).
Proof.
  exact (zero_print_every_never_trains (with_print_every 0 toy_args) toy_state1
           eq_refl).
Defined.

Lemma negative_batch_size_trains_nothing_witness :
  let out := train_step (with_batch_size (-2) toy_args) toy_state1 in
  out = shuffle_dset toy_state1
  ∧ grid_data out.2 = grid_data toy_state1
  ∧ grid_grad out.2 = grid_grad toy_state1
  ∧ summary out.2 = summary toy_state1.
Proof.
  assert (batch_size (with_batch_size (-2) toy_args) < 0) as Hb by reflexivity.
  assert (0 ≤ epoch_size toy_state1) as He by (vm_compute; discriminate).
  exact (negative_batch_size_trains_nothing (with_batch_size (-2) toy_args)
           toy_state1 Hb He).
Defined.

(** ** What the loops leave unchanged *)

Section RunInvariants.
Context {F : Type} {SF : Scalar F} {EF : Extern F}.
Implicit Types (s : State).

Ltac frame_step :=
  first [ rel_step
        | apply rel_modify_preserved; intros ?; reflexivity ].

(** X9.  However [train_step] ends, it leaves the test set, the grid's
    links and render options, the files on disk, the epoch counter and the
    epoch geometry as they were. *)
Theorem train_step_leaves_rest (a : Args F) s :
  let s' := (train_step a s).2 in
  dset_test s' = dset_test s
  ∧ grid_links s' = grid_links s
  ∧ grid_opt s' = grid_opt s
  ∧ disk s' = disk s
  ∧ epoch_id s' = epoch_id s
  ∧ epoch_size s' = epoch_size s
  ∧ batches_per_epoch s' = batches_per_epoch s.
Proof.
  intros s'. destruct (train_step_frame a s) as (? & ? & ? & ? & ? & ? & ?).
  by split_and!.
Qed.

Lemma sgd_step_constants (a : Args F) : run_rel (preserved run_constants) (sgd_step a).
Proof.
  intros s. unfold sgd_step.
  rewrite run_get_bind, run_lift_bind.
  destruct (grid_grad s) as [g|] eqn:Hg; [|done]. simpl or_raise. cbv beta iota.
  rewrite run_modify_bind, run_get_bind, run_lift_bind. simpl or_raise. cbv beta iota.
  rewrite run_modify_bind, run_get_bind, run_lift_bind. simpl or_raise. cbv beta iota.
  rewrite run_lift_bind. simpl grid_data.
  destruct (tensor_zip fsub (grid_data s) _) as [d|e] eqn:Hd; [|done].
  apply shape2_tensor_zip in Hd as [Hd _].
  rewrite run_modify_bind. unfold modify, preserved, run_constants. simpl.
  by rewrite Hd.
Qed.

Lemma train_step_constants (a : Args F) :
  run_rel (preserved run_constants) (train_step a).
Proof.
  unfold train_step, train_iter, shuffle_dset, report_stats, backward, add_scalar.
  repeat first [ apply sgd_step_constants | frame_step ].
Qed.

Lemma epoch_body_constants (a : Args F) e :
  run_rel (preserved run_constants) (epoch_body a e).
Proof.
  unfold epoch_body, save_checkpoint, np_savez.
  repeat first
    [ apply train_step_constants
    | apply (rel_weaken only_emits); [by intros ? ? [new ->]|apply eval_step_only_emits]
    | frame_step ].
Qed.

(** X10.  However the epoch loop ends, the grid's links and render
    options, the test set, [epoch_size], [batches_per_epoch] and the shape
    of the grid values are what they were before the first epoch. *)
Theorem epoch_loop_constants (a : Args F) s :
  let s' := (epoch_loop a s).2 in
  grid_links s' = grid_links s
  ∧ grid_opt s' = grid_opt s
  ∧ dset_test s' = dset_test s
  ∧ epoch_size s' = epoch_size s
  ∧ batches_per_epoch s' = batches_per_epoch s
  ∧ shape2 (grid_data s') = shape2 (grid_data s).
Proof.
  intros s'.
  assert (run_rel (preserved run_constants) (epoch_loop a)) as Hrun.
  { unfold epoch_loop, for_each. repeat first [apply epoch_body_constants | frame_step]. }
  specialize (Hrun s). unfold preserved, run_constants in Hrun.
  fold s' in Hrun. by injection Hrun as -> -> -> -> -> ->.
Qed.

Lemma train_iter_clears (a : Args F) st it s st' s' :
  train_iter a st it s = (Ok st', s') → grid_grad s' = None.
Proof.
  destruct it as [iter_id b]. unfold train_iter. intros H.
  apply run_bind_Ok in H as (s0 & s1 & [-> ->]%run_get_Ok & H).
  apply run_bind_Ok in H as (pred & s1 & [_ ->]%run_lift_Ok & H).
  apply run_bind_Ok in H as (m & s1 & [_ ->]%run_lift_Ok & H).
  apply run_bind_Ok in H as (p & s1 & [_ ->]%run_lift_Ok & H).
  apply run_bind_Ok in H as (st1 & s1 & _ & H).
  apply run_bind_Ok in H as ([] & s2 & _ & H).
  apply run_bind_Ok in H as ([] & s3 & Hsgd & H).
  apply run_ret_Ok in H as [_ ->].
  apply sgd_step_Ok in Hsgd as (g & _ & _ & _ & ->). done.
Qed.

Lemma train_loop_clears (a : Args F) (l : list (Z * Z)) st s st' s' :
  foldM (train_iter a) st l s = (Ok st', s') →
  grid_grad s = None → grid_grad s' = None.
Proof.
  revert st s. induction l as [|it l IH]; intros st s H Hs.
  - by apply run_ret_Ok in H as [_ ->].
  - change (foldM ?f ?b (?x :: ?l)) with (f b x ≫= λ b', foldM f b' l) in H.
    apply run_bind_Ok in H as (st1 & s1 & H1 & H).
    eapply IH; [exact H|]. by eapply train_iter_clears.
Qed.

Lemma train_step_clears (a : Args F) s s' :
  train_step a s = (Ok tt, s') → grid_grad s = None → grid_grad s' = None.
Proof.
  unfold train_step. intros H Hs.
  apply run_bind_Ok in H as (s0 & s1 & [-> ->]%run_get_Ok & H).
  apply run_bind_Ok in H as (begins & s1 & [_ ->]%run_lift_Ok & H).
  apply run_bind_Ok in H as ([] & s1 & Hsh & H).
  apply run_bind_Ok in H as (st & s2 & Hloop & H).
  apply run_ret_Ok in H as [_ ->].
  eapply train_loop_clears; [exact Hloop|].
  pose proof (shuffle_dset_view s) as Hv. rewrite Hsh in Hv.
  unfold preserved, training_view in Hv. simpl in Hv. congruence.
Qed.

Lemma epoch_body_clears (a : Args F) e s s' :
  epoch_body a e s = (Ok tt, s') → grid_grad s = None → grid_grad s' = None.
Proof.
  unfold epoch_body. intros H Hs.
  apply run_bind_Ok in H as ([] & s1 & ->%run_modify_Ok & H).
  apply run_bind_Ok in H as ([] & s2 & Heval & H).
  apply run_bind_Ok in H as ([] & s3 & Htrain & H).
  unfold save_checkpoint, np_savez in H. run_inv H.
  pose proof (eval_step_only_emits a (set_epoch_id e s)) as [new Hnew].
  rewrite Heval in Hnew. simpl in Hnew. subst s2.
  by apply (train_step_clears a _ _ Htrain).
Qed.

(** X11.  [del grid.data.grad] ends every training iteration: when the
    epoch loop completes, having started without a pending gradient (as
    the module level leaves the grid), no gradient is pending, so no
    iteration ever adds its gradient to an earlier one. *)
Theorem completed_run_no_pending_gradient (a : Args F) s s' :
  epoch_loop a s = (Ok tt, s') → grid_grad s = None → grid_grad s' = None.
Proof.
  unfold epoch_loop, for_each. intros H.
  apply run_bind_Ok in H as (epochs & s1 & [_ ->]%run_lift_Ok & H).
  revert s H. induction epochs as [|e epochs IH]; intros s H Hs.
  - by apply run_ret_Ok in H as [_ ->].
  - change (foldM ?f ?b (?x :: ?l)) with (f b x ≫= λ b', foldM f b' l) in H.
    apply run_bind_Ok in H as ([] & s1 & H1 & H).
    eapply IH; [exact H|]. by eapply epoch_body_clears.
Qed.
End RunInvariants.

Lemma completed_run_no_pending_gradient_witness :
  epoch_loop toy_args toy_state0 = (Ok tt, toy_state_end)
  ∧ grid_grad toy_state_end = None.
Proof.
  assert (epoch_loop toy_args toy_state0 = (Ok tt, toy_state_end)) as Hrun
    by (vm_cast_no_check (@eq_refl _ (Ok tt, toy_state_end))).
  split; [exact Hrun|].
  exact (completed_run_no_pending_gradient toy_args toy_state0 toy_state_end
           Hrun eq_refl).
Defined.

(** ** When the training pass reports *)

Section Schedule.
Context {F : Type} {SF : Scalar F} {EF : Extern F}.
Implicit Types (s : State).

Ltac frame_step :=
  first [ rel_step
        | apply rel_modify_preserved; intros ?; reflexivity ].

Lemma train_iter_schedule (a : Args F) st iter_id b s st' s' :
  train_iter a st (iter_id, b) s = (Ok st', s') →
  base_step s' = base_step s
  ∧ ((iter_id + 1) `mod` print_every a ≠ 0 ∧ summary s' = summary s
     ∨ (iter_id + 1) `mod` print_every a = 0
       ∧ ∃ new, summary s' = summary s ++ new
           ∧ tag_step <$> new
             = [("mse", iter_id + base_step s); ("psnr", iter_id + base_step s)]).
Proof.
  unfold train_iter. intros H.
  apply run_bind_Ok in H as (s0 & s1 & [-> ->]%run_get_Ok & H).
  apply run_bind_Ok in H as (pred & s1 & [_ ->]%run_lift_Ok & H).
  apply run_bind_Ok in H as (m & s1 & [_ ->]%run_lift_Ok & H).
  apply run_bind_Ok in H as (p & s1 & [Hp ->]%run_lift_Ok & H).
  apply run_bind_Ok in H as (st1 & s1 & Hrep & H).
  apply run_bind_Ok in H as ([] & s2 & Hback & H).
  apply run_bind_Ok in H as ([] & s3 & Hsgd & H).
  apply run_ret_Ok in H as [-> ->].
  lazymatch type of Hback with
  | backward ?o ?d ?g s1 = _ =>
      pose proof (backward_silent o d g s1) as [(Hb1 & _ & Hb2) Hs2]
  end.
  pose proof (sgd_step_silent a s2) as [(Hg1 & _ & Hg2) Hs3].
  rewrite Hback in Hs2, Hb1, Hb2. rewrite Hsgd in Hs3, Hg1, Hg2. simpl in *.
  assert (base_step s3 = base_step s1) as Hbase by (unfold base_step; congruence).
  assert (summary s3 = summary s1) as Hsum by congruence.
  rewrite Hbase, Hsum. clear Hback Hsgd Hs2 Hs3 Hb1 Hb2 Hg1 Hg2 Hbase Hsum.
  unfold report_stats in Hrep.
  apply run_bind_Ok in Hrep as (r & s0 & [Hr ->]%run_lift_Ok & H).
  unfold py_mod in Hr.
  destruct (decide (print_every a = 0)) as [|Hpe]; [done|]. injection Hr as <-.
  destruct (decide (_ = 0)) as [Hz|Hz].
  - unfold add_scalar, py_truediv in H. rewrite !decide_False in H by done.
    run_inv H.
    repeat match goal with Hd : Ok _ = Ok _ |- _ => injection Hd as <- end.
    split; [done|]. right. split; [done|]. eexists [_; _]. simpl.
    split; [by rewrite <- app_assoc|done].
  - apply run_ret_Ok in H as [-> ->]. split; [done|]. by left.
Qed.

Lemma train_loop_schedule (a : Args F) (l : list Z) (k : Z) st s st' s' :
  1 ≤ print_every a → 0 ≤ k →
  foldM (train_iter a) st (zip (seqZ k (Z.of_nat (length l))) l) s = (Ok st', s') →
  ∃ new,
    summary s' = summary s ++ new
    ∧ tag_step <$> new
      = concat (report_tag_steps (print_every a) (base_step s)
                <$> seqZ (k `div` print_every a)
                      ((k + Z.of_nat (length l)) `div` print_every a
                       - k `div` print_every a)).
Proof.
  intros Hpe. revert k st s. induction l as [|b l IH]; intros k st s Hk.
  - intros [_ ->]%run_ret_Ok. exists []. rewrite app_nil_r. split; [done|].
    simpl length. by rewrite Z.add_0_r, Z.sub_diag.
  - rewrite seqZ_cons by (simpl; lia).
    replace (Z.pred (Z.of_nat (length (b :: l)))) with (Z.of_nat (length l))
      by (simpl; lia).
    change (foldM ?f st (zip (k :: ?ks) (b :: l)))
      with (f st (k, b) ≫= λ st', foldM f st' (zip ks l)).
    intros (st1 & s1 & Hiter & Hrest)%run_bind_Ok.
    apply train_iter_schedule in Hiter as [Hbase Hiter].
    apply IH in Hrest as (new & Hnew & Hlab); [|lia].
    rewrite Hbase in Hlab.
    replace (Z.succ k + Z.of_nat (length l))
      with (k + Z.of_nat (length (b :: l))) in Hlab by (simpl length; lia).
    set (p := print_every a) in *. set (n := Z.of_nat (length (b :: l))) in *.
    assert (1 ≤ n) as Hn by (subst n; simpl length; lia).
    pose proof (Z.div_mod k p ltac:(lia)) as Hk0.
    pose proof (Z.mod_pos_bound k p ltac:(lia)) as Hk0'.
    pose proof (Z.div_mod (Z.succ k) p ltac:(lia)) as Hk1.
    pose proof (Z.mod_pos_bound (Z.succ k) p ltac:(lia)) as Hk1'.
    pose proof (Z.div_le_mono (Z.succ k) (k + n) p ltac:(lia) ltac:(lia)) as Hmono.
    replace (k + 1) with (Z.succ k) in Hiter by lia.
    destruct Hiter as [[Hmod Hsum]|(Hmod & new1 & Hsum & Hlab1)].
    + assert (Z.succ k `div` p = k `div` p) as Hq by nia.
      rewrite Hq in Hlab. exists new. split; [congruence|done].
    + assert (Z.succ k `div` p = k `div` p + 1) as Hq by nia.
      assert (k = (k `div` p + 1) * p - 1) as Hstep by nia.
      exists (new1 ++ new). split.
      * rewrite Hnew, Hsum. by rewrite app_assoc.
      * rewrite fmap_app, Hlab1, Hlab, Hq.
        rewrite (seqZ_cons (k `div` p)) by lia.
        rewrite fmap_cons. simpl concat. unfold report_tag_steps at 2.
        rewrite <- Hstep.
        replace (Z.succ (k `div` p)) with (k `div` p + 1) by lia.
        replace (Z.pred ((k + n) `div` p - k `div` p))
          with ((k + n) `div` p - (k `div` p + 1)) by lia.
        done.
Qed.

Lemma train_step_report_labels (a : Args F) s s' :
  1 ≤ print_every a → 1 ≤ batch_size a →
  train_step a s = (Ok tt, s') →
  ∃ new,
    summary s' = summary s ++ new
    ∧ tag_step <$> new
      = concat (report_tag_steps (print_every a) (base_step s)
                <$> seqZ 0 (n_batches a s `div` print_every a)).
Proof.
  intros Hpe Hbs H. unfold train_step in H.
  apply run_bind_Ok in H as (s0 & s1 & [-> ->]%run_get_Ok & H).
  apply run_bind_Ok in H as (begins & s1 & [Hrange ->]%run_lift_Ok & H).
  apply run_bind_Ok in H as ([] & s1 & Hsh & H).
  apply run_bind_Ok in H as (st & s2 & Hloop & H).
  apply run_ret_Ok in H as [_ ->].
  pose proof (shuffle_dset_silent s) as [(Hs1 & _ & Hs2) Hs3].
  rewrite Hsh in Hs1, Hs2, Hs3. simpl in Hs1, Hs2, Hs3.
  rewrite enumerate_zip in Hloop.
  apply train_loop_schedule in Hloop as (new & Hnew & Hlab); [|done|done].
  apply py_range_length in Hrange; [|lia]. fold (n_batches a s) in Hrange.
  rewrite Hrange, Z.div_0_l, Z.add_0_l, Z.sub_0_r in Hlab by lia.
  replace (base_step s1) with (base_step s) in Hlab by (unfold base_step; congruence).
  exists new. split; [congruence|done].
Qed.

(** X12.  A completed [train_step] with [print_every >= 1] and
    [batch_size >= 1] reports after the iterations [p - 1, 2p - 1, ...]
    only ([p] the value of [--print_every]): it emits [mse] then [psnr],
    [n // p] times for [n] batches, the [j]-th pair at step
    [(j + 1) * p - 1 + epoch_id * batches_per_epoch]; the statistics of
    the last [n % p] batches are never reported, and an epoch of fewer
    than [p] batches reports nothing. *)
Theorem train_step_report_schedule (a : Args F) s s' :
  1 ≤ print_every a → 1 ≤ batch_size a →
  train_step a s = (Ok tt, s') →
  ∃ new,
    summary s' = summary s ++ new
    ∧ tag_step <$> new
      = concat (report_tag_steps (print_every a) (base_step s)
                <$> seqZ 0 (n_batches a s `div` print_every a))
    ∧ (n_batches a s < print_every a → new = []).
Proof.
  intros Hpe Hbs H.
  destruct (train_step_report_labels a s s' Hpe Hbs H) as (new & Hnew & Hlab).
  exists new. split_and!; [done|done|].
  intros Hlt. rewrite Z.div_small in Hlab.
  - by destruct new.
  - split; [apply range_count_nonneg; lia|done].
Qed.
End Schedule.

Lemma train_step_report_schedule_witness :
  train_step toy_args toy_state1 = (Ok tt, toy_state2)
  ∧ ∃ new, summary toy_state2 = summary toy_state1 ++ new
      ∧ tag_step <$> new
        = concat (report_tag_steps (print_every toy_args) (base_step toy_state1)
                  <$> seqZ 0 (n_batches toy_args toy_state1 `div` print_every toy_args)).
Proof.
  assert (train_step toy_args toy_state1 = (Ok tt, toy_state2)) as Hrun
    by (vm_compute; reflexivity).
  assert (1 ≤ print_every toy_args) as Hp by (vm_compute; discriminate).
  assert (1 ≤ batch_size toy_args) as Hb by (vm_compute; discriminate).
  split; [exact Hrun|].
  destruct (train_step_report_schedule toy_args toy_state1 toy_state2 Hp Hb Hrun)
    as (new & Hnew & Hlab & _).
  exists new. split; [exact Hnew|exact Hlab].
Defined.

(** ** The training rays *)

Section RaysKept.
Context {F : Type} {SF : Scalar F} {EF : Extern F}.
Implicit Types (s : State).

Ltac frame_step :=
  first [ rel_step
        | apply rel_modify_preserved; intros ?; reflexivity ].

#[global] Instance rays_kept_preorder : PreOrder rays_kept.
Proof.
  split.
  - by intros s Hs.
  - intros s1 s2 s3 H12 H23 H1.
    destruct (H12 H1) as [H2 Hp2]. destruct (H23 H2) as [H3 Hp3].
    split; [done|]. by etrans.
Qed.

Lemma preserved_rays_kept s s' : preserved dset s s' → rays_kept s s'.
Proof. unfold preserved, rays_kept. by intros ->. Qed.

Lemma permute_rays_kept {A} (perm : list Z) (r r' : Rays A) :
  perm ≡ₚ seqZ 0 (Z.of_nat (length (origins r))) →
  aligned r → permute_rays perm r = Ok r' →
  aligned r' ∧ ray_triples r' ≡ₚ ray_triples r.
Proof.
  intros Hperm [Hd Hg]. unfold permute_rays. intros H.
  destruct (index_select (origins r) perm) as [o|] eqn:Ho; [|done].
  destruct (index_select (dirs r) perm) as [d|] eqn:Hdd; [|done].
  destruct (index_select (gt r) perm) as [g|] eqn:Hgg; [|done].
  injection H as <-.
  split.
  - unfold aligned. simpl.
    apply index_select_length in Ho, Hdd, Hgg. lia.
  - assert (index_select (ray_triples r) perm = Ok (zip (zip o d) g)) as Hsel.
    { unfold ray_triples. apply index_select_zip; [|by apply index_select_zip|done].
      rewrite length_zip. lia. }
    destruct (index_select_range_Permutation (ray_triples r) perm) as (t & Ht & Hpt).
    { unfold ray_triples. rewrite !length_zip, Hd, Hg, !Nat.min_id. done. }
    rewrite Hsel in Ht. by injection Ht as <-.
Qed.

Lemma shuffle_dset_rays_kept : randperm_contract → run_rel rays_kept shuffle_dset.
Proof.
  intros Hrand s. unfold shuffle_dset. rewrite run_get_bind.
  unfold shuffle_rays. destruct (decide (split (dset s) = "train")) as [Ht|Ht].
  - pose proof (Hrand (rng s) (Z.of_nat (length (origins (rays (dset s)))))) as Hperm.
    destruct (randperm _ _) as [perm g']. simpl in Hperm.
    rewrite run_modify_bind, run_lift_bind.
    destruct (permute_rays perm (rays (dset s))) as [r'|e] eqn:Hr; simpl.
    + intros Hal. by apply (permute_rays_kept perm).
    + by intros Hal.
  - rewrite run_modify_bind, run_lift_bind. by intros Hal.
Qed.

Lemma train_iter_dset (a : Args F) st it : run_rel (preserved dset) (train_iter a st it).
Proof.
  unfold train_iter, report_stats, backward, sgd_step, add_scalar.
  destruct it. repeat frame_step.
Qed.

Lemma epoch_loop_rays_kept (a : Args F) :
  randperm_contract → run_rel rays_kept (epoch_loop a).
Proof.
  intros Hrand.
  assert (∀ A (m : M A), run_rel (preserved dset) m → run_rel rays_kept m) as Hw.
  { intros A m. apply rel_weaken, preserved_rays_kept. }
  unfold epoch_loop, for_each.
  apply rel_bind; [apply _|apply Hw; frame_step|intros epochs].
  apply rel_foldM; [apply _|intros _ e]. unfold epoch_body.
  apply rel_bind; [apply _|apply Hw; frame_step|intros _].
  apply rel_bind; [apply _| |intros _].
  { apply (rel_weaken only_emits); [|apply eval_step_only_emits].
    intros s s' [new ->]. by apply preserved_rays_kept. }
  apply rel_bind; [apply _| |intros _].
  - unfold train_step.
    apply rel_bind; [apply _|apply Hw; frame_step|intros s0].
    apply rel_bind; [apply _|apply Hw; frame_step|intros begins].
    apply rel_bind; [apply _|by apply shuffle_dset_rays_kept|intros _].
    apply Hw. repeat first [apply train_iter_dset | frame_step].
  - apply Hw. unfold save_checkpoint, np_savez. repeat frame_step.
Qed.

(** X13.  Training never drops or duplicates a ray.  If [torch.randperm]
    returns permutations and the three ray tensors of the training set
    have one length, then, however the epoch loop ends, they still have
    one length and the (origin, direction, colour) triples are those of
    the start in some order: every shuffle applies one permutation to all
    three tensors, and nothing else writes the training set. *)
Theorem epoch_loop_keeps_rays (a : Args F) s :
  randperm_contract → aligned (rays (dset s)) →
  let s' := (epoch_loop a s).2 in
  aligned (rays (dset s'))
  ∧ ray_triples (rays (dset s')) ≡ₚ ray_triples (rays (dset s)).
Proof. intros Hrand Hal s'. by apply (epoch_loop_rays_kept a Hrand s). Qed.
End RaysKept.

Lemma epoch_loop_keeps_rays_witness :
  let s' := (epoch_loop toy_args toy_state0).2 in
  aligned (rays (dset s'))
  ∧ ray_triples (rays (dset s')) ≡ₚ ray_triples (rays (dset toy_state0)).
Proof.
  assert (aligned (rays (dset toy_state0))) as Hal by (split; reflexivity).
  exact (epoch_loop_keeps_rays toy_args toy_state0 toy_randperm_contract Hal).
Defined.

(** ** The loader *)

Section LoaderFacts.
Context {F : Type} {SF : Scalar F} {EF : Extern F}.

Lemma load_frame_Ok files root split acc (frame : json F) acc' :
  load_frame files (path_join root split) acc frame = Ok acc' →
  ∃ c2w im, frame_loaded files root split frame im
    ∧ acc' = (acc.1 ++ [c2w], acc.2 ++ [im]).
Proof.
  unfold load_frame. intros H.
  apply bind_Ok in H as (fp & Hfp & H).
  apply bind_Ok in Hfp as (jfp & Hjfp & Hfp).
  destruct jfp; try done. injection Hfp as ->.
  apply bind_Ok in H as (c2w & _ & H).
  apply bind_Ok in H as (raw & Hraw & H).
  apply bind_Ok in H as (im & Him & H). injection H as <-.
  unfold imread in Hraw. apply bind_Ok in Hraw as (bytes & Hbytes & Hraw).
  destruct (files !! _) as [bytes'|] eqn:Hfile; [|done]. injection Hbytes as ->.
  destruct (png_decode bytes) as [raw'|] eqn:Hpng; [|done]. injection Hraw as ->.
  exists c2w, im. split; [|done]. by exists fp, bytes, raw.
Qed.

Lemma load_frames_Ok files root split (frames : list (json F)) acc acc' :
  foldR (load_frame files (path_join root split)) acc frames = Ok acc' →
  ∃ poses ims,
    acc' = (acc.1 ++ poses, acc.2 ++ ims)
    ∧ length poses = length frames
    ∧ Forall2 (frame_loaded files root split) frames ims.
Proof.
  revert acc. induction frames as [|frame frames IH]; intros acc H.
  - injection H as <-. exists [], []. rewrite !app_nil_r.
    split_and!; [by destruct acc|done|constructor].
  - simpl in H. apply bind_Ok in H as (acc1 & H1 & H).
    apply load_frame_Ok in H1 as (c2w & im & Hload & ->).
    apply IH in H as (poses & ims & -> & Hlen & Hall). simpl.
    exists (c2w :: poses), (im :: ims). rewrite <- !app_assoc. simpl.
    split_and!; [done|by rewrite Hlen|by constructor].
Qed.

Lemma concat_length_shape (im im0 : image F) :
  image_shape im = image_shape im0 → length (concat im) = length (concat im0).
Proof.
  unfold image_shape. intros Hs.
  assert (∀ i : image F, length (concat i)
            = sum_list (length <$> ((λ row : list (list F), length <$> row) <$> i))) as Hlen.
  { intros i. induction i as [|row i IH]; [done|].
    simpl. by rewrite length_app, IH, length_fmap. }
  by rewrite !Hlen, Hs.
Qed.

Lemma Dataset_init_inv files root sp scale d :
  Dataset_init files root sp scale = Ok d →
  ∃ text j frames angle im0,
    files !! manifest_path root sp = Some text
    ∧ json_decode text = Some j
    ∧ json_get j "frames" ≫= json_iter = Ok frames
    ∧ (json_get j "camera_angle_x" = Ok (JNum angle)
       ∨ ∃ b : bool, json_get j "camera_angle_x" = Ok (JBool b)
           ∧ angle = of_Z (if b then 1 else 0))
    ∧ Forall2 (frame_loaded files root sp) frames (ds_gt d)
    ∧ n_images d = Z.of_nat (length frames) ∧ 1 ≤ n_images d
    ∧ ds_gt d !! 0%nat = Some im0
    ∧ h d = Z.of_nat (length im0) ∧ w d = image_width im0
    ∧ Forall (λ im, image_shape im = image_shape im0) (ds_gt d)
    ∧ Forall (Forall (Forall (λ px : list F, length px = 3%nat))) (ds_gt d)
    ∧ focal d = fdiv (fmul half (of_Z (w d))) (ftan (fmul half angle))
    ∧ split d = sp
    ∧ gt (rays d) = view_split sp ((λ im : image F, concat im) <$> ds_gt d).
Proof.
  unfold Dataset_init. intros H.
  apply bind_Ok in H as (text & Htext & H).
  destruct (files !! _) as [text'|] eqn:Hfile; [|done]. injection Htext as ->.
  apply bind_Ok in H as (j & Hj & H).
  destruct (json_decode text) as [j'|] eqn:Hdec; [|done]. injection Hj as ->.
  apply bind_Ok in H as (frames & Hframes & H).
  apply bind_Ok in H as ([all_c2w all_gt] & Hload & H).
  apply load_frames_Ok in Hload as (poses & ims & [= -> ->] & Hlen & Hall).
  apply bind_Ok in H as (im0 & Him0 & H).
  destruct (ims !! 0%nat) as [im0'|] eqn:Hfirst; [|done]. injection Him0 as ->.
  apply bind_Ok in H as (angle & Hangle & H).
  apply bind_Ok in Hangle as (jangle & Hjangle & Hangle).
  assert (json_get j "camera_angle_x" = Ok (JNum angle)
          ∨ ∃ b : bool, json_get j "camera_angle_x" = Ok (JBool b)
              ∧ angle = of_Z (if b then 1 else 0)) as Hcam.
  { destruct jangle as [|b|x| | |]; try done; injection Hangle as <-;
      [right; by exists b|by left]. }
  clear Hjangle Hangle jangle.
  apply bind_Ok in H as (c2w & _ & H).
  apply bind_Ok in H as (gt_images & Hstack & H).
  assert (gt_images = ims ∧ Forall (λ im, image_shape im = image_shape im0) ims)
    as [-> Hshape].
  { unfold stack_images in Hstack. destruct ims as [|im ims]; [done|].
    injection Hfirst as ->.
    destruct (decide _) as [Hs|]; [|done]. by injection Hstack as <-. }
  apply bind_Ok in H as ([origins dirs] & _ & H).
  apply bind_Ok in H as (gt & Hgt & H).
  unfold reshape_pixels in Hgt. destruct (decide _) as [Hpx|]; [|done].
  injection H as <-. injection Hgt as <-. simpl.
  exists text, j, frames, angle, im0.
  pose proof (Forall2_length _ _ _ Hall) as Hn.
  split_and!; try done.
  - by rewrite Hn.
  - destruct ims; [done|]. simpl. lia.
Qed.


(** X14.  What a dataset that loaded holds: one ground-truth image per
    frame of the manifest, in the order of the manifest, each read from
    [<root>/<split>/<basename of file_path>.png]; [n_images] is the number
    of frames and is at least one; [h] and [w] are the height and the
    width of the first image, with which all images agree in shape; every
    pixel has three channels left; [focal] is
    [0.5 * w / tan(0.5 * camera_angle_x)], where [camera_angle_x] is a
    number of the manifest, or a Boolean, which counts as 1 or 0. *)
Theorem Dataset_init_loads_frames files root sp scale d :
  Dataset_init files root sp scale = Ok d →
  ∃ text j frames angle im0,
    files !! manifest_path root sp = Some text
    ∧ json_decode text = Some j
    ∧ json_get j "frames" ≫= json_iter = Ok frames
    ∧ (json_get j "camera_angle_x" = Ok (JNum angle)
       ∨ ∃ b : bool, json_get j "camera_angle_x" = Ok (JBool b)
           ∧ angle = of_Z (if b then 1 else 0))
    ∧ Forall2 (frame_loaded files root sp) frames (ds_gt d)
    ∧ n_images d = Z.of_nat (length frames) ∧ 1 ≤ n_images d
    ∧ ds_gt d !! 0%nat = Some im0
    ∧ h d = Z.of_nat (length im0) ∧ w d = image_width im0
    ∧ Forall (λ im, image_shape im = image_shape im0) (ds_gt d)
    ∧ Forall (Forall (Forall (λ px : list F, length px = 3%nat))) (ds_gt d)
    ∧ focal d = fdiv (fmul half (of_Z (w d))) (ftan (fmul half angle))
    ∧ split d = sp.
Proof.
  intros (text & j & frames & angle & im0 & H)%Dataset_init_inv.
  exists text, j, frames, angle, im0. destruct_and!. by split_and!.
Qed.

(** X15.  A manifest without frames: the loader stops at [all_gt[0]] with
    an [IndexError], before it reads [camera_angle_x]. *)
Theorem empty_manifest_IndexError files root sp scale text (j : json F) :
  files !! manifest_path root sp = Some text →
  json_decode text = Some j →
  json_get j "frames" ≫= json_iter = Ok [] →
  Dataset_init files root sp scale = Raise IndexError.
Proof.
  intros Hfile Hdec Hframes. unfold Dataset_init.
  unfold manifest_path in Hfile. rewrite Hfile. simpl. rewrite Hdec. simpl.
  by rewrite Hframes.
Qed.

Lemma composite_pixel_Ok (px : list F) :
  (∃ out, composite_pixel px = Ok out) ↔ composable (length px).
Proof.
  unfold composable. split.
  - intros [out H].
    destruct px as [|a [|b [|c [|d [|e [|f [|g px]]]]]]]; simpl length;
      first [lia | by cbv in H].
  - intros Hc.
    destruct px as [|a [|b [|c [|d [|e [|f [|g px]]]]]]]; simpl in Hc;
      first [lia | by eexists].
Qed.

Lemma composite_pixel_error (px : list F) e :
  composite_pixel px = Raise e → e = ValueError.
Proof.
  intros H.
  destruct px as [|a [|b [|c [|d [|x [|f [|g px]]]]]]]; cbv in H; congruence.
Qed.

Lemma mapM_total {A B} (f : A → result B) (l : list A) :
  (∃ l', mapM f l = Ok l') ↔ Forall (λ x, ∃ y, f x = Ok y) l.
Proof.
  split.
  - intros [l' H%mapM_Ok]. induction H; constructor; [by eexists|done].
  - intros H. induction H as [|x l [y Hy] _ [l' IH]]; [by exists []|].
    exists (y :: l'). apply mapM_Ok. constructor; [done|by apply mapM_Ok].
Qed.

Lemma mapM_raise_only {A B} (f : A → result B) (l : list A) e0 :
  (∀ x e, f x = Raise e → e = e0) →
  ∀ e, mapM f l = Raise e → e = e0.
Proof.
  intros Hf. induction l as [|x l IH]; intros e; [done|]. simpl.
  destruct (f x) as [y|e'] eqn:Hx; simpl.
  - destruct (mapM f l) as [l'|e'']; simpl; [done|]. intros [= <-]. by apply IH.
  - intros [= <-]. by eapply Hf.
Qed.

(** X16.  The compositing line
    [im_gt[..., :3] * im_gt[..., 3:] + (1.0 - im_gt[..., 3:])] accepts an
    image exactly when the number of channels of every pixel is 0, 1, 4 or
    6 (the counts for which the two slices broadcast); for any other
    image, an RGB image without alpha among them, it raises
    [ValueError]. *)
Theorem composite_white_accepts (raw : image Z) :
  ((∃ im : image F, composite_white (to_unit_range raw) = Ok im)
   ↔ Forall (Forall (λ px, composable (length px))) raw)
  ∧ (∀ e, composite_white (to_unit_range raw) = Raise e → e = ValueError).
Proof.
  unfold composite_white, to_unit_range. split.
  - rewrite mapM_total, Forall_fmap. apply Forall_iff. intros row. simpl.
    rewrite mapM_total, Forall_fmap. apply Forall_iff. intros px. simpl.
    by rewrite composite_pixel_Ok, length_fmap.
  - apply mapM_raise_only. intros row. apply mapM_raise_only.
    apply composite_pixel_error.
Qed.
Lemma all_pixels_length (ims : list (image F)) (im0 : image F) :
  Forall (λ im, image_shape im = image_shape im0) ims →
  length (all_pixels ims) = (length ims * length (concat im0))%nat.
Proof.
  unfold all_pixels. induction 1 as [|im ims Him _ IH]; [done|].
  rewrite fmap_cons. simpl. rewrite length_app, IH.
  by rewrite (concat_length_shape im im0).
Qed.

(** X19.  The ground-truth colours of the rays are the pixels of the
    composited images in row-major order: for the training split one
    tensor with the pixels of all images, image after image
    ([n_images] times the pixels of one image); for the test split one
    tensor per image. *)
Theorem Dataset_init_ground_truth files root scale :
  (∀ d, Dataset_init files root "train" scale = Ok d →
     gt (rays d) = all_pixels (ds_gt d)
     ∧ ∃ im0, ds_gt d !! 0%nat = Some im0
         ∧ Z.of_nat (length (gt (rays d)))
           = n_images d * Z.of_nat (length (concat im0)))
  ∧ (∀ d, Dataset_init files root "test" scale = Ok d →
       gt (rays d) = (λ im : image F, concat im) <$> ds_gt d
       ∧ Z.of_nat (length (gt (rays d))) = n_images d).
Proof.
  split; intros d (text & j & frames & angle & im0 & H)%Dataset_init_inv;
    destruct H as (_ & _ & _ & _ & Hall & Hn & _ & H0 & _ & _ & Hshape & _ & _ & _ & Hgt).
  - change (gt (rays d) = all_pixels (ds_gt d)) in Hgt. split; [done|].
    exists im0. split; [done|].
    transitivity (Z.of_nat (length (all_pixels (ds_gt d)))); [by rewrite Hgt|].
    rewrite (all_pixels_length _ im0 Hshape), Hn.
    rewrite <- (Forall2_length _ _ _ Hall). lia.
  - change (gt (rays d) = (λ im : image F, concat im) <$> ds_gt d) in Hgt.
    split; [done|].
    transitivity (Z.of_nat (length ((λ im : image F, concat im) <$> ds_gt d)));
      [by rewrite Hgt|].
    rewrite length_fmap, Hn. by rewrite (Forall2_length _ _ _ Hall).
Qed.
End LoaderFacts.

Lemma Dataset_init_loads_frames_witness :
  ∃ frames : list (json Z),
    Forall2 (frame_loaded toy_files "data" "test") frames (ds_gt (dset_test toy_state0))
    ∧ n_images (dset_test toy_state0) = Z.of_nat (length frames).
Proof.
  assert (Dataset_init toy_files "data" "test" default_scene_scale
          = Ok (dset_test toy_state0)) as Hd by (vm_compute; reflexivity).
  destruct (Dataset_init_loads_frames toy_files "data" "test" default_scene_scale
              (dset_test toy_state0) Hd)
    as (text & j & frames & angle & im0 & _ & _ & _ & _ & Hall & Hn & _).
  exists frames. split; [exact Hall|exact Hn].
Defined.

Lemma empty_manifest_IndexError_witness :
  Dataset_init (F := Z) (<["data/transforms_test.json" := EmptyString]> toy_files)
    "data" "test" default_scene_scale = Raise IndexError.
Proof.
  apply (empty_manifest_IndexError _ "data" "test" _ EmptyString
           (toy_manifest EmptyString)); reflexivity.
Defined.

Lemma Dataset_init_ground_truth_witness :
  gt (rays (dset toy_state0)) = all_pixels (ds_gt (dset toy_state0))
  ∧ Z.of_nat (length (gt (rays (dset_test toy_state0)))) = n_images (dset_test toy_state0).
Proof.
  assert (Dataset_init toy_files "data" "train" default_scene_scale
          = Ok (dset toy_state0)) as Htrain by (vm_compute; reflexivity).
  assert (Dataset_init toy_files "data" "test" default_scene_scale
          = Ok (dset_test toy_state0)) as Htest by (vm_compute; reflexivity).
  destruct (Dataset_init_ground_truth toy_files "data" default_scene_scale)
    as [Ha Hb].
  destruct (Ha _ Htrain) as [Hgt _]. destruct (Hb _ Htest) as [_ Hlen].
  split; [exact Hgt|exact Hlen].
Defined.

(** ** The shape of the summary *)

Section LogShape.
Context {F : Type} {SF : Scalar F} {EF : Extern F}.
Implicit Types (s : State).

Lemma eval_batches_lengths (a : Args F) s im_size img_id (l : list Z) acc acc' :
  foldR (eval_batch a s im_size img_id) acc l = Ok acc' →
  length acc'.1 = (length acc.1 + length l)%nat
  ∧ length acc'.2 = (length acc.2 + length l)%nat.
Proof.
  revert acc. induction l as [|b l IH]; intros acc H.
  - injection H as <-. simpl. lia.
  - simpl in H. apply bind_Ok in H as (acc1 & H1 & H).
    apply IH in H as [Ha Hb]. unfold eval_batch in H1.
    apply bind_Ok in H1 as (? & _ & H1). apply bind_Ok in H1 as (? & _ & H1).
    apply bind_Ok in H1 as (? & _ & H1). apply bind_Ok in H1 as (? & _ & H1).
    apply bind_Ok in H1 as (? & _ & H1). injection H1 as <-.
    simpl in *. rewrite length_app in Ha, Hb. simpl in *. lia.
Qed.

Lemma eval_image_log (a : Args F) im_size g acc img_id s acc' s' :
  eval_image a im_size g acc img_id s = (Ok acc', s') →
  ∃ e, s' = set_summary (summary s ++ [e]) s
    ∧ tag_step e = ("test/image_" +:+ format_04d img_id, g).
Proof.
  unfold eval_image. intros H.
  apply run_bind_Ok in H as (s0 & s1 & [-> ->]%run_get_Ok & H).
  apply run_bind_Ok in H as ([all_rgbs all_mses] & s1 & [Hr ->]%run_lift_Ok & H).
  apply bind_Ok in Hr as (batches & _ & Hr).
  apply eval_batches_lengths in Hr as [Hl1 Hl2]. simpl in Hl1, Hl2.
  apply run_bind_Ok in H as ([] & s1 & Himg & H).
  apply run_bind_Ok in H as (m & s2 & [Hm ->]%run_lift_Ok & H).
  apply run_bind_Ok in H as (p & s2 & [_ ->]%run_lift_Ok & H).
  apply run_ret_Ok in H as [_ ->].
  destruct (decide (all_rgbs = [])) as [->|Hne].
  { destruct all_mses; [done|]. simpl in *. lia. }
  apply run_bind_Ok in Himg as (im & s2 & [_ ->]%run_lift_Ok & Himg).
  unfold add_image in Himg. apply run_modify_Ok in Himg as ->.
  by eexists.
Qed.

Lemma eval_images_log (a : Args F) im_size g (ids : list Z) acc s acc' s' :
  foldM (eval_image a im_size g) acc ids s = (Ok acc', s') →
  ∃ images, s' = set_summary (summary s ++ images) s
    ∧ tag_step <$> images = (λ id, ("test/image_" +:+ format_04d id, g)) <$> ids.
Proof.
  revert acc s. induction ids as [|id ids IH]; intros acc s H.
  - apply run_ret_Ok in H as [_ ->]. exists []. rewrite app_nil_r. by destruct s.
  - change (foldM ?f ?b (?x :: ?l)) with (f b x ≫= λ b', foldM f b' l) in H.
    apply run_bind_Ok in H as (acc1 & s1 & H1 & H).
    apply eval_image_log in H1 as (e & -> & He).
    apply IH in H as (images & -> & Himages).
    exists (e :: images). split.
    + simpl. by rewrite <- app_assoc.
    + by rewrite fmap_cons, He, Himages.
Qed.

Lemma eval_step_tag_steps (a : Args F) s s' :
  eval_step a s = (Ok tt, s') →
  ∃ ids new,
    py_range 0 (n_images (dset_test s)) (n_images (dset_test s) `div` 5) = Ok ids
    ∧ summary s' = summary s ++ new
    ∧ tag_step <$> new = eval_tag_steps (base_step s) ids.
Proof.
  unfold eval_step. intros H.
  apply run_bind_Ok in H as (s0 & s1 & [-> ->]%run_get_Ok & H).
  apply run_bind_Ok in H as (interval & s1 & [Hi ->]%run_lift_Ok & H).
  unfold py_floordiv in Hi. rewrite decide_False in Hi by done. injection Hi as <-.
  apply run_bind_Ok in H as (ids & s1 & [Hids ->]%run_lift_Ok & H).
  apply run_bind_Ok in H as ([stats n'] & s1 & Hfold & H).
  apply eval_images_log in Hfold as (images & -> & Himages).
  unfold add_scalar in H. run_inv H.
  exists ids. eexists (images ++ [_; _; _]). split; [done|].
  split; [simpl; by rewrite <- !app_assoc|].
  by rewrite fmap_app, Himages.
Qed.

(** X17.  The summary of one completed [eval_step]: one image per
    rendered test image, tagged [test/image_<id as %04d>], in the order of
    the ids, then [test/psnr], [test/mse] and [epoch_id], in this order,
    all at step [epoch_id * batches_per_epoch]; that is three emissions
    more than images rendered, and every image was emitted. *)
Theorem eval_step_log (a : Args F) s s' :
  eval_step a s = (Ok tt, s') →
  ∃ ids new,
    py_range 0 (n_images (dset_test s)) (n_images (dset_test s) `div` 5) = Ok ids
    ∧ summary s' = summary s ++ new
    ∧ tag_step <$> new = eval_tag_steps (base_step s) ids
    ∧ length new = (length ids + 3)%nat.
Proof.
  intros (ids & new & Hids & Hnew & Hlab)%eval_step_tag_steps.
  exists ids, new. split_and!; [done..|].
  apply (f_equal length) in Hlab. unfold eval_tag_steps in Hlab.
  rewrite length_fmap, length_app, length_fmap in Hlab. by rewrite Hlab.
Qed.

Lemma py_range_unit (n : Z) : py_range 0 n 1 = Ok (seqZ 0 n).
Proof.
  rewrite py_range_up by lia. f_equal. unfold range_count.
  destruct (decide (0 < n)).
  - rewrite Z.div_1_r. replace (n - 0 - 1 + 1) with n by lia.
    rewrite <- (list_fmap_id (seqZ 0 n)) at 2.
    apply list_fmap_ext. intros _ k _. simpl. lia.
  - unfold seqZ. by replace (Z.to_nat n) with 0%nat by lia.
Qed.

Lemma epoch_body_log (a : Args F) (e : Z) s s' :
  1 ≤ print_every a → 1 ≤ batch_size a →
  epoch_body a e s = (Ok tt, s') →
  run_constants s' = run_constants s
  ∧ ∃ new, summary s' = summary s ++ new
      ∧ tag_step <$> new = epoch_tag_steps a s e.
Proof.
  intros Hp Hb H. split.
  { pose proof (epoch_body_constants a e s) as Hc. by rewrite H in Hc. }
  unfold epoch_body in H.
  apply run_bind_Ok in H as ([] & s1 & ->%run_modify_Ok & H).
  apply run_bind_Ok in H as ([] & s2 & Heval & H).
  apply run_bind_Ok in H as ([] & s3 & Htrain & H).
  unfold save_checkpoint, np_savez in H. run_inv H.
  pose proof (eval_step_only_emits a (set_epoch_id e s)) as [new0 Hs2].
  rewrite Heval in Hs2. simpl in Hs2.
  apply eval_step_tag_steps in Heval as (ids & new1 & Hids & Hnew1 & Hlab1).
  apply train_step_report_labels in Htrain as (new2 & Hnew2 & Hlab2); [|done|done].
  exists (new1 ++ new2). simpl. split.
  - rewrite Hnew2, Hnew1. simpl. by rewrite app_assoc.
  - rewrite fmap_app, Hlab1, Hlab2. unfold epoch_tag_steps, eval_ids.
    simpl in Hids. rewrite Hids. subst s2. done.
Qed.

(** X18.  The whole summary of a completed run, for [print_every >= 1]
    and [batch_size >= 1]: epoch after epoch, the emissions of the
    evaluation (X17) at step [e * batches_per_epoch], followed by the
    training reports (X12) of that epoch; the same test images and the
    same number of reports in every epoch. *)
Theorem completed_run_log (a : Args F) s s' :
  1 ≤ print_every a → 1 ≤ batch_size a →
  epoch_loop a s = (Ok tt, s') →
  ∃ new,
    summary s' = summary s ++ new
    ∧ tag_step <$> new = concat (epoch_tag_steps a s <$> seqZ 0 (n_epochs a)).
Proof.
  intros Hp Hb. unfold epoch_loop, for_each. rewrite py_range_unit, run_lift_bind.
  generalize (seqZ 0 (n_epochs a)). intros epochs.
  assert (∀ s1, run_constants s1 = run_constants s →
            foldM (λ _ e, epoch_body a e) () epochs s1 = (Ok (), s') →
            ∃ new, summary s' = summary s1 ++ new
              ∧ tag_step <$> new = concat (epoch_tag_steps a s <$> epochs)) as Hgen.
  { induction epochs as [|e epochs IH]; intros s1 Hc H.
    - apply run_ret_Ok in H as [_ ->]. exists []. by rewrite app_nil_r.
    - change (foldM ?f ?b (?x :: ?l)) with (f b x ≫= λ b', foldM f b' l) in H.
      apply run_bind_Ok in H as ([] & s2 & H1 & H).
      apply epoch_body_log in H1 as (Hc2 & new1 & Hnew1 & Hlab1); [|done|done].
      apply IH in H as (new & Hnew & Hlab); [|congruence].
      exists (new1 ++ new). split.
      + rewrite Hnew, Hnew1. by rewrite app_assoc.
      + rewrite fmap_app, Hlab1, Hlab. simpl. f_equal.
        unfold epoch_tag_steps, eval_ids, n_batches.
        unfold run_constants in Hc. by injection Hc as _ _ -> -> -> _. }
  by apply Hgen.
Qed.
End LogShape.

(** ** Evaluation batches and an exact fit *)

Section EvalBatches.
Context {F : Type} {SF : Scalar F} {EF : Extern F}.
Implicit Types (s : State).

(** X20.  With at least five test images, [--eval_batch_size 0] ends
    [eval_step] at [range(0, im_size, 0)] with a [ValueError]; a negative
    one leaves that range empty, no image is emitted and
    [torch.cat(all_mses)] raises what the library raises for an empty
    list.  Either way nothing has been emitted. *)
Theorem bad_eval_batch_size_stops_evaluation (a : Args F) s :
  5 ≤ n_images (dset_test s) →
  (eval_batch_size a = 0 → eval_step a s = (Raise ValueError, s))
  ∧ (eval_batch_size a < 0 → 0 ≤ h (dset_test s) * w (dset_test s) →
     eval_step a s = (Raise cat_empty_error, s)).
Proof.
  intros Hn.
  assert (1 ≤ n_images (dset_test s) `div` 5) as Hk.
  { apply Z.div_le_lower_bound; lia. }
  destruct (range_first (n_images (dset_test s)) (n_images (dset_test s) `div` 5)
              Hk ltac:(lia)) as [ids Hids].
  assert (∀ e,
    (lift (py_range 0 (h (dset_test s) * w (dset_test s)) (eval_batch_size a)
           ≫= foldR (eval_batch a s (h (dset_test s) * w (dset_test s)) 0) ([], []))
     ≫= λ rendered, let '(all_rgbs, all_mses) := rendered in
          (if decide (all_rgbs = []) then mret tt
           else im ← lift (torch_cat cat_empty_error all_rgbs
                           ≫= view_hw (h (dset_test s)) (w (dset_test s)));
                add_image ("test/image_" +:+ format_04d 0) im
                  (epoch_id s * batches_per_epoch s));;
          mse_num ← lift ((λ t, fmean (concat t))
                          <$> torch_cat cat_empty_error all_mses);
          psnr_num ← lift (psnr_of_mse mse_num);
          mret (add_stats (zero_stats, 0).1 mse_num psnr_num, (zero_stats, 0).2 + 1)) s
    = (Raise e, s) → eval_step a s = (Raise e, s)) as Hstep.
  { intros e He. unfold eval_step. rewrite run_get_bind, run_lift_bind.
    unfold py_floordiv. rewrite decide_False by done.
    rewrite run_lift_bind, Hids, run_bind.
    change (foldM ?f ?b (?x :: ?l)) with (f b x ≫= λ b', foldM f b' l).
    rewrite run_bind. unfold eval_image at 1. rewrite run_get_bind.
    by rewrite He. }
  split.
  - intros Hz. apply Hstep. rewrite run_lift_bind.
    unfold py_range. by rewrite decide_True.
  - intros Hneg Hsize. apply Hstep. rewrite run_lift_bind.
    unfold py_range. rewrite decide_False, decide_False by lia.
    replace (Z.to_nat (0 - h (dset_test s) * w (dset_test s))) with 0%nat by lia.
    done.
Qed.
End EvalBatches.

Section PerfectFit.
Context {EF : Extern R}.
Implicit Types (s : State).

Lemma squared_error_diag (x : tensor2 R) :
  squared_error x x = Ok ((λ row : list R, (λ _, 0%R) <$> row) <$> x).
Proof.
  unfold squared_error, tensor_zip. rewrite decide_True by done. f_equal.
  induction x as [|row x IH]; [done|]. simpl. f_equal; [|done].
  clear. induction row as [|v row IH]; [done|]. simpl. f_equal; [|done].
  unfold Rminus. by rewrite Rplus_opp_r, Rmult_0_l.
Qed.

Lemma mse_loss_diag (x : tensor2 R) : mse_loss x x = Ok 0%R.
Proof.
  unfold mse_loss. rewrite squared_error_diag. simpl. f_equal.
  unfold R_mean.
  assert (∀ l : list R, Forall (λ v, v = 0%R) l → foldr Rplus 0%R l = 0%R) as Hsum.
  { induction 1 as [|v l -> _ IH]; [done|]. simpl. rewrite IH. apply Rplus_0_l. }
  rewrite Hsum; [unfold Rdiv; apply Rmult_0_l|].
  apply Forall_concat, Forall_fmap, Forall_true. intros row. simpl.
  apply Forall_fmap, Forall_true. done.
Qed.

(** X21.  A batch rendered exactly ends the training: over the reals,
    when [grid.volume_render] returns the ground-truth colours of a batch
    that is not empty, the loss is [0.0], [math.log10(0.0)] raises
    [ValueError], and the iteration stops before [mse.backward()] with the
    state as it was. *)
Theorem perfect_fit_stops_training (a : Args R) st iter_id batch_begin s :
  let batch_end := Z.min (batch_begin + batch_size a) (epoch_size s) in
  let batch t := py_slice batch_begin batch_end t in
  batch (gt (rays (dset s))) ≠ [] →
  volume_render (grid_opt s) (grid_links s) (grid_data s)
    (batch (origins (rays (dset s)))) (batch (dirs (rays (dset s))))
  = Ok (batch (gt (rays (dset s)))) →
  train_iter a st (iter_id, batch_begin) s = (Raise ValueError, s).
Proof.
  intros batch_end batch _ Hrender. subst batch batch_end. cbv beta in Hrender.
  unfold train_iter. rewrite run_get_bind. cbv zeta.
  rewrite run_lift_bind, Hrender, run_lift_bind, mse_loss_diag, run_lift_bind.
  unfold psnr_of_mse. simpl. unfold R_log10.
  destruct (Rle_dec 0 0) as [|Hn]; [done|]. destruct Hn. apply Rle_refl.
Qed.
End PerfectFit.

Lemma bad_eval_batch_size_stops_evaluation_witness :
  eval_step (with_eval_batch_size 0 toy_args) toy_state0 = (Raise ValueError, toy_state0)
  ∧ eval_step (with_eval_batch_size (-1) toy_args) toy_state0
    = (Raise cat_empty_error, toy_state0).
Proof.
  assert (5 ≤ n_images (dset_test toy_state0)) as Hn by (vm_compute; discriminate).
  split.
  - exact (proj1 (bad_eval_batch_size_stops_evaluation
                    (with_eval_batch_size 0 toy_args) toy_state0 Hn) eq_refl).
  - exact (proj2 (bad_eval_batch_size_stops_evaluation
                    (with_eval_batch_size (-1) toy_args) toy_state0 Hn) eq_refl
             ltac:(vm_compute; discriminate)).
Defined.

Lemma perfect_fit_stops_training_witness :
  train_iter real_args zero_stats (0, 0) fit_state = (Raise ValueError, fit_state).
Proof.
  apply (perfect_fit_stops_training real_args zero_stats 0 0 fit_state).
  - vm_compute. discriminate.
  - reflexivity.
Defined.

Lemma eval_step_log_witness :
  ∃ ids new,
    py_range 0 (n_images (dset_test toy_state0))
      (n_images (dset_test toy_state0) `div` 5) = Ok ids
    ∧ summary toy_state1 = summary toy_state0 ++ new
    ∧ tag_step <$> new = eval_tag_steps (base_step toy_state0) ids
    ∧ length new = (length ids + 3)%nat.
Proof.
  assert (eval_step toy_args toy_state0 = (Ok tt, toy_state1)) as Heval
    by (vm_compute; reflexivity).
  exact (eval_step_log toy_args toy_state0 toy_state1 Heval).
Defined.

Lemma completed_run_log_witness :
  ∃ new,
    summary toy_state_end = summary toy_state0 ++ new
    ∧ tag_step <$> new
      = concat (epoch_tag_steps toy_args toy_state0 <$> seqZ 0 (n_epochs toy_args)).
Proof.
  assert (epoch_loop toy_args toy_state0 = (Ok tt, toy_state_end)) as Hrun
    by (vm_cast_no_check (@eq_refl _ (Ok tt, toy_state_end))).
  assert (1 ≤ print_every toy_args) as Hp by (vm_compute; discriminate).
  assert (1 ≤ batch_size toy_args) as Hb by (vm_compute; discriminate).
  exact (completed_run_log toy_args toy_state0 toy_state_end Hp Hb Hrun).
Defined.

Lemma composite_white_accepts_witness :
  ¬ ∃ im : image Z, composite_white (to_unit_range [[[255; 0; 0]]]) = Ok im.
Proof.
  intros Hex.
  apply (proj1 (composite_white_accepts (F := Z) [[[255; 0; 0]]])) in Hex.
  apply Forall_cons in Hex as [Hrow _]. apply Forall_cons in Hrow as [Hpx _].
  unfold composable in Hpx. simpl in Hpx. lia.
Defined.

(** * The training trace, the reports and the steps of the summary *)

(** ** Groups of batches and the trace of the training loop *)

Section Groups.
Context {X : Type}.
Implicit Types (xs : list X) (p : nat).

Lemma groups_of_short p xs : (length xs < p)%nat → groups_of p xs = [].
Proof. intros Hlt. unfold groups_of. by rewrite Nat.div_small. Qed.

Lemma groups_of_app_full p (g rest : list X) :
  (0 < p)%nat → length g = p → groups_of p (g ++ rest) = g :: groups_of p rest.
Proof.
  intros Hp Hg. unfold groups_of. rewrite length_app, Hg.
  replace ((p + length rest) / p)%nat with (S (length rest / p)).
  2:{ replace (p + length rest)%nat with (1 * p + length rest)%nat by lia.
      rewrite Nat.div_add_l by lia. lia. }
  cbn [seq]. rewrite <- fmap_S_seq, fmap_cons. f_equal.
  - simpl. rewrite drop_0, take_app_length'; done.
  - rewrite <- list_fmap_compose. apply list_fmap_ext. intros _ j _. simpl.
    f_equal. rewrite drop_app_ge by lia. f_equal. lia.
Qed.

Lemma groups_of_concat p xs :
  (0 < p)%nat → concat (groups_of p xs) = take (length xs / p * p) xs.
Proof.
  intros Hp. remember (length xs / p)%nat as n eqn:Hn. revert xs Hn.
  induction n as [|n IH]; intros xs Hn.
  - unfold groups_of. by rewrite <- Hn.
  - assert (p ≤ length xs)%nat as Hle.
    { destruct (decide (p ≤ length xs)%nat); [done|].
      rewrite Nat.div_small in Hn by lia. done. }
    rewrite <- (take_drop p xs) at 1.
    rewrite groups_of_app_full by (rewrite ?length_take; lia).
    simpl. rewrite IH.
    + rewrite take_take_drop. f_equal. 
    + rewrite length_drop.
      replace (length xs) with (1 * p + (length xs - p))%nat in Hn by lia.
      rewrite Nat.div_add_l in Hn by lia. lia.
Qed.
End Groups.

Section Trace.
Context {F : Type} {SF : Scalar F} {EF : Extern F}.
Implicit Types (s : State).

Lemma psnr_of_mse_formula (m p : F) : psnr_of_mse m = Ok p ↔ psnr_formula m p.
Proof.
  unfold psnr_of_mse, psnr_formula. split.
  - intros (l & Hl & [= <-])%bind_Ok. by exists l.
  - intros (l & Hl & ->). by rewrite Hl.
Qed.

Lemma mse_loss_Ok (x y : tensor2 F) m :
  mse_loss x y = Ok m → shape2 y = shape2 x ∧ m = mean_square x y.
Proof.
  unfold mse_loss, squared_error, tensor_zip.
  destruct (decide (shape2 x = shape2 y)) as [Hs|]; [|done].
  simpl. by intros [= <-].
Qed.

(** A completed iteration: the loss of its batch, what it reports, and
    what it leaves as it was. *)
Lemma train_iter_batch (a : Args F) st k b s st' s' :
  train_iter a st (k, b) s = (Ok st', s') →
  ∃ mp s1,
    batch_loss a s b mp
    ∧ report_stats a k (add_stats st mp.1 mp.2) s = (Ok st', s1)
    ∧ summary s' = summary s1
    ∧ dset s' = dset s ∧ epoch_size s' = epoch_size s.
Proof.
  unfold train_iter. intros H.
  apply run_bind_Ok in H as (s0 & s1 & [-> ->]%run_get_Ok & H).
  apply run_bind_Ok in H as (pred & s1 & [Hpred ->]%run_lift_Ok & H).
  apply run_bind_Ok in H as (m & s1 & [Hm ->]%run_lift_Ok & H).
  apply run_bind_Ok in H as (p & s1 & [Hp ->]%run_lift_Ok & H).
  apply run_bind_Ok in H as (st1 & s1 & Hrep & H).
  apply run_bind_Ok in H as ([] & s2 & Hback & H).
  apply run_bind_Ok in H as ([] & s3 & Hsgd & H).
  apply run_ret_Ok in H as [-> ->].
  apply mse_loss_Ok in Hm as [Hshape ->].
  eexists (mean_square _ pred, p), s1. split; [|split; [exact Hrep|]].
  { exists pred. split_and!; [done|done|done|by apply psnr_of_mse_formula]. }
  lazymatch type of Hrep with
  | report_stats a k ?st0 s = _ =>
      pose proof (report_stats_only_emits a k st0 s) as [new Hs1]
  end.
  rewrite Hrep in Hs1.
  apply backward_Ok in Hback as (fresh & g & _ & _ & ->).
  apply sgd_step_Ok in Hsgd as (g' & _ & _ & _ & ->).
  simpl in Hs1. subst s1. done.
Qed.

Lemma train_loop_trace (a : Args F) (l : list Z) (k : Z) st s st' s' :
  foldM (train_iter a) st (zip (seqZ k (Z.of_nat (length l))) l) s = (Ok st', s') →
  ∃ tr, train_trace a k s l tr s'.
Proof.
  revert k st s. induction l as [|b l IH]; intros k st s.
  - intros [_ ->]%run_ret_Ok. exists []. constructor.
  - rewrite seqZ_cons by (simpl; lia).
    replace (Z.pred (Z.of_nat (length (b :: l)))) with (Z.of_nat (length l))
      by (simpl; lia).
    change (foldM ?f st (zip (k :: ?ks) (b :: l)))
      with (f st (k, b) ≫= λ st', foldM f st' (zip ks l)).
    intros (st1 & s1 & Hiter & Hrest)%run_bind_Ok.
    destruct (train_iter_batch _ _ _ _ _ _ _ Hiter) as (mp & s0 & Hloss & _).
    apply IH in Hrest as [tr Htr].
    exists ((s, mp) :: tr). econstructor; [exact Hiter|exact Hloss|].
    by replace (k + 1) with (Z.succ k) by lia.
Qed.

Lemma train_trace_length (a : Args F) k s l tr s' :
  train_trace a k s l tr s' → length tr = length l.
Proof. induction 1; simpl; congruence. Qed.

Lemma train_trace_losses (a : Args F) k s l tr s' :
  train_trace a k s l tr s' →
  Forall2 (λ b smp, batch_loss a smp.1 b smp.2) l tr.
Proof. induction 1; by constructor. Qed.

Lemma train_trace_frame (a : Args F) k s l tr s' :
  train_trace a k s l tr s' →
  dset s' = dset s ∧ epoch_size s' = epoch_size s
  ∧ Forall (λ smp, dset smp.1 = dset s ∧ epoch_size smp.1 = epoch_size s) tr.
Proof.
  induction 1 as [|k s b bs st st' s1 mp tr s' Hiter _ _ (Hd & He & Hall)];
    [by split_and!|].
  apply train_iter_batch in Hiter as (_ & _ & _ & _ & _ & Hd1 & He1).
  split; [congruence|]. split; [congruence|].
  constructor; [done|]. eapply Forall_impl; [exact Hall|].
  simpl. intros smp [? ?]. split; congruence.
Qed.

(** The loop over the batches, started at iteration [k] with the running
    sums of the items [cur] of a group not yet reported: its trace, and
    what it reports. *)
Lemma train_loop_trace_reports (a : Args F) (l : list Z) (k : Z) st s st' s' cur :
  1 ≤ print_every a →
  foldM (train_iter a) st (zip (seqZ k (Z.of_nat (length l))) l) s = (Ok st', s') →
  sums st cur →
  Z.of_nat (length cur) = k `mod` print_every a →
  ∃ tr new,
    train_trace a k s l tr s'
    ∧ summary s' = summary s ++ new
    ∧ labelled <$> new
      = concat (train_report (print_every a)
                <$> groups_of (Z.to_nat (print_every a)) (cur ++ tr.*2)).
Proof.
  intros Hpe. revert k st s cur. induction l as [|b l IH]; intros k st s cur.
  - intros [_ ->]%run_ret_Ok _ Hlen. exists [], []. split; [constructor|].
    rewrite !app_nil_r. split; [done|].
    pose proof (Z.mod_pos_bound k (print_every a) ltac:(lia)).
    rewrite groups_of_short by lia. done.
  - rewrite seqZ_cons by (simpl; lia).
    replace (Z.pred (Z.of_nat (length (b :: l)))) with (Z.of_nat (length l))
      by (simpl; lia).
    change (foldM ?f st (zip (k :: ?ks) (b :: l)))
      with (f st (k, b) ≫= λ st', foldM f st' (zip ks l)).
    intros (st1 & s1 & Hiter & Hrest)%run_bind_Ok Hsums Hlen.
    destruct (train_iter_batch _ _ _ _ _ _ _ Hiter)
      as ([m p] & s0 & Hloss & Hrep & Hsum1 & _).
    simpl in Hrep.
    apply report_stats_Ok in Hrep as [_ Hrep].
    pose proof (sums_snoc st cur m p Hsums) as Hsums1.
    pose proof (Z.mod_pos_bound k (print_every a) ltac:(lia)) as Hk.
    assert ((Z.succ k) `mod` print_every a
            = (k `mod` print_every a + 1) `mod` print_every a) as Hsucc.
    { replace (Z.succ k) with (k + 1) by lia.
      by rewrite <- Zplus_mod_idemp_l. }
    replace (k + 1) with (Z.succ k) in Hrep by lia. rewrite Hsucc in Hrep.
    destruct Hrep as [(Hmod & -> & ->)|(Hmod & -> & new1 & -> & Hnew1)].
    + apply (IH _ _ _ (cur ++ [(m, p)])) in Hrest as (tr & new & Htr & Hnew & Hlab);
        [|done|].
      * exists ((s, (m, p)) :: tr), new. split_and!.
        -- econstructor; [exact Hiter|exact Hloss|].
           by replace (k + 1) with (Z.succ k) by lia.
        -- congruence.
        -- rewrite Hlab. rewrite fmap_cons. simpl. by rewrite <- app_assoc.
      * rewrite length_app, Hsucc. simpl.
        destruct (decide (k `mod` print_every a + 1 < print_every a)) as [Hlt|Hge].
        { rewrite Z.mod_small; lia. }
        assert (k `mod` print_every a + 1 = print_every a) as Heq by lia.
        rewrite Heq, Z_mod_same_full in Hmod. done.
    + assert (k `mod` print_every a + 1 = print_every a) as Heq.
      { destruct (decide (k `mod` print_every a + 1 < print_every a)) as [Hlt|Hge]; [|lia].
        rewrite Z.mod_small in Hmod; lia. }
      apply (IH _ _ _ []) in Hrest as (tr & new & Htr & Hnew & Hlab);
        [|apply sums_zero|].
      * exists ((s, (m, p)) :: tr), (new1 ++ new). split_and!.
        -- econstructor; [exact Hiter|exact Hloss|].
           by replace (k + 1) with (Z.succ k) by lia.
        -- rewrite Hnew, Hsum1. simpl. by rewrite app_assoc.
        -- rewrite fmap_app, Hnew1, Hlab. rewrite fmap_cons. simpl.
           replace (cur ++ (m, p) :: tr.*2) with ((cur ++ [(m, p)]) ++ tr.*2)
             by (by rewrite <- app_assoc).
           rewrite groups_of_app_full by (rewrite ?length_app; simpl; lia).
           rewrite fmap_cons. simpl.
           unfold train_report at 1, mean_of. destruct Hsums1 as [<- <-]. done.
      * rewrite Hsucc, Heq, Z_mod_same_full. done.
Qed.

(** A completed [train_step]: the shuffle, then the trace of the loop
    over [range(0, epoch_size, batch_size)]. *)
Lemma train_step_trace (a : Args F) s s' :
  train_step a s = (Ok tt, s') →
  ∃ begins s1 st st',
    py_range 0 (epoch_size s) (batch_size a) = Ok begins
    ∧ shuffle_dset s = (Ok tt, s1)
    ∧ foldM (train_iter a) st (zip (seqZ 0 (Z.of_nat (length begins))) begins) s1
      = (Ok st', s')
    ∧ st = zero_stats
    ∧ summary s1 = summary s ∧ epoch_size s1 = epoch_size s
    ∧ batches_per_epoch s1 = batches_per_epoch s ∧ epoch_id s1 = epoch_id s.
Proof.
  unfold train_step. intros H.
  apply run_bind_Ok in H as (s0 & s1 & [-> ->]%run_get_Ok & H).
  apply run_bind_Ok in H as (begins & s1 & [Hrange ->]%run_lift_Ok & H).
  apply run_bind_Ok in H as ([] & s1 & Hsh & H).
  apply run_bind_Ok in H as (st & s2 & Hloop & H).
  apply run_ret_Ok in H as [_ ->].
  pose proof (shuffle_dset_silent s) as [(Hs1 & Hs2 & Hs3) Hs4].
  rewrite Hsh in Hs1, Hs2, Hs3, Hs4. simpl in *.
  rewrite enumerate_zip in Hloop.
  exists begins, s1, zero_stats, st. by split_and!.
Qed.
End Trace.

Section ImageLoss.
Context {F : Type} {SF : Scalar F} {EF : Extern F}.
Implicit Types (s : State).

Lemma zip_with_concat {A B C} (f : A → B → C) (xs : list (list A)) (ys : list (list B)) :
  Forall2 (λ x y, length x = length y) xs ys →
  concat (zip_with (zip_with f) xs ys) = zip_with f (concat xs) (concat ys).
Proof.
  induction 1 as [|x y xs ys Hl _ IH]; [done|].
  simpl. rewrite IH. by rewrite zip_with_app.
Qed.

Lemma eval_batch_Ok (a : Args F) s img_id acc b acc' :
  eval_batch a s (h (dset_test s) * w (dset_test s)) img_id acc b = Ok acc' →
  ∃ o d g pred,
    py_index (origins (rays (dset_test s))) img_id = Ok o
    ∧ py_index (dirs (rays (dset_test s))) img_id = Ok d
    ∧ py_index (gt (rays (dset_test s))) img_id = Ok g
    ∧ volume_render (grid_opt s) (grid_links s) (grid_data s)
        (py_slice b (image_batch_end a s b) o) (py_slice b (image_batch_end a s b) d)
      = Ok pred
    ∧ shape2 pred = shape2 (py_slice b (image_batch_end a s b) g)
    ∧ acc' = (acc.1 ++ [pred],
              acc.2 ++ [zip_with (zip_with (λ u v, fmul (fsub u v) (fsub u v)))
                          (py_slice b (image_batch_end a s b) g) pred]).
Proof.
  unfold eval_batch. fold (image_batch_end a s b). intros H.
  apply bind_Ok in H as (bo & Hbo & H). apply fmap_Ok in Hbo as (o & Ho & ->).
  apply bind_Ok in H as (bd & Hbd & H). apply fmap_Ok in Hbd as (d & Hd & ->).
  apply bind_Ok in H as (bg & Hbg & H). apply fmap_Ok in Hbg as (g & Hg & ->).
  apply bind_Ok in H as (pred & Hpred & H).
  apply bind_Ok in H as (se & Hse & H). injection H as <-.
  unfold squared_error, tensor_zip in Hse.
  destruct (decide _) as [Hshape|]; [|done]. injection Hse as <-.
  by exists o, d, g, pred.
Qed.

Lemma eval_batches_Ok (a : Args F) s img_id (l : list Z) acc acc' o d g :
  py_index (origins (rays (dset_test s))) img_id = Ok o →
  py_index (dirs (rays (dset_test s))) img_id = Ok d →
  py_index (gt (rays (dset_test s))) img_id = Ok g →
  foldR (eval_batch a s (h (dset_test s) * w (dset_test s)) img_id) acc l = Ok acc' →
  ∃ preds,
    Forall2 (λ b pred,
       volume_render (grid_opt s) (grid_links s) (grid_data s)
         (py_slice b (image_batch_end a s b) o) (py_slice b (image_batch_end a s b) d)
       = Ok pred
       ∧ shape2 pred = shape2 (py_slice b (image_batch_end a s b) g)) l preds
    ∧ acc'.1 = acc.1 ++ preds
    ∧ acc'.2 = acc.2 ++ zip_with (zip_with (zip_with (λ u v, fmul (fsub u v) (fsub u v))))
                          ((λ b, py_slice b (image_batch_end a s b) g) <$> l) preds.
Proof.
  intros Ho Hd Hg. revert acc. induction l as [|b l IH]; intros acc H.
  - injection H as <-. exists []. rewrite !app_nil_r. by split_and!.
  - simpl in H. apply bind_Ok in H as (acc1 & H1 & H).
    apply eval_batch_Ok in H1 as (o' & d' & g' & pred & Ho' & Hd' & Hg' & Hp & Hs & ->).
    rewrite Ho in Ho'. rewrite Hd in Hd'. rewrite Hg in Hg'.
    injection Ho' as <-. injection Hd' as <-. injection Hg' as <-.
    apply IH in H as (preds & Hall & H1 & H2). simpl in H1, H2.
    exists (pred :: preds). split_and!.
    + by constructor.
    + by rewrite H1, <- app_assoc.
    + rewrite H2, <- app_assoc. done.
Qed.

Lemma image_mse_loss (a : Args F) s img_id m p :
  image_mse a s img_id = Ok m → psnr_of_mse m = Ok p →
  image_loss a s img_id (m, p).
Proof.
  unfold image_mse. intros H Hp.
  apply bind_Ok in H as ([rgbs mses] & Hr & H).
  apply bind_Ok in Hr as (begins & Hbegins & Hr).
  apply fmap_Ok in H as (t & Ht & ->). simpl in Ht.
  destruct begins as [|b begins].
  { injection Hr as <- <-. done. }
  assert (∃ o d g, py_index (origins (rays (dset_test s))) img_id = Ok o
                   ∧ py_index (dirs (rays (dset_test s))) img_id = Ok d
                   ∧ py_index (gt (rays (dset_test s))) img_id = Ok g)
    as (o & d & g & Ho & Hd & Hg).
  { simpl in Hr. apply bind_Ok in Hr as (acc1 & H1 & _).
    apply eval_batch_Ok in H1 as (o & d & g & _ & Ho & Hd & Hg & _).
    by exists o, d, g. }
  apply (eval_batches_Ok a s img_id _ _ _ o d g Ho Hd Hg) in Hr
    as (preds & Hall & _ & Hmses).
  cbn [fst snd] in Hmses. rewrite app_nil_l in Hmses.
  exists o, d, g, (b :: begins), preds.
  split_and!; [done|done|done|done|done| |by apply psnr_of_mse_formula].
  cbn [fst]. unfold torch_cat in Ht.
  assert (t = concat mses) as -> by (destruct mses; [done|by injection Ht as <-]).
  rewrite Hmses. unfold mean_square. f_equal. f_equal.
  apply zip_with_concat.
  clear -Hall. induction Hall as [|b' pred bs ps [_ Hs] _ IH]; [constructor|].
  rewrite fmap_cons. constructor; [|done].
  apply (f_equal length) in Hs. unfold shape2 in Hs. by rewrite !length_fmap in Hs.
Qed.
End ImageLoss.

Section ReportsAndBatches.
Context {F : Type} {SF : Scalar F} {EF : Extern F}.
Implicit Types (s : State).

Lemma Forall2_image_loss (a : Args F) s (ids : list Z) (items : list (F * F)) :
  Forall2 (λ id mp, image_mse a s id = Ok mp.1) ids items →
  psnr_pairs items →
  Forall2 (image_loss a s) ids items.
Proof.
  induction 1 as [|id [m p] ids items Hm _ IH]; intros Hp; [constructor|].
  apply Forall_cons in Hp as [Hp Hps].
  constructor; [by apply image_mse_loss|by apply IH].
Qed.

(** C6 (as amended).  Every PSNR the script computes, one per rendered
    test image and one per training batch, is [-10 * log10] of the mean
    squared error of that image or batch ([image_loss], [batch_loss]);
    what the script reports are arithmetic means of them.  A completed
    [eval_step] has rendered the images [img_ids], with the MSEs and PSNRs
    [items], and reported, after the image summaries, the mean of the
    PSNRs under [test/psnr] and the mean of the MSEs under [test/mse].  A
    completed [train_step], with [print_every >= 1], has gone through the
    batches [begins] of the shuffled rays, one iteration each (the trace
    [tr] holds the state each iteration started from and the MSE and PSNR
    of its batch), and has reported, for each group of [print_every]
    consecutive batches, the mean of their MSEs under [mse] and the mean
    of their PSNRs under [psnr]; the batches left over after the last
    whole group are in no report. *)
Theorem psnr_reports_are_means (a : Args F) (s s' : State) :
  (eval_step a s = (Ok tt, s') →
     ∃ img_ids items images new,
       py_range 0 (n_images (dset_test s)) (n_images (dset_test s) `div` 5) = Ok img_ids
       ∧ Forall2 (image_loss a s) img_ids items
       ∧ Forall is_image images
       ∧ summary s' = summary s ++ images ++ new
       ∧ labelled <$> new = eval_report (epoch_id s) items)
  ∧ (1 ≤ print_every a → train_step a s = (Ok tt, s') →
     let p := Z.to_nat (print_every a) in
     ∃ begins s1 tr new,
       py_range 0 (epoch_size s) (batch_size a) = Ok begins
       ∧ shuffle_dset s = (Ok tt, s1)
       ∧ train_trace a 0 s1 begins tr s'
       ∧ Forall2 (λ b smp, batch_loss a smp.1 b smp.2) begins tr
       ∧ summary s' = summary s ++ new
       ∧ labelled <$> new = concat (train_report (print_every a) <$> groups_of p tr.*2)
       ∧ concat (groups_of p tr.*2) = take (length begins / p * p) tr.*2).
Proof.
  split.
  - intros (ids & items & images & new & Hids & Hitems & Hpairs & Himages & Hsum & Hlab)
      %eval_step_reports.
    exists ids, items, images, new. split_and!; try done.
    by apply Forall2_image_loss.
  - intros Hpe Htrain p.
    apply train_step_trace in Htrain
      as (begins & s1 & st & st' & Hrange & Hsh & Hloop & -> & Hsum & _).
    apply (train_loop_trace_reports a begins 0 _ _ _ _ []) in Hloop
      as (tr & new & Htr & Hnew & Hlab); [|done|apply sums_zero|by rewrite Zmod_0_l].
    exists begins, s1, tr, new.
    pose proof (train_trace_length _ _ _ _ _ _ Htr) as Hlen.
    split_and!; try done.
    + by eapply train_trace_losses.
    + congruence.
    + rewrite groups_of_concat by (subst p; lia).
      by rewrite length_fmap, Hlen.
Qed.

(** C9.  The module level sets [batches_per_epoch] to
    [(epoch_size - 1) // batch_size + 1] for [epoch_size] training rays,
    and no epoch changes either.  With [epoch_size >= 1] and
    [batch_size >= 1], a completed [train_step] has gone, after the
    shuffle, through exactly [batches_per_epoch] iterations, the [k]-th on
    the batch that begins at [k * batch_size]: the rays
    [[b, min (b + batch_size) epoch_size)] of the shuffled training set
    ([batch_loss] names the slices rendered and compared).  Every batch is
    non-empty, lies inside [[0, epoch_size)] and has at most [batch_size]
    elements; an earlier batch ends no later than a later one starts;
    every ray index belongs to exactly one batch; and the batches of a
    tensor of [epoch_size] rows, put end to end, are that tensor. *)
Theorem train_batches_partition (a : Args F) :
  1 ≤ batch_size a →
  (∀ files disk0 s0, setup a files disk0 = Ok s0 →
     epoch_size s0 = Z.of_nat (length (origins (rays (dset s0))))
     ∧ batches_per_epoch s0 = (epoch_size s0 - 1) `div` batch_size a + 1)
  ∧ (∀ e s, epoch_size (epoch_body a e s).2 = epoch_size s
            ∧ batches_per_epoch (epoch_body a e s).2 = batches_per_epoch s)
  ∧ (∀ s s', 1 ≤ epoch_size s →
       batches_per_epoch s = (epoch_size s - 1) `div` batch_size a + 1 →
       train_step a s = (Ok tt, s') →
       let begins := (λ k, k * batch_size a) <$> seqZ 0 (batches_per_epoch s) in
       ∃ s1 tr,
         shuffle_dset s = (Ok tt, s1)
         ∧ train_trace a 0 s1 begins tr s'
         ∧ Z.of_nat (length tr) = batches_per_epoch s
         ∧ Forall2 (λ b smp, dset smp.1 = dset s1
                             ∧ batch_end a smp.1 b = batch_end a s b
                             ∧ batch_loss a smp.1 b smp.2) begins tr
         ∧ (∀ b, b ∈ begins →
              0 ≤ b < batch_end a s b ∧ batch_end a s b ≤ epoch_size s
              ∧ batch_end a s b - b ≤ batch_size a)
         ∧ (∀ (i j : nat) bi bj, (i < j)%nat →
              begins !! i = Some bi → begins !! j = Some bj → batch_end a s bi ≤ bj)
         ∧ (∀ r, 0 ≤ r < epoch_size s →
              ∃ (k : nat) b, begins !! k = Some b ∧ b ≤ r < batch_end a s b
                ∧ ∀ (k' : nat) b', begins !! k' = Some b' →
                    b' ≤ r < batch_end a s b' → k' = k)
         ∧ (∀ (A : Type) (l : list A), Z.of_nat (length l) = epoch_size s →
              concat ((λ b, batch_of a s b l) <$> begins) = l
              ∧ ∀ b, b ∈ begins →
                  Z.of_nat (length (batch_of a s b l)) = batch_end a s b - b)).
Proof.
  intros Hbs. split_and!.
  - intros files disk0 s0 Hs.
    pose proof (setup_Ok _ _ _ _ Hs) as (_ & _ & _ & _ & _ & Hb).
    apply setup_inv in Hs as (train & test & q & _ & _ & _ & Hd & _ & _ & Hes & _).
    by rewrite Hd.
  - intros e s. pose proof (epoch_body_constants a e s) as Hc.
    unfold preserved, run_constants in Hc. by injection Hc as _ _ _ -> -> _.
  - intros s s' Hes Hgeo Htrain begins.
    destruct (range_batches_partition (epoch_size s) (batch_size a) Hes Hbs)
      as (begins' & Hrange & Hbegins & Hlen & _ & Hin & Hdisj & Hcover & Hcat).
    rewrite <- Hgeo in Hbegins. fold begins in Hbegins. subst begins'.
    apply train_step_trace in Htrain
      as (l & s1 & st & st' & Hrange' & Hsh & Hloop & _ & _ & Hes1 & _).
    rewrite Hrange in Hrange'. injection Hrange' as <-.
    apply train_loop_trace in Hloop as [tr Htr].
    exists s1, tr.
    pose proof (train_trace_length _ _ _ _ _ _ Htr) as Hltr.
    pose proof (train_trace_frame _ _ _ _ _ _ Htr) as (_ & _ & Hframe).
    pose proof (train_trace_losses _ _ _ _ _ _ Htr) as Hloss.
    split_and!; try done.
    + rewrite Hltr. by rewrite <- Hgeo in Hlen.
    + clear -Hframe Hloss Hes1. induction Hloss as [|b smp bs tr Hl _ IH]; [constructor|].
      apply Forall_cons in Hframe as [[Hd He] Hframe].
      constructor; [|by apply IH].
      split; [done|]. split; [|done]. unfold batch_end. congruence.
Qed.
End ReportsAndBatches.

Lemma psnr_reports_are_means_witness :
  (∃ ids items, Forall2 (image_loss toy_args toy_state0) ids items
     ∧ ∃ images new, summary toy_state1 = summary toy_state0 ++ images ++ new
         ∧ labelled <$> new = eval_report (epoch_id toy_state0) items)
  ∧ (∃ begins s1 tr new,
       train_trace toy_args 0 s1 begins tr toy_state2
       ∧ Forall2 (λ b smp, batch_loss toy_args smp.1 b smp.2) begins tr
       ∧ summary toy_state2 = summary toy_state1 ++ new
       ∧ labelled <$> new = concat (train_report 2 <$> groups_of 2 tr.*2)).
Proof.
  assert (eval_step toy_args toy_state0 = (Ok tt, toy_state1)) as Heval
    by (vm_compute; reflexivity).
  assert (train_step toy_args toy_state1 = (Ok tt, toy_state2)) as Htrain
    by (vm_compute; reflexivity).
  destruct (psnr_reports_are_means toy_args toy_state0 toy_state1) as [He _].
  destruct (psnr_reports_are_means toy_args toy_state1 toy_state2) as [_ Ht].
  split.
  - destruct (He Heval) as (ids & items & images & new & _ & Hloss & _ & Hsum & Hlab).
    exists ids, items. split; [exact Hloss|]. exists images, new.
    split; [exact Hsum|exact Hlab].
  - destruct (Ht ltac:(vm_compute; discriminate) Htrain)
      as (begins & s1 & tr & new & _ & _ & Htr & Hloss & Hsum & Hlab & _).
    exists begins, s1, tr, new. split; [exact Htr|]. split; [exact Hloss|].
    split; [exact Hsum|exact Hlab].
Defined.

Lemma train_batches_partition_witness :
  ∃ s1 tr,
    shuffle_dset toy_state1 = (Ok tt, s1)
    ∧ train_trace toy_args 0 s1 [0; 5; 10; 15] tr toy_state2
    ∧ Z.of_nat (length tr) = 4
    ∧ concat ((λ b, batch_of toy_args toy_state1 b (seq 0 16)) <$> [0; 5; 10; 15])
      = seq 0 16.
Proof.
  assert (train_step toy_args toy_state1 = (Ok tt, toy_state2)) as Htrain
    by (vm_compute; reflexivity).
  destruct (train_batches_partition toy_args ltac:(vm_compute; discriminate))
    as (_ & _ & Hstep).
  destruct (Hstep toy_state1 toy_state2 ltac:(vm_compute; discriminate) eq_refl Htrain)
    as (s1 & tr & Hsh & Htr & Hlen & _ & _ & _ & _ & Hcat).
  exists s1, tr. split; [exact Hsh|]. split; [exact Htr|]. split; [exact Hlen|].
  exact (proj1 (Hcat nat (seq 0 16) eq_refl)).
Defined.

(** ** The steps of the summary, epoch by epoch *)

Section StepsByEpoch.
Context {F : Type} {SF : Scalar F} {EF : Extern F}.
Implicit Types (s : State).

#[global] Instance emits_evaluation_preorder g : PreOrder (emits_evaluation g).
Proof.
  split.
  - intros s. split; [done|]. exists []. rewrite app_nil_r. split; [done|constructor].
  - intros s1 s2 s3 (Hf1 & n1 & E1 & A1) (Hf2 & n2 & E2 & A2).
    split; [by eapply step_frame_trans|]. exists (n1 ++ n2).
    rewrite E2, E1, app_assoc. split; [done|]. by apply Forall_app.
Qed.

Lemma rel_evaluation_scalar t v g :
  eval_tag t → run_rel (emits_evaluation g) (add_scalar t v g).
Proof.
  intros Ht. apply rel_modify. intros s. split; [done|]. eexists. split; [done|].
  constructor; [by split|constructor].
Qed.

Lemma rel_evaluation_image t im g :
  eval_tag t → run_rel (emits_evaluation g) (add_image t im g).
Proof.
  intros Ht. apply rel_modify. intros s. split; [done|]. eexists. split; [done|].
  constructor; [by split|constructor].
Qed.

Lemma eval_image_evaluation (a : Args F) im_size g acc img_id :
  run_rel (emits_evaluation g) (eval_image a im_size g acc img_id).
Proof.
  unfold eval_image.
  repeat first [ apply rel_evaluation_image; unfold eval_tag; by eauto 6 | rel_step ].
Qed.

Lemma eval_step_evaluation (a : Args F) s :
  emits_evaluation (base_step s) s (eval_step a s).2.
Proof.
  unfold eval_step. rewrite run_get_bind. fold (base_step s).
  lazymatch goal with
  | |- emits_evaluation ?g s (?m s).2 =>
      enough (run_rel (emits_evaluation g) m) as Hm by apply Hm
  end.
  repeat first [ apply eval_image_evaluation
               | apply rel_evaluation_scalar; unfold eval_tag; by eauto 6
               | rel_step ].
Qed.

Lemma silent_reports lo hi s s' : silent s s' → emits_reports lo hi s s'.
Proof.
  intros [Hf Hs]. split; [done|]. exists [], []. rewrite app_nil_r.
  split_and!; [done|done|constructor|constructor].
Qed.

Lemma reports_weaken lo hi lo' hi' s s' :
  lo' ≤ lo → hi ≤ hi' → emits_reports lo hi s s' → emits_reports lo' hi' s s'.
Proof.
  intros Hlo Hhi (Hf & new & its & Hn & Hr & Hs & Hb). split; [done|].
  exists new, its. split_and!; [done..|]. eapply Forall_impl; [exact Hb|]. simpl. lia.
Qed.

Lemma reports_seq lo mid hi s1 s2 s3 :
  emits_reports lo mid s1 s2 → emits_reports mid hi s2 s3 →
  lo ≤ mid → mid ≤ hi →
  emits_reports lo hi s1 s3.
Proof.
  intros (Hf1 & n1 & its1 & E1 & R1 & S1 & B1) (Hf2 & n2 & its2 & E2 & R2 & S2 & B2) H1 H2.
  split; [by eapply step_frame_trans|]. exists (n1 ++ n2), (its1 ++ its2).
  rewrite (step_frame_base _ _ Hf1) in R2.
  split_and!.
  - by rewrite E2, E1, app_assoc.
  - unfold reports_at in *. by rewrite !fmap_app, concat_app, R1, R2.
  - apply StronglySorted_app_2; [|done|done].
    intros x1 x2 Hx1 Hx2. rewrite Forall_forall in B1, B2.
    specialize (B1 x1 Hx1). specialize (B2 x2 Hx2). simpl in *. lia.
  - apply Forall_app. split; (eapply Forall_impl; [eassumption|]); simpl; lia.
Qed.

Lemma report_stats_reports (a : Args F) iter_id st s :
  emits_reports iter_id (iter_id + 1) s (report_stats a iter_id st s).2.
Proof.
  unfold report_stats. rewrite run_lift_bind.
  destruct (py_mod _ _) as [r|]; [|by apply silent_reports].
  case_decide; [|by apply silent_reports].
  rewrite run_get_bind. fold (base_step s).
  unfold py_truediv. destruct (decide (print_every a = 0)); [by apply silent_reports|].
  unfold add_scalar, modify, lift. simpl.
  split; [done|]. eexists [_; _], [iter_id]. split_and!.
  - by rewrite <- app_assoc.
  - done.
  - repeat constructor.
  - repeat constructor; lia.
Qed.

Lemma train_iter_reports (a : Args F) st iter_id batch_begin s :
  emits_reports iter_id (iter_id + 1) s (train_iter a st (iter_id, batch_begin) s).2.
Proof.
  unfold train_iter. rewrite run_get_bind.
  rewrite run_lift_bind. destruct (volume_render _ _ _ _ _); [|by apply silent_reports].
  rewrite run_lift_bind. destruct (mse_loss _ _); [|by apply silent_reports].
  rewrite run_lift_bind. destruct (psnr_of_mse _); [|by apply silent_reports].
  apply (runs_seq (emits_reports iter_id (iter_id + 1)) (λ _, silent)).
  - apply report_stats_reports.
  - intros st' s' _. revert s'.
    lazymatch goal with
    | |- ∀ s', silent s' (?m s').2 => change (run_rel silent m)
    end.
    repeat first [apply backward_silent | apply sgd_step_silent | rel_step].
  - done.
  - intros s' s'' H1 H2.
    eapply reports_weaken; [| |eapply reports_seq;
      [exact H1|apply (silent_reports (iter_id + 1) (iter_id + 1)), H2|..]]; lia.
Qed.

Lemma train_loop_reports_in (a : Args F) (l : list Z) (k : Z) st s :
  emits_reports k (k + Z.of_nat (length l)) s
    (foldM (train_iter a) st (zip (seqZ k (Z.of_nat (length l))) l) s).2.
Proof.
  revert k st s. induction l as [|b l IH]; intros k st s.
  - by apply silent_reports.
  - rewrite seqZ_cons by (simpl; lia).
    replace (Z.pred (Z.of_nat (length (b :: l)))) with (Z.of_nat (length l))
      by (simpl; lia).
    change (foldM ?f st (zip (k :: ?ks) (b :: l)))
      with (f st (k, b) ≫= λ st', foldM f st' (zip ks l)).
    apply (runs_seq (emits_reports k (k + 1))
             (λ _, emits_reports (Z.succ k) (Z.succ k + Z.of_nat (length l)))).
    + apply train_iter_reports.
    + intros st' s' _. apply IH.
    + intros s'. apply reports_weaken; simpl length; lia.
    + intros s' s'' H1 H2.
      assert (emits_reports (k + 1) (k + Z.of_nat (length (b :: l))) s' s'') as H2'
        by (eapply reports_weaken; [| |exact H2]; simpl length; lia).
      apply (reports_seq _ _ _ _ _ _ H1 H2'); simpl length; lia.
Qed.

Lemma train_step_reports_in (a : Args F) s :
  0 < batch_size a →
  emits_reports 0 (n_batches a s) s (train_step a s).2.
Proof.
  intros Hbs.
  pose proof (range_count_nonneg 0 (epoch_size s) (batch_size a) Hbs) as Hnb.
  fold (n_batches a s) in Hnb.
  unfold train_step. rewrite run_get_bind, run_lift_bind.
  destruct (py_range _ _ _) as [begins|] eqn:Hr; [|by apply silent_reports].
  pose proof (py_range_length _ _ _ _ Hbs Hr) as Hlen. fold (n_batches a s) in Hlen.
  apply (runs_seq silent (λ _, emits_reports 0 (n_batches a s))).
  - apply shuffle_dset_silent.
  - intros [] s' _.
    apply (runs_seq (emits_reports 0 (n_batches a s)) (λ _, silent)).
    + rewrite enumerate_zip, <- Hlen.
      apply (train_loop_reports_in a begins 0).
    + intros _ s'' _. reflexivity.
    + done.
    + intros s'' s3 H1 H2.
      eapply reports_weaken; [| |eapply reports_seq;
        [exact H1|apply (silent_reports (n_batches a s) (n_batches a s)), H2|..]]; lia.
  - intros s'. apply silent_reports.
  - intros s' s'' H1 H2.
    eapply reports_weaken; [| |eapply reports_seq;
      [apply (silent_reports 0 0), H1|exact H2|..]]; lia.
Qed.

Lemma epoch_body_summary (a : Args F) (e : Z) s :
  geometry_ok a s →
  let s' := (epoch_body a e s).2 in
  epoch_size s' = epoch_size s ∧ batches_per_epoch s' = batches_per_epoch s
  ∧ ∃ part, summary s' = summary s ++ part
      ∧ epoch_summary (batches_per_epoch s) e part.
Proof.
  intros Hg. pose proof (geometry_bounds a s Hg) as [HB Hn].
  destruct Hg as (Hbs & _ & _).
  unfold epoch_body. rewrite run_modify_bind.
  set (s1 := set_epoch_id e s). set (B := batches_per_epoch s) in *.
  assert (base_step s1 = e * B) as Hbase by done.
  assert (n_batches a s1 = n_batches a s) as Hnb by done.
  pose proof (eval_step_evaluation a s1) as ((He1 & He2 & He3) & evals & Hevals & Hall).
  rewrite Hbase in Hall. rewrite run_bind.
  destruct (eval_step a s1) as [[[]|err] s2]; simpl in *.
  2:{ split; [done|]. split; [done|]. exists evals. split; [done|].
      exists evals, [], []. rewrite app_nil_r.
      split_and!; [done|done|done|constructor|constructor]. }
  pose proof (train_step_reports_in a s2 Hbs)
    as ((Ht1 & Ht2 & Ht3) & trains & its & Htrains & Hrep & Hsort & Hits).
  assert (base_step s2 = e * B) as Hbase2 by (unfold base_step; by rewrite He1, He3).
  assert (n_batches a s2 = n_batches a s) as Hnb2 by (unfold n_batches; by rewrite He2).
  rewrite Hbase2 in Hrep. rewrite Hnb2 in Hits.
  assert (epoch_summary B e (evals ++ trains)) as Hpart.
  { exists evals, trains, its. split_and!; try done.
    eapply Forall_impl; [exact Hits|]. simpl. lia. }
  rewrite run_bind.
  destruct (train_step a s2) as [[[]|err] s3]; simpl in *.
  2:{ split; [by rewrite Ht2, He2|]. split; [by rewrite Ht3, He3|].
      exists (evals ++ trains).
      split; [|done]. by rewrite Htrains, Hevals, app_assoc. }
  unfold save_checkpoint, np_savez, modify. simpl.
  split; [by rewrite Ht2, He2|]. split; [by rewrite Ht3, He3|].
  exists (evals ++ trains).
  split; [|done]. by rewrite Htrains, Hevals, app_assoc.
Qed.

Lemma epochs_summary (a : Args F) (m : nat) (k : Z) s :
  geometry_ok a s →
  emits_epochs k s (for_each (seqZ k (Z.of_nat m)) (epoch_body a) s).2.
Proof.
  revert k s. induction m as [|m IH]; intros k s Hg.
  - split; [done|]. split; [done|]. exists []. rewrite app_nil_r. split; [done|].
    intros i part Hi. by rewrite lookup_nil in Hi.
  - rewrite seqZ_cons by lia.
    replace (Z.pred (Z.of_nat (S m))) with (Z.of_nat m) by lia.
    unfold for_each.
    change (foldM ?f tt (k :: ?ks)) with (f tt k ≫= λ b, foldM f b ks).
    pose proof (epoch_body_summary a k s Hg) as (Hes & Hb & part & Hpart & Hsum).
    rewrite run_bind.
    destruct (epoch_body a k s) as [[[]|err] s1]; simpl in *.
    2:{ split; [done|]. split; [done|]. exists [part]. simpl. rewrite app_nil_r.
        split; [done|]. intros [|i] p Hi; [|done]. injection Hi as <-.
        by rewrite Z.add_0_r. }
    assert (geometry_ok a s1) as Hg1.
    { destruct Hg as (? & ? & ?). unfold geometry_ok. by rewrite Hes, Hb. }
    pose proof (IH (Z.succ k) s1 Hg1) as (Hes2 & Hb2 & parts & Hparts & Hall).
    fold (for_each (seqZ (Z.succ k) (Z.of_nat m)) (epoch_body a)).
    split; [congruence|]. split; [congruence|]. exists (part :: parts). split.
    + rewrite Hparts, Hpart. simpl. by rewrite app_assoc.
    + intros [|i] p Hi.
      * injection Hi as <-. by rewrite Z.add_0_r.
      * apply Hall in Hi. rewrite Hb in Hi.
        by replace (k + Z.of_nat (S i)) with (Z.succ k + Z.of_nat i) by lia.
Qed.

Lemma epoch_loop_summary (a : Args F) s :
  geometry_ok a s → emits_epochs 0 s (epoch_loop a s).2.
Proof.
  intros Hg. unfold epoch_loop. rewrite py_range_unit, run_lift_bind.
  destruct (decide (0 ≤ n_epochs a)).
  - rewrite <- (Z2Nat.id (n_epochs a)) by done. by apply epochs_summary.
  - replace (seqZ 0 (n_epochs a)) with (seqZ 0 (Z.of_nat 0)).
    + by apply (epochs_summary a 0).
    + unfold seqZ. by replace (Z.to_nat (n_epochs a)) with 0%nat by lia.
Qed.

Lemma reports_at_step base its (trains : list (Emission F)) x :
  reports_at base its trains → x ∈ trains →
  ∃ it, it ∈ its ∧ global_step x = it + base.
Proof.
  unfold reports_at. intros Hr Hx.
  apply (list_elem_of_fmap_2 tag_step) in Hx. rewrite Hr in Hx.
  apply list_elem_of_In, in_concat in Hx as (pair & Hpair & Hin).
  apply list_elem_of_In in Hpair, Hin.
  apply list_elem_of_fmap in Hpair as (it & -> & Hit).
  exists it. split; [done|].
  apply elem_of_cons in Hin as [Hin|Hin].
  - by injection Hin as _ ->.
  - apply list_elem_of_singleton in Hin. by injection Hin as _ ->.
Qed.

Lemma epoch_summary_bounds B e (part : list (Emission F)) x :
  1 ≤ B → epoch_summary B e part → x ∈ part →
  e * B ≤ global_step x < (e + 1) * B.
Proof.
  intros HB (evals & trains & its & -> & Hev & Hrep & _ & Hits) Hx.
  apply elem_of_app in Hx as [Hx|Hx].
  - unfold evaluation_at in Hev. rewrite Forall_forall in Hev.
    destruct (Hev x Hx) as [-> _]. lia.
  - destruct (reports_at_step _ _ _ _ Hrep Hx) as (it & Hit & ->).
    rewrite Forall_forall in Hits. specialize (Hits it Hit). simpl in Hits. lia.
Qed.
End StepsByEpoch.

Section StepsOfTheRun.
Context {F : Type} {SF : Scalar F} {EF : Extern F}.
Implicit Types (s : State).

(** C3 (as amended).  With a batch size of at least one, the steps of the
    summary never decrease, and they are equal only where the script
    uses one step on purpose.  All emissions of one call of [eval_step]
    carry the step [epoch_id * batches_per_epoch]; one training iteration
    emits nothing, or [mse] and [psnr] at the one step
    [iter_id + epoch_id * batches_per_epoch].  The summary of a run is,
    epoch after epoch, the emissions of the evaluation of epoch [e], all
    at step [e * B], followed by training reports at steps [it + e * B]
    for strictly increasing iterations [0 <= it < B]
    ([B = batches_per_epoch]); so later reports of an epoch carry greater
    steps than earlier ones, and, the training set not being empty, every
    emission of a later epoch carries a greater step than every emission
    of an earlier one. *)
Theorem summary_steps_by_epoch (a : Args F) files disk0 :
  1 ≤ batch_size a →
  let log := (main a files disk0).1.2 in
  steps_nondecreasing log
  ∧ (∀ s, ∃ new, summary (eval_step a s).2 = summary s ++ new
        ∧ evaluation_at (epoch_id s * batches_per_epoch s) new)
  ∧ (∀ st iter_id b s,
       let g := iter_id + epoch_id s * batches_per_epoch s in
       ∃ new, summary (train_iter a st (iter_id, b) s).2 = summary s ++ new
         ∧ (new = [] ∨ tag_step <$> new = [("mse", g); ("psnr", g)]))
  ∧ (∀ s0, setup a files disk0 = Ok s0 →
       let B := batches_per_epoch s0 in
       ∃ parts : list (list (Emission F)),
         log = concat parts
         ∧ (∀ (e : nat) part, parts !! e = Some part →
              epoch_summary B (Z.of_nat e) part)
         ∧ (1 ≤ epoch_size s0 →
            ∀ (e e' : nat) p p' x y, (e < e')%nat →
              parts !! e = Some p → parts !! e' = Some p' → x ∈ p → y ∈ p' →
              global_step x < global_step y)).
Proof.
  intros Hbs log. split_and!.
  - by apply summary_steps_sorted.
  - intros s. destruct (eval_step_evaluation a s) as (_ & new & Hnew & Hall).
    by exists new.
  - intros st iter_id b s g.
    destruct (train_iter_reports a st iter_id b s)
      as (_ & new & its & Hnew & Hrep & Hsort & Hits).
    exists new. split; [done|]. unfold reports_at in Hrep.
    destruct its as [|it its].
    { left. by destruct new. }
    right. apply Forall_cons in Hits as [Hit Hits].
    destruct its as [|it' its].
    + assert (it = iter_id) as -> by lia. exact Hrep.
    + apply Forall_cons in Hits as [Hit' _].
      apply StronglySorted_inv in Hsort as [_ Hlt].
      apply Forall_cons in Hlt as [Hlt _]. lia.
  - intros s0 Hsetup B. subst log. unfold main.
    destruct (startup a) as [[]|err]; simpl.
    2:{ exists []. split; [done|]. split; [by intros e part He|].
        intros _ e e' p p' x y _ He. by rewrite lookup_nil in He. }
    rewrite Hsetup.
    pose proof (setup_Ok _ _ _ _ Hsetup) as (Hsum & _ & _ & Hes & _ & Hb).
    assert (geometry_ok a s0) as Hg by (by split_and!; [lia|done|done]).
    pose proof (epoch_loop_summary a s0 Hg) as (_ & _ & parts & Hparts & Hall).
    destruct (epoch_loop a s0) as [r s]. simpl in *.
    rewrite Hsum in Hparts. simpl in Hparts.
    exists parts. split; [done|]. split; [done|].
    intros Hes1 e e' p p' x y Hlt Hp Hp' Hx Hy.
    assert (1 ≤ B) as HB.
    { subst B. rewrite Hb.
      assert (0 ≤ (epoch_size s0 - 1) `div` batch_size a) by (apply Z.div_pos; lia).
      lia. }
    pose proof (epoch_summary_bounds _ _ _ x HB (Hall _ _ Hp) Hx).
    pose proof (epoch_summary_bounds _ _ _ y HB (Hall _ _ Hp') Hy).
    nia.
Qed.
End StepsOfTheRun.

Lemma summary_steps_by_epoch_witness :
  let log := (main toy_args toy_files ∅).1.2 in
  steps_nondecreasing log
  ∧ ∃ parts : list (list (Emission Z)),
      log = concat parts
      ∧ ∀ (e : nat) part, parts !! e = Some part →
          epoch_summary (batches_per_epoch toy_state0) (Z.of_nat e) part.
Proof.
  destruct (summary_steps_by_epoch toy_args toy_files ∅ ltac:(vm_compute; discriminate))
    as (Hle & _ & _ & Hparts).
  split; [exact Hle|].
  destruct (Hparts toy_state0 setup_toy) as (parts & Hlog & Hall & _).
  exists parts. split; [exact Hlog|exact Hall].
Defined.
